(** * interview_gpt: provider orchestration and credit monitoring

    A shallow embedding of the two edge functions of the repository,

      - [ai-orchestrator-function.ts]  (module [Orchestrator]) and
      - [credit-monitor-function.ts]   (module [CreditMonitor]),

    over an explicit model of the two tables they share ([ai_models] and
    [ai_usage_tracking]).  Store calls are explicit state passing; provider
    adapters are oracles of the deployment environment that either return a
    string or throw. *)

From Stdlib Require Import ZArith List String Bool Lia Permutation.
Import ListNotations.

Open Scope string_scope.
Open Scope list_scope.
Open Scope Z_scope.

(* ================================================================== *)
(** ** The fragment of JavaScript the two functions rely on            *)
(* ================================================================== *)

Module JS.

(** The [%] operator on integral numbers: the remainder takes the sign of
    the dividend (truncated division), and is exact.  Where JavaScript
    produces the negative zero ([-5 % 5]) the model has [0]; as an array
    index the two are the same property key, ["0"]. *)
Definition rem (a b : Z) : Z := Z.rem a b.

(** [arr[i]] for an integral [i]: [undefined] ([None]) outside
    [0 .. length-1]. *)
Definition index {A : Type} (arr : list A) (i : Z) : option A :=
  if i <? 0 then None else nth_error arr (Z.to_nat i).

(** Truthiness of a string value: the empty string is falsy. *)
Definition truthy (s : string) : bool :=
  match s with EmptyString => false | String _ _ => true end.

(** Truthiness of [Deno.env.get(k)]: [undefined] and [""] are falsy. *)
Definition truthy_opt (s : option string) : bool :=
  match s with None => false | Some v => truthy v end.

(** [s.length]. *)
Definition length (s : string) : Z := Z.of_nat (String.length s).

(** [a || b] on optional strings. *)
Definition or_else (a : option string) (b : string) : string :=
  if truthy_opt a then match a with Some v => v | None => b end else b.

(** A call that either returns or throws. *)
Inductive outcome (A : Type) : Type :=
| Returns (a : A)
| Throws (message : string).
Arguments Returns {A} a.
Arguments Throws {A} message.

(** A number of the code is a double.  The model writes an integral one
    as the integer it holds.  Every integer of magnitude up to [2^53] is a
    double; the result of an operation that is no double is rounded to the
    nearest one, which keeps 53 significant bits, ties going to the even
    significand. *)
Definition roundToDouble (z : Z) : Z :=
  let a := Z.abs z in
  if a <=? 2 ^ 53 then z
  else
    let e := Z.log2 a - 52 in
    let q := Z.shiftr a e in
    let r := a - Z.shiftl q e in
    let half := Z.shiftl 1 (e - 1) in
    let q' := if r <? half then q
              else if half <? r then q + 1
              else if Z.even q then q else q + 1 in
    Z.sgn z * Z.shiftl q' e.

(** [a - b] on integral numbers.  (A double less one is far from the
    overflow threshold.) *)
Definition sub (a b : Z) : Z := roundToDouble (a - b).

(** [Number.MAX_SAFE_INTEGER] and [Number.isSafeInteger] on integral
    numbers: on the safe integers [a - 1] is exact. *)
Definition MAX_SAFE_INTEGER : Z := 2 ^ 53 - 1.

Definition safeInteger (z : Z) : Prop :=
  - MAX_SAFE_INTEGER <= z <= MAX_SAFE_INTEGER.

(** The two values that have no properties. *)
Inductive nullish : Type := Undefined | Null.

(** A value that may be absent: a destructured key the body does not
    have, or a property the payload does not have. *)
Inductive optional (A : Type) : Type :=
| Given (a : A)
| Missing (n : nullish).
Arguments Given {A} a.
Arguments Missing {A} n.

Definition nullishName (n : nullish) : string :=
  match n with Undefined => "undefined" | Null => "null" end.

(** The message of the [TypeError] a property read on a nullish value
    throws (the wording of V8, the engine under Deno). *)
Definition typeError (n : nullish) (property : string) : string :=
  "Cannot read properties of " ++ nullishName n
  ++ " (reading '" ++ property ++ "')".

End JS.

(* ================================================================== *)
(** ** Dates                                                           *)
(* ================================================================== *)

(** A [Date] is its [getTime()]: milliseconds since the epoch.  The
    timestamp columns hold ISO strings produced by [toISOString()], which
    [new Date(...)] reads back to the same millisecond count.  The calendar
    fields are those of a runtime whose local zone is UTC, as the edge
    runtime's is. *)
Module Date.

Definition msPerDay : Z := 1000 * 60 * 60 * 24.

(** Day number since 1970-01-01. *)
Definition dayNumber (t : Z) : Z := t / msPerDay.

(** Proleptic Gregorian year and month (1..12) of a day number. *)
Definition civil (days : Z) : Z * Z :=
  let z := days + 719468 in
  let era := z / 146097 in
  let doe := z - era * 146097 in
  let yoe := (doe - doe / 1460 + doe / 36524 - doe / 146096) / 365 in
  let y := yoe + era * 400 in
  let doy := doe - (365 * yoe + yoe / 4 - yoe / 100) in
  let mp := (5 * doy + 2) / 153 in
  let m := if mp <? 10 then mp + 3 else mp - 9 in
  (if m <=? 2 then y + 1 else y, m).

Definition getFullYear (t : Z) : Z := fst (civil (dayNumber t)).

(** Zero-based, as in JavaScript. *)
Definition getMonth (t : Z) : Z := snd (civil (dayNumber t)) - 1.

End Date.

(* ================================================================== *)
(** ** The credit store                                                *)
(* ================================================================== *)

(** A row of [ai_models]. *)
Record AiModel : Type := mkAiModel {
  codename : string;
  original_name : string;
  credit_status : bool;
  current_daily_usage : Z;
  current_monthly_usage : Z;
  daily_limit : Z;
  monthly_limit : Z;
  last_reset_daily : Z;
  last_reset_monthly : Z;
  last_checked : Z
}.

(** A row of [ai_usage_tracking]. *)
Record UsageRow : Type := mkUsageRow {
  model_codename : string;
  session_id : string;
  requests_made : Z;
  tokens_used : Z
}.

(** Both tables.  A list is the table in the order in which an unordered
    [select] hands its rows back. *)
Record Store : Type := mkStore {
  ai_models : list AiModel;
  ai_usage_tracking : list UsageRow
}.

Definition with_models (f : list AiModel -> list AiModel) (st : Store) : Store :=
  mkStore (f (ai_models st)) (ai_usage_tracking st).

(** [.update(...).eq('codename', cn)]: the rows named [cn] are rewritten,
    the others are left alone. *)
Definition update_where_codename (cn : string) (f : AiModel -> AiModel)
    (rows : list AiModel) : list AiModel :=
  map (fun r => if (codename r =? cn)%string then f r else r) rows.

(** HTTP responses: a status and a JSON body. *)
Record Response (B : Type) : Type := mkResponse {
  status : Z;
  body : B
}.
Arguments mkResponse {B} status body.
Arguments status {B} r.
Arguments body {B} r.

(** [new Response(JSON.stringify(b), { headers })]: the status defaults to
    200. *)
Definition ok {B : Type} (b : B) : Response B := mkResponse 200 b.

(* ================================================================== *)
(** ** credit-monitor-function.ts                                      *)
(* ================================================================== *)

Module CreditMonitor.

(** An entry of [exhaustedModels] in [checkAndUpdateCredits]. *)
Record Exhausted : Type := mkExhausted {
  ex_codename : string;
  ex_reason : string;
  ex_usage : Z;
  ex_limit : Z
}.

(** An entry of [updates]. *)
Record Update : Type := mkUpdate {
  up_codename : string;
  up_credit_status : bool;
  up_current_daily_usage : Z;
  up_current_monthly_usage : Z;
  up_last_reset_daily : Z;
  up_last_reset_monthly : Z;
  up_last_checked : Z
}.

Definition daysSinceReset (now : Z) (model : AiModel) : Z :=
  (now - last_reset_daily model) / Date.msPerDay.

Definition monthsSinceReset (now : Z) (model : AiModel) : Z :=
  (Date.getFullYear now - Date.getFullYear (last_reset_monthly model)) * 12
  + (Date.getMonth now - Date.getMonth (last_reset_monthly model)).

(** One iteration of the [for (const model of models)] loop: the entries
    it pushes on [exhaustedModels] and on [updates].  The local variables
    are threaded through the three conditionals in source order. *)
Definition evaluateModel (now : Z) (model : AiModel)
    : list Exhausted * list Update :=
  let needsUpdate := false in
  let newStatus := credit_status model in
  let newDailyUsage := current_daily_usage model in
  let newMonthlyUsage := current_monthly_usage model in
  let newDailyReset := last_reset_daily model in
  let newMonthlyReset := last_reset_monthly model in
  (* daily reset *)
  let daysSinceReset := daysSinceReset now model in
  let '(newDailyUsage, newDailyReset, needsUpdate) :=
    if 1 <=? daysSinceReset then (0, now, true)
    else (newDailyUsage, newDailyReset, needsUpdate) in
  (* monthly reset *)
  let monthsSinceReset := monthsSinceReset now model in
  let '(newMonthlyUsage, newMonthlyReset, needsUpdate) :=
    if 1 <=? monthsSinceReset then (0, now, true)
    else (newMonthlyUsage, newMonthlyReset, needsUpdate) in
  (* credit limits *)
  let dailyExceeded :=
    (0 <? daily_limit model) && (daily_limit model <=? newDailyUsage) in
  let monthlyExceeded :=
    (0 <? monthly_limit model) && (monthly_limit model <=? newMonthlyUsage) in
  let '(newStatus, pushed, needsUpdate) :=
    if dailyExceeded || monthlyExceeded then
      (false,
       if credit_status model
       then [ mkExhausted (codename model)
                (if dailyExceeded
                 then "Daily limit exceeded" else "Monthly limit exceeded")
                (if dailyExceeded then newDailyUsage else newMonthlyUsage)
                (if dailyExceeded
                 then daily_limit model else monthly_limit model) ]
       else [],
       true)
    else if negb (credit_status model)
            && ((1 <=? daysSinceReset) || (1 <=? monthsSinceReset)) then
      (true, [], true)
    else (newStatus, [], needsUpdate) in
  (pushed,
   if needsUpdate
   then [ mkUpdate (codename model) newStatus newDailyUsage newMonthlyUsage
            newDailyReset newMonthlyReset now ]
   else []).

(** The loop, with its two accumulators. *)
Fixpoint scanModels (now : Z) (models : list AiModel)
    (exhaustedModels : list Exhausted) (updates : list Update)
    : list Exhausted * list Update :=
  match models with
  | [] => (exhaustedModels, updates)
  | model :: rest =>
      let '(pushed, update) := evaluateModel now model in
      scanModels now rest (exhaustedModels ++ pushed) (updates ++ update)
  end.

(** [supabase.from('ai_models').update(update).eq('codename', ...)]. *)
Definition writeUpdate (update : Update) (r : AiModel) : AiModel :=
  mkAiModel (codename r) (original_name r)
    (up_credit_status update)
    (up_current_daily_usage update) (up_current_monthly_usage update)
    (daily_limit r) (monthly_limit r)
    (up_last_reset_daily update) (up_last_reset_monthly update)
    (up_last_checked update).

Definition applyUpdate (st : Store) (update : Update) : Store :=
  with_models
    (update_where_codename (up_codename update) (writeUpdate update)) st.

Record CheckBody : Type := mkCheckBody {
  success : bool;
  exhaustedModels : list Exhausted;
  updatedModels : Z;
  timestamp : Z
}.

Definition checkAndUpdateCredits (now : Z) (st : Store)
    : Response CheckBody * Store :=
  let '(exhausted, updates) := scanModels now (ai_models st) [] [] in
  let st' := fold_left applyUpdate updates st in
  (ok (mkCheckBody true exhausted (Z.of_nat (List.length updates)) now), st').

(** [resetCredits]: every row whose codename is not the empty string. *)
Definition resetRow (now : Z) (r : AiModel) : AiModel :=
  mkAiModel (codename r) (original_name r) true 0 0
    (daily_limit r) (monthly_limit r) now now now.

Definition resetCredits (now : Z) (st : Store) : Response (bool * string) * Store :=
  (ok (true, "All credits reset"),
   with_models
     (map (fun r => if (codename r =? "")%string then r else resetRow now r))
     st).

(** An entry of the [get_exhausted_models] answer. *)
Record ExhaustedInfo : Type := mkExhaustedInfo {
  ei_codename : string;
  ei_name : string;
  ei_dailyUsage : Z;
  ei_monthlyUsage : Z;
  ei_dailyLimit : Z;
  ei_monthlyLimit : Z;
  ei_reason : string
}.

Definition exhaustedInfo (model : AiModel) : ExhaustedInfo :=
  mkExhaustedInfo (codename model) (original_name model)
    (current_daily_usage model) (current_monthly_usage model)
    (daily_limit model) (monthly_limit model)
    (if (0 <? daily_limit model)
        && (daily_limit model <=? current_daily_usage model)
     then "Daily limit exceeded" else "Monthly limit exceeded").

Definition getExhaustedModels (st : Store) : Response (list ExhaustedInfo) :=
  ok (map exhaustedInfo
        (filter (fun model => negb (credit_status model)) (ai_models st))).

(** *** The loop's quantities as functions of [now] and the row

    Closed forms of the values the local variables of one iteration end
    with; [evaluateModel_closed] below relates them to [evaluateModel]. *)

Definition dailyResetDue (now : Z) (model : AiModel) : bool :=
  1 <=? daysSinceReset now model.

Definition monthlyResetDue (now : Z) (model : AiModel) : bool :=
  1 <=? monthsSinceReset now model.

Definition newDailyUsage (now : Z) (model : AiModel) : Z :=
  if dailyResetDue now model then 0 else current_daily_usage model.

Definition newMonthlyUsage (now : Z) (model : AiModel) : Z :=
  if monthlyResetDue now model then 0 else current_monthly_usage model.

Definition newDailyReset (now : Z) (model : AiModel) : Z :=
  if dailyResetDue now model then now else last_reset_daily model.

Definition newMonthlyReset (now : Z) (model : AiModel) : Z :=
  if monthlyResetDue now model then now else last_reset_monthly model.

Definition dailyExceeded (now : Z) (model : AiModel) : bool :=
  (0 <? daily_limit model) && (daily_limit model <=? newDailyUsage now model).

Definition monthlyExceeded (now : Z) (model : AiModel) : bool :=
  (0 <? monthly_limit model)
  && (monthly_limit model <=? newMonthlyUsage now model).

Definition limitExceeded (now : Z) (model : AiModel) : bool :=
  dailyExceeded now model || monthlyExceeded now model.

Definition resetDue (now : Z) (model : AiModel) : bool :=
  dailyResetDue now model || monthlyResetDue now model.

Definition newStatus (now : Z) (model : AiModel) : bool :=
  if limitExceeded now model then false
  else if negb (credit_status model) && resetDue now model then true
  else credit_status model.

(** The final value of [needsUpdate]. *)
Definition needsUpdate (now : Z) (model : AiModel) : bool :=
  resetDue now model || limitExceeded now model.

(** The entry of [updates] for a row, when there is one. *)
Definition updateOf (now : Z) (model : AiModel) : Update :=
  mkUpdate (codename model) (newStatus now model)
    (newDailyUsage now model) (newMonthlyUsage now model)
    (newDailyReset now model) (newMonthlyReset now model) now.

(** The row as [check_credits] leaves it. *)
Definition checkedRow (now : Z) (model : AiModel) : AiModel :=
  if needsUpdate now model then writeUpdate (updateOf now model) model
  else model.

(** The gate changed something other than [last_checked]: the status, a
    counter or a reset timestamp of the update differs from the row's. *)
Definition changed (now : Z) (model : AiModel) : bool :=
  negb (Bool.eqb (newStatus now model) (credit_status model)
        && (newDailyUsage now model =? current_daily_usage model)
        && (newMonthlyUsage now model =? current_monthly_usage model)
        && (newDailyReset now model =? last_reset_daily model)
        && (newMonthlyReset now model =? last_reset_monthly model)).

Definition newlyExhausted (now : Z) (model : AiModel) : bool :=
  limitExceeded now model && credit_status model.

(** The entry of [exhaustedModels] for a row, when there is one. *)
Definition exhaustedOf (now : Z) (model : AiModel) : Exhausted :=
  mkExhausted (codename model)
    (if dailyExceeded now model
     then "Daily limit exceeded" else "Monthly limit exceeded")
    (if dailyExceeded now model
     then newDailyUsage now model else newMonthlyUsage now model)
    (if dailyExceeded now model then daily_limit model else monthly_limit model).

(** What a sequence of updates does to one row. *)
Definition writeRow (r : AiModel) (update : Update) : AiModel :=
  if (codename r =? up_codename update)%string then writeUpdate update r else r.

End CreditMonitor.

(* ================================================================== *)
(** ** Store procedures used by the orchestrator                       *)
(* ================================================================== *)

(** [supabase.from('ai_usage_tracking').insert(row)]. *)
Definition insert_usage (row : UsageRow) (st : Store) : Store :=
  mkStore (ai_models st) (ai_usage_tracking st ++ [row]).

(** The amounts the database procedure [update_model_usage] adds to the two
    usage counters, as functions of [requests_to_add] and [tokens_to_add]. *)
Record UsageAmounts : Type := mkUsageAmounts {
  daily_amount : Z -> Z -> Z;
  monthly_amount : Z -> Z -> Z
}.

(** Modelled from the spec: what the increment primitive does to one row;
    only the two usage counters move. *)
Definition add_usage (amounts : UsageAmounts) (requests tokens : Z)
    (r : AiModel) : AiModel :=
  mkAiModel (codename r) (original_name r) (credit_status r)
    (current_daily_usage r + daily_amount amounts requests tokens)
    (current_monthly_usage r + monthly_amount amounts requests tokens)
    (daily_limit r) (monthly_limit r)
    (last_reset_daily r) (last_reset_monthly r) (last_checked r).

(** Modelled from the spec: the stored procedure [update_model_usage] behind
    [supabase.rpc('update_model_usage', ...)] is a database migration that is
    not among the sources.  Following section 4.4 and section 5 of the
    specification it is the store's increment primitive: one atomic
    server-side statement that adds to [dailyUsage] and [monthlyUsage] of the
    provider named [model_name].  The specification leaves the amounts to the
    primitive, so they are a parameter. *)
Definition update_model_usage (amounts : UsageAmounts)
    (model_name : string) (requests_to_add tokens_to_add : Z)
    (st : Store) : Store :=
  with_models
    (update_where_codename model_name
       (add_usage amounts requests_to_add tokens_to_add)) st.

(* ================================================================== *)
(** ** ai-orchestrator-function.ts                                     *)
(* ================================================================== *)

Module Orchestrator.

Import JS.

(** [interface InterviewContext].  The two numbers are taken to be
    integral doubles, written as the integers they hold. *)
Record InterviewContext : Type := mkContext {
  sessionId : string;
  sessionType : string;
  difficulty : Z;
  questionNumber : Z;
  previousQuestions : list string;
  userResponse : option string;
  audioData : option string
}.

(** The deployment environment: credentials, endpoints, the provider
    adapters (each performs one network call and returns the extracted
    text or throws) and the usage procedure of the database.

    A question adapter that hands back [undefined] is read as returning
    [""]: [generate_question] only tests the text for truthiness before it
    replaces a falsy one.  The evaluator's text is serialised unread by
    its callers and is taken as a string.  The transcript is different:
    [process_audio] reads its [length], so [callLocalSTT] says when the
    payload holds no transcript ([data.transcript || data.text] is then
    [undefined], or [null]). *)
Record Env : Type := mkEnv {
  GROQ_API_KEY : option string;
  MISTRAL_API_KEY : option string;
  ANTHROPIC_API_KEY : option string;
  ELEVENLABS_API_KEY : option string;
  AZURE_SPEECH_KEY : option string;
  NOVA_ENDPOINT : string;
  ECHO_ENDPOINT : string;
  callGroqAPI : InterviewContext -> outcome string;
  callMistralAPI : InterviewContext -> outcome string;
  callLocalModel : string -> InterviewContext -> outcome string;
  evaluateWithAthena : string -> InterviewContext -> outcome string;
  callElevenLabsAPI : string -> outcome string;
  callAzureTTS : string -> outcome string;
  callLocalSTT : option string -> outcome (optional string);
  usage_amounts : UsageAmounts
}.

(** What a request sees and leaves behind: the store, and the provider
    adapters it has invoked so far, oldest first. *)
Record World : Type := mkWorld {
  store : Store;
  adapterCalls : list string
}.

(** Requests are state transformers over [World]. *)
Definition M (A : Type) : Type := World -> A * World.

Definition ret {A : Type} (a : A) : M A := fun w => (a, w).

Definition bind {A B : Type} (m : M A) (k : A -> M B) : M B :=
  fun w => let '(a, w') := m w in k a w'.

Notation "x <- m ;; k" := (bind m (fun x => k))
  (at level 61, m at next level, right associativity).
Notation "m ;;; k" := (bind m (fun _ => k))
  (at level 61, right associativity).

Definition query {A : Type} (f : Store -> A) : M A :=
  fun w => (f (store w), w).

Definition command (f : Store -> Store) : M unit :=
  fun w => (tt, mkWorld (f (store w)) (adapterCalls w)).

(** [await adapter(...)], recorded under the provider's codename. *)
Definition invoke {A : Type} (provider : string) (call : outcome A)
    : M (outcome A) :=
  fun w => (call, mkWorld (store w) (adapterCalls w ++ [provider])).

(** *** Utility functions *)

Definition getAvailableModels (modelNames : list string) : M (list AiModel) :=
  query (fun st =>
    filter (fun r => existsb (String.eqb (codename r)) modelNames
                     && credit_status r)
           (ai_models st)).

(** [.single()] yields no data unless exactly one row matches. *)
Definition isModelAvailable (cn : string) : M bool :=
  query (fun st =>
    match filter (fun r => (codename r =? cn)%string) (ai_models st) with
    | [r] => credit_status r
    | _ => false
    end).

Definition setUnavailable (now : Z) (r : AiModel) : AiModel :=
  mkAiModel (codename r) (original_name r) false
    (current_daily_usage r) (current_monthly_usage r)
    (daily_limit r) (monthly_limit r)
    (last_reset_daily r) (last_reset_monthly r) now.

Definition markModelUnavailable (now : Z) (cn : string) : M unit :=
  command (with_models (update_where_codename cn (setUnavailable now))).

Definition trackUsage (env : Env) (modelCodename sessionId : string)
    (requests tokens : Z) : M unit :=
  command (insert_usage (mkUsageRow modelCodename sessionId requests tokens)) ;;;
  command (update_model_usage (usage_amounts env) modelCodename requests tokens).

(** A row of the [get_model_status] answer. *)
Record ModelStatus : Type := mkModelStatus {
  ms_codename : string;
  ms_credit_status : bool;
  ms_current_daily_usage : Z;
  ms_current_monthly_usage : Z;
  ms_daily_limit : Z;
  ms_monthly_limit : Z
}.

Fixpoint insertByCodename (r : AiModel) (sorted : list AiModel)
    : list AiModel :=
  match sorted with
  | [] => [r]
  | r' :: rest =>
      if String.leb (codename r) (codename r') then r :: sorted
      else r' :: insertByCodename r rest
  end.

(** [.order('codename')]. *)
Definition orderByCodename (rows : list AiModel) : list AiModel :=
  fold_right insertByCodename [] rows.

Definition getModelStatus : M (list ModelStatus) :=
  query (fun st =>
    map (fun r => mkModelStatus (codename r) (credit_status r)
                    (current_daily_usage r) (current_monthly_usage r)
                    (daily_limit r) (monthly_limit r))
        (orderByCodename (ai_models st))).

(** *** Fallback content *)

Definition questions : list string :=
  [ "Tell me about a challenging project you've worked on recently.";
    "How do you handle working under pressure and tight deadlines?";
    "What motivates you in your professional work?";
    "Describe a time when you had to learn something new quickly.";
    "What are your greatest professional strengths?" ].

(** [undefined] is [None]. *)
Definition getFallbackQuestion (context : InterviewContext) : option string :=
  index questions
    (rem (sub (questionNumber context) 1) (Z.of_nat (List.length questions))).

Record Scores : Type := mkScores {
  clarity : Z;
  confidence : Z;
  content : Z;
  tone : Z
}.

(** The JSON bodies the endpoint answers with. *)
Inductive Body : Type :=
| Unavailable (error : string) (unavailableModels : list string)
| QuestionResult (question : option string) (usedModel : string)
    (evaluation : option string) (modelStatus : list ModelStatus)
| TranscriptResult (transcript : string) (usedModel : string)
| SpeechResult (audioUrl : string) (usedModel : string)
| SpeechFailed (error : string) (useBrowserTTS : bool)
| EvaluationResult (evaluation : string) (usedModel : string)
| FallbackEvaluation (evaluation : string) (usedModel : string)
    (scores : Scores).

Definition getFallbackEvaluation (context : InterviewContext) : Response Body :=
  ok (FallbackEvaluation
        "Response received and noted. Continue with the interview."
        "Fallback" (mkScores 7 7 7 7)).

(** *** generate_question *)

(** The [for (const model of availableModels)] loop of
    [generateInterviewQuestion]; it yields the final values of [question]
    and [usedModel], both initially [""].  A [break] returns, [continue]
    recurses on the remaining rows. *)
Fixpoint tryModels (env : Env) (now : Z) (context : InterviewContext)
    (availableModels : list AiModel) : M (string * string) :=
  match availableModels with
  | [] => ret ("", "")
  | model :: rest =>
      if (codename model =? "Orion")%string && truthy_opt (GROQ_API_KEY env)
      then
        r <- invoke "Orion" (callGroqAPI env context) ;;
        match r with
        | Returns question => ret (question, "Orion")
        | Throws _ =>
            markModelUnavailable now (codename model) ;;;
            tryModels env now context rest
        end
      else if (codename model =? "Titan")%string
              && truthy_opt (MISTRAL_API_KEY env)
      then
        r <- invoke "Titan" (callMistralAPI env context) ;;
        match r with
        | Returns question => ret (question, "Titan")
        | Throws _ =>
            markModelUnavailable now (codename model) ;;;
            tryModels env now context rest
        end
      else if (codename model =? "Nova")%string
      then
        r <- invoke "Nova" (callLocalModel env (NOVA_ENDPOINT env) context) ;;
        match r with
        | Returns question => ret (question, "Nova")
        | Throws _ =>
            markModelUnavailable now (codename model) ;;;
            tryModels env now context rest
        end
      else tryModels env now context rest
  end.

Definition generateInterviewQuestion (env : Env) (now : Z)
    (context : InterviewContext) : M (Response Body) :=
  availableModels <- getAvailableModels ["Orion"; "Titan"; "Nova"] ;;
  if (Z.of_nat (List.length availableModels) =? 0)
  then ret (mkResponse 503
              (Unavailable "No AI models available" ["Orion"; "Titan"; "Nova"]))
  else
    found <- tryModels env now context availableModels ;;
    let '(question, usedModel) :=
      if negb (truthy (fst found))
      then (getFallbackQuestion context, "Fallback")
      else (Some (fst found), snd found) in
    (if negb (usedModel =? "Fallback")%string
     then trackUsage env usedModel (sessionId context) 1
            (length (fst found))
     else ret tt) ;;;
    athenaAvailable <- isModelAvailable "Athena" ;;
    evaluation <-
      (if athenaAvailable && truthy_opt (userResponse context)
       then
         r <- invoke "Athena"
                (evaluateWithAthena env
                   (or_else (userResponse context) "") context) ;;
         match r with
         | Returns e => ret (Some e)
         | Throws _ => ret None
         end
       else ret None) ;;
    modelStatus <- getModelStatus ;;
    ret (ok (QuestionResult question usedModel evaluation modelStatus)).

(** *** process_audio *)

Definition processAudioInput (env : Env) (now : Z)
    (context : InterviewContext) : M (outcome (Response Body)) :=
  echoAvailable <- isModelAvailable "Echo" ;;
  if negb echoAvailable
  then ret (Returns (mkResponse 503
              (Unavailable "Speech recognition unavailable" ["Echo"])))
  else
    r <- (if truthy (ECHO_ENDPOINT env)
          then invoke "Echo" (callLocalSTT env (audioData context))
          else ret (Returns (Given (or_else (userResponse context) "")))) ;;
    match r with
    | Returns (Given transcript) =>
        trackUsage env "Echo" (sessionId context) 1 (length transcript) ;;;
        ret (Returns (ok (TranscriptResult transcript "Echo")))
    | Returns (Missing n) =>
        (* [transcript.length] throws inside the [try] *)
        markModelUnavailable now "Echo" ;;;
        ret (Throws (typeError n "length"))
    | Throws e =>
        markModelUnavailable now "Echo" ;;;
        ret (Throws e)
    end.

(** *** generate_speech *)

Fixpoint trySpeech (env : Env) (now : Z) (context : InterviewContext)
    (availableModels : list AiModel) : M (Response Body) :=
  match availableModels with
  | [] => ret (ok (SpeechFailed "All TTS models failed" true))
  | model :: rest =>
      if (codename model =? "Vox")%string
         && truthy_opt (ELEVENLABS_API_KEY env)
      then
        r <- invoke "Vox"
               (callElevenLabsAPI env (or_else (userResponse context) "")) ;;
        match r with
        | Returns audioUrl =>
            trackUsage env "Vox" (sessionId context) 1
              (length (or_else (userResponse context) "")) ;;;
            ret (ok (SpeechResult audioUrl "Vox"))
        | Throws _ =>
            markModelUnavailable now (codename model) ;;;
            trySpeech env now context rest
        end
      else if (codename model =? "Aether")%string
              && truthy_opt (AZURE_SPEECH_KEY env)
      then
        r <- invoke "Aether"
               (callAzureTTS env (or_else (userResponse context) "")) ;;
        match r with
        | Returns audioUrl =>
            trackUsage env "Aether" (sessionId context) 1
              (length (or_else (userResponse context) "")) ;;;
            ret (ok (SpeechResult audioUrl "Aether"))
        | Throws _ =>
            markModelUnavailable now (codename model) ;;;
            trySpeech env now context rest
        end
      else trySpeech env now context rest
  end.

Definition generateSpeech (env : Env) (now : Z)
    (context : InterviewContext) : M (Response Body) :=
  availableModels <- getAvailableModels ["Vox"; "Aether"] ;;
  if (Z.of_nat (List.length availableModels) =? 0)
  then ret (mkResponse 503
              (Unavailable "No TTS models available" ["Vox"; "Aether"]))
  else trySpeech env now context availableModels.

(** *** evaluate_response *)

Definition evaluateResponse (env : Env) (now : Z)
    (context : InterviewContext) : M (Response Body) :=
  athenaAvailable <- isModelAvailable "Athena" ;;
  if negb athenaAvailable || negb (truthy_opt (ANTHROPIC_API_KEY env))
  then ret (getFallbackEvaluation context)
  else
    r <- invoke "Athena"
           (evaluateWithAthena env
              (or_else (userResponse context) "") context) ;;
    match r with
    | Returns evaluation =>
        trackUsage env "Athena" (sessionId context) 1
          (length (or_else (userResponse context) "")) ;;;
        ret (ok (EvaluationResult evaluation "Athena"))
    | Throws _ =>
        markModelUnavailable now "Athena" ;;;
        ret (getFallbackEvaluation context)
    end.

(** *** The candidate loop, summarised

    Pure readings of what [tryModels] does on a list of rows;
    [tryModels_closed] below relates them to the loop. *)

(** The adapter the loop invokes for a row, with the codename it is invoked
    under; [None] when the row is passed over. *)
Definition adapterFor (env : Env) (context : InterviewContext)
    (model : AiModel) : option (string * outcome string) :=
  if (codename model =? "Orion")%string && truthy_opt (GROQ_API_KEY env)
  then Some ("Orion", callGroqAPI env context)
  else if (codename model =? "Titan")%string
          && truthy_opt (MISTRAL_API_KEY env)
  then Some ("Titan", callMistralAPI env context)
  else if (codename model =? "Nova")%string
  then Some ("Nova", callLocalModel env (NOVA_ENDPOINT env) context)
  else None.

(** The providers the loop invokes, in order. *)
Fixpoint attempts (env : Env) (context : InterviewContext)
    (models : list AiModel) : list string :=
  match models with
  | [] => []
  | model :: rest =>
      match adapterFor env context model with
      | None => attempts env context rest
      | Some (name, Returns _) => [name]
      | Some (name, Throws _) => name :: attempts env context rest
      end
  end.

(** The codenames it passes to [markModelUnavailable], in order. *)
Fixpoint strikes (env : Env) (context : InterviewContext)
    (models : list AiModel) : list string :=
  match models with
  | [] => []
  | model :: rest =>
      match adapterFor env context model with
      | None => strikes env context rest
      | Some (_, Returns _) => []
      | Some (_, Throws _) => codename model :: strikes env context rest
      end
  end.

(** The values of [question] and [usedModel] it ends with. *)
Fixpoint loopResult (env : Env) (context : InterviewContext)
    (models : list AiModel) : string * string :=
  match models with
  | [] => ("", "")
  | model :: rest =>
      match adapterFor env context model with
      | None => loopResult env context rest
      | Some (name, Returns question) => (question, name)
      | Some (_, Throws _) => loopResult env context rest
      end
  end.

(** The store after [markModelUnavailable]. *)
Definition strike (now : Z) (st : Store) (cn : string) : Store :=
  with_models (update_where_codename cn (setUnavailable now)) st.

(** Every row named [cn] is disabled. *)
Definition disabled (cn : string) (st : Store) : Prop :=
  forall r, In r (ai_models st) -> codename r = cn -> credit_status r = false.

(** The rows [generate_question] considers, in the order the store returns
    them. *)
Definition eligible (st : Store) : list AiModel :=
  filter (fun r => existsb (String.eqb (codename r)) ["Orion"; "Titan"; "Nova"]
                   && credit_status r)
         (ai_models st).

End Orchestrator.

(* ================================================================== *)
(** ** Concurrent usage tracking                                       *)
(* ================================================================== *)

(** Requests run in independent execution units that share nothing but the
    store.  A [trackUsage] call is two store round trips, each atomic at the
    store; concurrent calls interleave at that granularity. *)
Module UsageTracker.

Inductive StoreOp : Type :=
| InsertUsage (row : UsageRow)
| UpdateModelUsage (model_name : string) (requests_to_add tokens_to_add : Z).

Definition exec (amounts : UsageAmounts) (st : Store) (op : StoreOp) : Store :=
  match op with
  | InsertUsage row => insert_usage row st
  | UpdateModelUsage model_name requests tokens =>
      update_model_usage amounts model_name requests tokens st
  end.

(** The arguments of one [trackUsage] call. *)
Record Call : Type := mkCall {
  modelCodename : string;
  sessionId : string;
  requests : Z;
  tokens : Z
}.

(** The log entry of a call. *)
Definition usageRow (c : Call) : UsageRow :=
  mkUsageRow (modelCodename c) (sessionId c) (requests c) (tokens c).

(** The store operations of [trackUsage], in program order. *)
Definition program (c : Call) : list StoreOp :=
  [ InsertUsage (usageRow c);
    UpdateModelUsage (modelCodename c) (requests c) (tokens c) ].

(** A pool of callers, each with the operations it still has to issue. *)
Definition Pool : Type := list (list StoreOp).

(** One step: some caller's next operation reaches the store. *)
Inductive step (amounts : UsageAmounts) : Pool * Store -> Pool * Store -> Prop :=
| step_caller : forall before op ops after st,
    step amounts (before ++ (op :: ops) :: after, st)
                 (before ++ ops :: after, exec amounts st op).

Inductive steps (amounts : UsageAmounts) : Pool * Store -> Pool * Store -> Prop :=
| steps_refl : forall c, steps amounts c c
| steps_cons : forall c1 c2 c3,
    step amounts c1 c2 -> steps amounts c2 c3 -> steps amounts c1 c3.

Definition finished (pool : Pool) : Prop := Forall (fun ops => ops = []) pool.

(** [st'] is a store in which [calls], started concurrently on [st], can
    all have completed. *)
Definition completes (amounts : UsageAmounts) (calls : list Call)
    (st st' : Store) : Prop :=
  exists pool', steps amounts (map program calls, st) (pool', st')
                /\ finished pool'.

Definition sumZ (l : list Z) : Z := fold_right Z.add 0 l.

Definition totalDaily (amounts : UsageAmounts) (calls : list Call) : Z :=
  sumZ (map (fun c => daily_amount amounts (requests c) (tokens c)) calls).

Definition totalMonthly (amounts : UsageAmounts) (calls : list Call) : Z :=
  sumZ (map (fun c => monthly_amount amounts (requests c) (tokens c)) calls).

(** A row with its two counters raised by [d] and [m]. *)
Definition raised (d m : Z) (r : AiModel) : AiModel :=
  mkAiModel (codename r) (original_name r) (credit_status r)
    (current_daily_usage r + d) (current_monthly_usage r + m)
    (daily_limit r) (monthly_limit r)
    (last_reset_daily r) (last_reset_monthly r) (last_checked r).

(** What an operation still owes the counters and the log. *)
Definition opDaily (amounts : UsageAmounts) (op : StoreOp) : Z :=
  match op with
  | InsertUsage _ => 0
  | UpdateModelUsage _ r t => daily_amount amounts r t
  end.

Definition opMonthly (amounts : UsageAmounts) (op : StoreOp) : Z :=
  match op with
  | InsertUsage _ => 0
  | UpdateModelUsage _ r t => monthly_amount amounts r t
  end.

Definition opRows (op : StoreOp) : list UsageRow :=
  match op with
  | InsertUsage row => [row]
  | UpdateModelUsage _ _ _ => []
  end.

Definition targets (cn : string) (op : StoreOp) : Prop :=
  match op with
  | InsertUsage _ => True
  | UpdateModelUsage model_name _ _ => model_name = cn
  end.

Definition pendingDaily (amounts : UsageAmounts) (pool : Pool) : Z :=
  sumZ (map (opDaily amounts) (List.concat pool)).

Definition pendingMonthly (amounts : UsageAmounts) (pool : Pool) : Z :=
  sumZ (map (opMonthly amounts) (List.concat pool)).

Definition pendingRows (pool : Pool) : list UsageRow :=
  flat_map opRows (List.concat pool).

(** The counters of provider [cn] raised by [d] and [m]. *)
Definition bump (cn : string) (d m : Z) (rows : list AiModel) : list AiModel :=
  update_where_codename cn (raised d m) rows.

End UsageTracker.


(* ================================================================== *)
(** ** Concrete tables and environments used in the examples           *)
(* ================================================================== *)

Module Fixtures.

(** 2024-03-15T00:00:00Z, and the instants two days and one hour before. *)
Definition mar15 : Z := 1710460800000.
Definition mar13 : Z := mar15 - 2 * Date.msPerDay.
Definition mar14_23h : Z := mar15 - 1000 * 60 * 60.

(** A provider over its daily limit of 100 whose daily window started two
    days ago; it was disabled when it ran out and has no monthly limit. *)
Definition staleDaily : AiModel :=
  mkAiModel "Orion" "LLaMA-3.1 70B" false 150 150 100 0 mar13 mar13 mar13.

(** The same daily figures on an enabled provider that is also over its
    monthly limit, within the current month. *)
Definition staleDailyMonthlySpent : AiModel :=
  mkAiModel "Orion" "LLaMA-3.1 70B" true 150 1200 100 1000 mar13 mar13 mar13.

(** A disabled provider still over its daily limit, checked an hour ago. *)
Definition stillExhausted : AiModel :=
  mkAiModel "Titan" "Mixtral 8x7B" false 150 150 100 0
    mar14_23h mar14_23h mar14_23h.

(** A provider disabled after a failed call, far below both limits. *)
Definition struckOut : AiModel :=
  mkAiModel "Nova" "Gemma 7B" false 3 40 100 1000 mar14_23h mar14_23h mar14_23h.

(** An interview context asking for question number [n]. *)
Definition contextAt (n : Z) : Orchestrator.InterviewContext :=
  Orchestrator.mkContext "session-1" "behavioral" 5 n [] None None.

Definition contextWithAnswer : Orchestrator.InterviewContext :=
  Orchestrator.mkContext "session-1" "behavioral" 5 2
    ["Tell me about yourself."] (Some "I led the migration.") None.

(** The usage procedure counting requests on both counters. *)
Definition countRequests : UsageAmounts :=
  mkUsageAmounts (fun requests _ => requests) (fun requests _ => requests).

(** An environment holding every credential, with the given outcomes of the
    three question adapters and of the evaluator. *)
Definition envWith (orion titan nova athena : JS.outcome string)
    : Orchestrator.Env :=
  Orchestrator.mkEnv (Some "gsk") (Some "msk") (Some "ask") (Some "esk")
    (Some "azk") "http://localhost:8001" "http://localhost:8003"
    (fun _ => orion) (fun _ => titan) (fun _ _ => nova) (fun _ _ => athena)
    (fun _ => JS.Throws "ElevenLabs API error")
    (fun _ => JS.Throws "Azure TTS error")
    (fun _ => JS.Throws "Local STT error")
    countRequests.

Definition envAllFail : Orchestrator.Env :=
  envWith (JS.Throws "Groq API error") (JS.Throws "Mistral API error")
    (JS.Throws "Local model error") (JS.Throws "Anthropic API error").

Definition envAllAnswer : Orchestrator.Env :=
  envWith (JS.Returns "Orion asks?") (JS.Returns "Titan asks?")
    (JS.Returns "Nova asks?") (JS.Returns "Clear and confident.").

Definition envOrionDown : Orchestrator.Env :=
  envWith (JS.Throws "Groq API error") (JS.Returns "Titan asks?")
    (JS.Returns "Nova asks?") (JS.Throws "Anthropic API error").

(** A provider row with fresh windows and no usage. *)
Definition provider (cn : string) (enabled : bool) : AiModel :=
  mkAiModel cn cn enabled 0 0 100 1000 mar15 mar15 mar15.

Definition tablePriority : list AiModel :=
  [provider "Orion" true; provider "Titan" true; provider "Nova" true].

(** The same rows as the store may equally hand them back. *)
Definition tableShuffled : list AiModel :=
  [provider "Nova" true; provider "Orion" true; provider "Titan" true].

Definition tableAllDisabled : list AiModel :=
  [provider "Orion" false; provider "Titan" false; provider "Nova" false;
   provider "Athena" true].

Definition worldOf (rows : list AiModel) : Orchestrator.World :=
  Orchestrator.mkWorld (mkStore rows []) [].

(** Two usage reports for Orion from different sessions. *)
Definition orionCalls : list UsageTracker.Call :=
  [ UsageTracker.mkCall "Orion" "session-1" 1 120;
    UsageTracker.mkCall "Orion" "session-2" 1 80 ].

End Fixtures.

From Stdlib Require Import Sorted.

(* ================================================================== *)
(** ** Readings of the orchestrator used in the further facts          *)
(* ================================================================== *)

Module OrchestratorViews.

Import JS Orchestrator.

(** What no request may do to a row: [r'] has the identity, limits and
    windows of [r], and is enabled only if [r] was. *)
Definition keepsFrame (r r' : AiModel) : Prop :=
  codename r' = codename r /\ original_name r' = original_name r
  /\ daily_limit r' = daily_limit r /\ monthly_limit r' = monthly_limit r
  /\ last_reset_daily r' = last_reset_daily r
  /\ last_reset_monthly r' = last_reset_monthly r
  /\ (credit_status r' = true -> credit_status r = true).

(** Row by row, in table order. *)
Definition neverEnables (st st' : Store) : Prop :=
  Forall2 keepsFrame (ai_models st) (ai_models st').

(** The store after a successful [trackUsage]. *)
Definition tracked (env : Env) (name session : string) (tokens : Z)
    (st : Store) : Store :=
  update_model_usage (usage_amounts env) name 1 tokens
    (insert_usage (mkUsageRow name session 1 tokens) st).

(** *** The text-to-speech loop, summarised *)

(** The rows [generate_speech] considers. *)
Definition eligibleSpeech (st : Store) : list AiModel :=
  filter (fun r => existsb (String.eqb (codename r)) ["Vox"; "Aether"]
                   && credit_status r)
         (ai_models st).

(** The text handed to the adapters, [context.userResponse || '']. *)
Definition speechText (context : InterviewContext) : string :=
  or_else (userResponse context) "".

(** The adapter [trySpeech] invokes for a row, if any. *)
Definition speechAdapterFor (env : Env) (context : InterviewContext)
    (model : AiModel) : option (string * outcome string) :=
  if (codename model =? "Vox")%string && truthy_opt (ELEVENLABS_API_KEY env)
  then Some ("Vox", callElevenLabsAPI env (speechText context))
  else if (codename model =? "Aether")%string
          && truthy_opt (AZURE_SPEECH_KEY env)
  then Some ("Aether", callAzureTTS env (speechText context))
  else None.

Fixpoint speechAttempts (env : Env) (context : InterviewContext)
    (models : list AiModel) : list string :=
  match models with
  | [] => []
  | model :: rest =>
      match speechAdapterFor env context model with
      | None => speechAttempts env context rest
      | Some (name, Returns _) => [name]
      | Some (name, Throws _) => name :: speechAttempts env context rest
      end
  end.

Fixpoint speechStrikes (env : Env) (context : InterviewContext)
    (models : list AiModel) : list string :=
  match models with
  | [] => []
  | model :: rest =>
      match speechAdapterFor env context model with
      | None => speechStrikes env context rest
      | Some (_, Returns _) => []
      | Some (_, Throws _) => codename model :: speechStrikes env context rest
      end
  end.

(** The audio and the provider the loop returns with, if it does. *)
Fixpoint speechFound (env : Env) (context : InterviewContext)
    (models : list AiModel) : option (string * string) :=
  match models with
  | [] => None
  | model :: rest =>
      match speechAdapterFor env context model with
      | None => speechFound env context rest
      | Some (name, Returns audioUrl) => Some (audioUrl, name)
      | Some (_, Throws _) => speechFound env context rest
      end
  end.

(** Whether the best-effort evaluation that follows a generated question
    runs on the store [st]. *)
Definition evaluatorRuns (context : InterviewContext) (st : Store) : bool :=
  fst (isModelAvailable "Athena" (mkWorld st []))
  && truthy_opt (userResponse context).

(** The order [.order('codename')] puts the rows in. *)
Definition byCodename (a b : ModelStatus) : Prop :=
  String.leb (ms_codename a) (ms_codename b) = true.

(** The columns [get_model_status] selects. *)
Definition statusOf (r : AiModel) : ModelStatus :=
  mkModelStatus (codename r) (credit_status r)
    (current_daily_usage r) (current_monthly_usage r)
    (daily_limit r) (monthly_limit r).

End OrchestratorViews.

(* ================================================================== *)
(** ** The two request dispatchers                                     *)
(* ================================================================== *)

(** [Deno.serve] of ai-orchestrator-function.ts.  A request is its method
    and what [const { action, context } = await req.json()] yields.  The
    statement throws when the body is not JSON or is the JSON [null].
    Otherwise [action] is the string the [switch] compares (an action that
    is absent or is no string takes the default case, like any string
    outside the five), and [context] is an object of the interface, or is
    absent ([undefined]) or [null]. *)
Module OrchestratorEndpoint.

Import JS Orchestrator.

Record Request : Type := mkRequest {
  method : string;
  json : outcome (string * optional InterviewContext)
}.

(** What the handler resolves to. *)
Inductive Served : Type :=
| Preflight
    (* new Response('ok') *)
| Answer (response : Response Body)
| Failed (response : Response string)
    (* the catch block: { error: error.message } with status 500 *)
| Rows (models : list ModelStatus)
    (* get_model_status resolves to the array itself, not to a Response *).

Definition failed (message : string) : Served :=
  Failed (mkResponse 500 message).

(** A handler that returns a response or throws into the catch block. *)
Definition settle (r : outcome (Response Body)) : Served :=
  match r with
  | Returns response => Answer response
  | Throws message => failed message
  end.

(** *** The handlers on a nullish context

    The handlers are called with whatever [context] is; on [undefined] or
    [null] the first read of one of its properties throws a [TypeError]. *)

(** The candidate loop of [generateInterviewQuestion].  Each question
    adapter is called and throws while it builds the body of its request,
    before [fetch]: [callGroqAPI] and [callLocalModel] read
    [context.sessionType] first, [callMistralAPI] [context.difficulty].
    The [catch] disables the row and the loop continues; [question] stays
    empty. *)
Fixpoint tryModelsWithout (env : Env) (now : Z) (n : nullish)
    (availableModels : list AiModel) : M unit :=
  match availableModels with
  | [] => ret tt
  | model :: rest =>
      if (codename model =? "Orion")%string && truthy_opt (GROQ_API_KEY env)
      then
        invoke "Orion" (Throws (A := string) (typeError n "sessionType")) ;;;
        markModelUnavailable now (codename model) ;;;
        tryModelsWithout env now n rest
      else if (codename model =? "Titan")%string
              && truthy_opt (MISTRAL_API_KEY env)
      then
        invoke "Titan" (Throws (A := string) (typeError n "difficulty")) ;;;
        markModelUnavailable now (codename model) ;;;
        tryModelsWithout env now n rest
      else if (codename model =? "Nova")%string
      then
        invoke "Nova" (Throws (A := string) (typeError n "sessionType")) ;;;
        markModelUnavailable now (codename model) ;;;
        tryModelsWithout env now n rest
      else tryModelsWithout env now n rest
  end.

(** After the loop [question] is empty, and [getFallbackQuestion(context)]
    reads [context.questionNumber] outside any [try]. *)
Definition generateInterviewQuestionWithout (env : Env) (now : Z)
    (n : nullish) : M (outcome (Response Body)) :=
  availableModels <- getAvailableModels ["Orion"; "Titan"; "Nova"] ;;
  if (Z.of_nat (List.length availableModels) =? 0)
  then ret (Returns (mkResponse 503
              (Unavailable "No AI models available" ["Orion"; "Titan"; "Nova"])))
  else
    tryModelsWithout env now n availableModels ;;;
    ret (Throws (typeError n "questionNumber")).

(** [callLocalSTT(context.audioData)] and [context.userResponse || '']
    throw inside the [try], before any adapter is called. *)
Definition processAudioInputWithout (env : Env) (now : Z) (n : nullish)
    : M (outcome (Response Body)) :=
  echoAvailable <- isModelAvailable "Echo" ;;
  if negb echoAvailable
  then ret (Returns (mkResponse 503
              (Unavailable "Speech recognition unavailable" ["Echo"])))
  else
    markModelUnavailable now "Echo" ;;;
    ret (Throws (typeError n (if truthy (ECHO_ENDPOINT env)
                              then "audioData" else "userResponse"))).

(** [context.userResponse || ''] throws as the argument of the adapter is
    evaluated; the [catch] disables the row and the loop continues. *)
Fixpoint trySpeechWithout (env : Env) (now : Z)
    (availableModels : list AiModel) : M (Response Body) :=
  match availableModels with
  | [] => ret (ok (SpeechFailed "All TTS models failed" true))
  | model :: rest =>
      if (codename model =? "Vox")%string
         && truthy_opt (ELEVENLABS_API_KEY env)
      then
        markModelUnavailable now (codename model) ;;;
        trySpeechWithout env now rest
      else if (codename model =? "Aether")%string
              && truthy_opt (AZURE_SPEECH_KEY env)
      then
        markModelUnavailable now (codename model) ;;;
        trySpeechWithout env now rest
      else trySpeechWithout env now rest
  end.

Definition generateSpeechWithout (env : Env) (now : Z) : M (Response Body) :=
  availableModels <- getAvailableModels ["Vox"; "Aether"] ;;
  if (Z.of_nat (List.length availableModels) =? 0)
  then ret (mkResponse 503
              (Unavailable "No TTS models available" ["Vox"; "Aether"]))
  else trySpeechWithout env now availableModels.

(** [getFallbackEvaluation] does not read its argument. *)
Definition fallbackEvaluation : Response Body :=
  ok (FallbackEvaluation
        "Response received and noted. Continue with the interview."
        "Fallback" (mkScores 7 7 7 7)).

Definition evaluateResponseWithout (env : Env) (now : Z) : M (Response Body) :=
  athenaAvailable <- isModelAvailable "Athena" ;;
  if negb athenaAvailable || negb (truthy_opt (ANTHROPIC_API_KEY env))
  then ret fallbackEvaluation
  else
    markModelUnavailable now "Athena" ;;;
    ret fallbackEvaluation.

(** *** The dispatcher *)

Definition serve (env : Env) (now : Z) (req : Request) : M Served :=
  if (method req =? "OPTIONS")%string then ret Preflight
  else
    match json req with
    | Throws message => ret (failed message)
    | Returns (action, Given context) =>
        if (action =? "generate_question")%string then
          r <- generateInterviewQuestion env now context ;; ret (Answer r)
        else if (action =? "process_audio")%string then
          r <- processAudioInput env now context ;; ret (settle r)
        else if (action =? "generate_speech")%string then
          r <- generateSpeech env now context ;; ret (Answer r)
        else if (action =? "evaluate_response")%string then
          r <- evaluateResponse env now context ;; ret (Answer r)
        else if (action =? "get_model_status")%string then
          rows <- getModelStatus ;; ret (Rows rows)
        else ret (failed "Unknown action")
    | Returns (action, Missing n) =>
        if (action =? "generate_question")%string then
          r <- generateInterviewQuestionWithout env now n ;; ret (settle r)
        else if (action =? "process_audio")%string then
          r <- processAudioInputWithout env now n ;; ret (settle r)
        else if (action =? "generate_speech")%string then
          r <- generateSpeechWithout env now ;; ret (Answer r)
        else if (action =? "evaluate_response")%string then
          r <- evaluateResponseWithout env now ;; ret (Answer r)
        else if (action =? "get_model_status")%string then
          rows <- getModelStatus ;; ret (Rows rows)
        else ret (failed "Unknown action")
    end.

(** The rows whose adapter the question loop calls, and the rows the
    speech loop gets to, on a nullish context. *)
Definition questionCandidate (env : Env) (model : AiModel) : bool :=
  (codename model =? "Orion")%string && truthy_opt (GROQ_API_KEY env)
  || (codename model =? "Titan")%string && truthy_opt (MISTRAL_API_KEY env)
  || (codename model =? "Nova")%string.

Definition speechCandidate (env : Env) (model : AiModel) : bool :=
  (codename model =? "Vox")%string && truthy_opt (ELEVENLABS_API_KEY env)
  || (codename model =? "Aether")%string && truthy_opt (AZURE_SPEECH_KEY env).

End OrchestratorEndpoint.

(** [Deno.serve] of credit-monitor-function.ts; only [action] is read from
    the body.  supabase-js does not throw when a store call fails: the
    call resolves to [{ data: null, error }] and the table is as it was.
    A request finds the database answering, or failing each of its calls
    with one error.  (A single [update] of [check_credits] failing on a
    database that answered the [select] goes unnoticed by the code, and
    has no counterpart here.) *)
Module MonitorEndpoint.

Import JS CreditMonitor.

Record Request : Type := mkRequest {
  method : string;
  json : outcome string
}.

Inductive Database : Type :=
| Up
| Down (error : string).

Inductive Served : Type :=
| Preflight
| Checked (response : Response CheckBody)
| ResetDone (response : Response (bool * string))
| Listed (response : Response (list ExhaustedInfo))
| Failed (response : Response string).

Definition failed (message : string) : Served :=
  Failed (mkResponse 500 message).

Definition serve (now : Z) (req : Request) (db : Database) (st : Store)
    : Served * Store :=
  if (method req =? "OPTIONS")%string then (Preflight, st)
  else
    match json req with
    | Throws message => (failed message, st)
    | Returns action =>
        if (action =? "check_credits")%string then
          match db with
          | Up => let '(r, st') := checkAndUpdateCredits now st in
                  (Checked r, st')
          | Down _ =>
              (* if (!models) throw new Error('Failed to fetch models') *)
              (failed "Failed to fetch models", st)
          end
        else if (action =? "reset_credits")%string then
          match db with
          | Up => let '(r, st') := resetCredits now st in (ResetDone r, st')
          | Down error =>
              (* if (error) throw error *)
              (failed error, st)
          end
        else if (action =? "get_exhausted_models")%string then
          match db with
          | Up => (Listed (getExhaustedModels st), st)
          | Down _ =>
              (* (models || []) *)
              (Listed (mkResponse 200 []), st)
          end
        else (failed "Unknown action", st)
    end.

End MonitorEndpoint.

(* ================================================================== *)
(** ** Usage tracking for several providers at once                    *)
(* ================================================================== *)

Module UsageTrackerViews.

Import UsageTracker.

(** What an operation still owes the daily counter of provider [cn]. *)
Definition dueDaily (amounts : UsageAmounts) (cn : string) (op : StoreOp) : Z :=
  match op with
  | InsertUsage _ => 0
  | UpdateModelUsage model_name r t =>
      if (cn =? model_name)%string then daily_amount amounts r t else 0
  end.

Definition dueMonthly (amounts : UsageAmounts) (cn : string) (op : StoreOp) : Z :=
  match op with
  | InsertUsage _ => 0
  | UpdateModelUsage model_name r t =>
      if (cn =? model_name)%string then monthly_amount amounts r t else 0
  end.

Definition owedDaily (amounts : UsageAmounts) (cn : string)
    (ops : list StoreOp) : Z :=
  sumZ (map (dueDaily amounts cn) ops).

Definition owedMonthly (amounts : UsageAmounts) (cn : string)
    (ops : list StoreOp) : Z :=
  sumZ (map (dueMonthly amounts cn) ops).

(** The table once the operations [ops] have all reached it. *)
Definition settled (amounts : UsageAmounts) (ops : list StoreOp)
    (rows : list AiModel) : list AiModel :=
  map (fun r => raised (owedDaily amounts (codename r) ops)
                       (owedMonthly amounts (codename r) ops) r) rows.

(** The amounts the calls made for provider [cn] add up to. *)
Definition callsDaily (amounts : UsageAmounts) (cn : string)
    (calls : list Call) : Z :=
  sumZ (map (fun c => if (cn =? modelCodename c)%string
                      then daily_amount amounts (requests c) (tokens c)
                      else 0) calls).

Definition callsMonthly (amounts : UsageAmounts) (cn : string)
    (calls : list Call) : Z :=
  sumZ (map (fun c => if (cn =? modelCodename c)%string
                      then monthly_amount amounts (requests c) (tokens c)
                      else 0) calls).

(** The calls made one after the other, each through the orchestrator's
    [trackUsage]. *)
Fixpoint trackAll (env : Orchestrator.Env) (calls : list Call)
    : Orchestrator.M unit :=
  match calls with
  | [] => Orchestrator.ret tt
  | c :: rest =>
      Orchestrator.bind
        (Orchestrator.trackUsage env (modelCodename c) (sessionId c)
           (requests c) (tokens c))
        (fun _ => trackAll env rest)
  end.

End UsageTrackerViews.

(* ================================================================== *)
(** ** Further tables used in the examples                             *)
(* ================================================================== *)

Module Scenarios.

(** An enabled provider that has reached its daily limit within the
    current daily window; its monthly usage has passed the monthly limit
    too. *)
Definition overBoth : AiModel :=
  mkAiModel "Titan" "Mixtral 8x7B" true 100 1000 100 1000
    Fixtures.mar14_23h Fixtures.mar14_23h Fixtures.mar14_23h.

(** Usage reports for two providers, from three sessions. *)
Definition mixedCalls : list UsageTracker.Call :=
  [ UsageTracker.mkCall "Orion" "session-1" 1 120;
    UsageTracker.mkCall "Nova" "session-2" 1 64;
    UsageTracker.mkCall "Orion" "session-3" 1 80 ].

(** A table mixing a stale window, a spent provider and a struck one. *)
Definition mixedTable : list AiModel :=
  [Fixtures.staleDaily; overBoth; Fixtures.struckOut].

End Scenarios.
(* ================================================================== *)
(** ** Facts about dates                                               *)
(* ================================================================== *)

Module DateFacts.

Example epoch_is_january_1970 :
  Date.getFullYear 0 = 1970 /\ Date.getMonth 0 = 0.
Proof. split; reflexivity. Qed.

Example before_epoch_is_december_1969 :
  Date.getFullYear (-1) = 1969 /\ Date.getMonth (-1) = 11.
Proof. split; reflexivity. Qed.

(** 2024-02-29T23:59:59.999Z and the millisecond after it. *)
Example leap_day_2024 :
  Date.getMonth 1709251199999 = 1 /\ Date.getMonth 1709251200000 = 2.
Proof. split; reflexivity. Qed.

Example mar15_is_march_2024 :
  Date.getFullYear Fixtures.mar15 = 2024 /\ Date.getMonth Fixtures.mar15 = 2.
Proof. split; reflexivity. Qed.

(** Month arithmetic ignores the day of the month: a window opened on the
    last millisecond of February is one month old on the first of March. *)
Example month_boundary :
  CreditMonitor.monthsSinceReset 1709251200000
    (mkAiModel "Orion" "LLaMA-3.1 70B" true 0 0 0 0
       1709251199999 1709251199999 1709251199999) = 1.
Proof. reflexivity. Qed.

End DateFacts.

(* ================================================================== *)
(** ** Facts about the credit monitor                                  *)
(* ================================================================== *)

Module CreditMonitorFacts.

Import CreditMonitor.

(** One iteration, in closed form. *)
Lemma evaluateModel_closed (now : Z) (model : AiModel) :
  evaluateModel now model =
  (if newlyExhausted now model then [exhaustedOf now model] else [],
   if needsUpdate now model then [updateOf now model] else []).
Proof.
  unfold evaluateModel, newlyExhausted, exhaustedOf, needsUpdate, updateOf,
    newStatus, limitExceeded, resetDue, dailyExceeded, monthlyExceeded,
    newDailyUsage, newMonthlyUsage, newDailyReset, newMonthlyReset,
    dailyResetDue, monthlyResetDue.
  destruct (1 <=? daysSinceReset now model);
    destruct (1 <=? monthsSinceReset now model);
    destruct (0 <? daily_limit model);
    destruct (0 <? monthly_limit model);
    cbn [andb orb negb];
    repeat match goal with
           | |- context [?a <=? ?b] => destruct (a <=? b); cbn [andb orb negb]
           end;
    destruct (credit_status model); reflexivity.
Qed.

Lemma scanModels_closed (now : Z) (models : list AiModel) :
  forall exhausted updates,
    scanModels now models exhausted updates =
    (exhausted ++ map (exhaustedOf now) (filter (newlyExhausted now) models),
     updates ++ map (updateOf now) (filter (needsUpdate now) models)).
Proof.
  induction models as [|model rest IH]; intros exhausted updates; cbn [scanModels].
  - cbn. now rewrite !app_nil_r.
  - rewrite evaluateModel_closed, IH. cbn [filter].
    destruct (newlyExhausted now model), (needsUpdate now model);
      cbn [map]; now rewrite <- ?app_assoc, ?app_nil_r.
Qed.

Lemma applyUpdates_models (updates : list Update) :
  forall st,
    ai_models (fold_left applyUpdate updates st) =
    map (fun r => fold_left writeRow updates r) (ai_models st).
Proof.
  induction updates as [|u us IH]; intros st; cbn [fold_left].
  - now rewrite map_id.
  - rewrite IH. unfold applyUpdate, with_models, update_where_codename.
    cbn [ai_models]. rewrite map_map. apply map_ext. intros r.
    reflexivity.
Qed.

Lemma applyUpdates_usage (updates : list Update) :
  forall st,
    ai_usage_tracking (fold_left applyUpdate updates st) = ai_usage_tracking st.
Proof.
  induction updates as [|u us IH]; intros st; cbn [fold_left]; [reflexivity|].
  now rewrite IH.
Qed.

Lemma writeUpdate_codename (u : Update) (r : AiModel) :
  codename (writeUpdate u r) = codename r.
Proof. reflexivity. Qed.

(** Updates computed from rows with other codenames leave a row alone. *)
Lemma foreign_updates_skip (now : Z) (models : list AiModel) :
  forall r,
    ~ In (codename r) (map codename models) ->
    fold_left writeRow (map (updateOf now) (filter (needsUpdate now) models)) r = r.
Proof.
  induction models as [|m ms IH]; intros r Hnot; [reflexivity|].
  cbn [map In] in Hnot. cbn [filter].
  assert (Hne : (codename r =? codename m)%string = false).
  { apply String.eqb_neq. intros E. apply Hnot. left. now symmetry. }
  destruct (needsUpdate now m); cbn [map fold_left].
  - unfold writeRow at 2. cbn [updateOf up_codename]. rewrite Hne.
    apply IH. tauto.
  - apply IH. tauto.
Qed.

(** With unique codenames every row ends as [checkedRow] says. *)
Lemma own_update_applies (now : Z) (models : list AiModel) :
  NoDup (map codename models) ->
  forall r, In r models ->
    fold_left writeRow (map (updateOf now) (filter (needsUpdate now) models)) r
    = checkedRow now r.
Proof.
  induction models as [|m ms IH]; intros Hnd r Hin; [contradiction|].
  cbn [map] in Hnd. inversion Hnd as [|? ? Hfresh Hnd']; subst.
  cbn [filter]. destruct Hin as [->|Hin].
  - unfold checkedRow. destruct (needsUpdate now r) eqn:Hn; cbn [map fold_left].
    + unfold writeRow at 2. cbn [updateOf up_codename].
      rewrite String.eqb_refl. fold (updateOf now r).
      apply foreign_updates_skip. now rewrite writeUpdate_codename.
    + now apply foreign_updates_skip.
  - assert (Hne : (codename r =? codename m)%string = false).
    { apply String.eqb_neq. intros E. apply Hfresh. rewrite <- E.
      now apply in_map. }
    destruct (needsUpdate now m); cbn [map fold_left].
    + unfold writeRow at 2. cbn [updateOf up_codename]. rewrite Hne.
      now apply IH.
    + now apply IH.
Qed.

(** [check_credits] as a whole, for a table with unique codenames. *)
Lemma checkAndUpdateCredits_closed (now : Z) (st : Store) :
  NoDup (map codename (ai_models st)) ->
  checkAndUpdateCredits now st =
  (ok (mkCheckBody true
         (map (exhaustedOf now) (filter (newlyExhausted now) (ai_models st)))
         (Z.of_nat (List.length (filter (needsUpdate now) (ai_models st))))
         now),
   mkStore (map (checkedRow now) (ai_models st)) (ai_usage_tracking st)).
Proof.
  intros Hnd. unfold checkAndUpdateCredits.
  rewrite scanModels_closed. cbn [app]. rewrite length_map. f_equal.
  set (us := map (updateOf now) (filter (needsUpdate now) (ai_models st))).
  pose proof (applyUpdates_models us st) as Hm.
  pose proof (applyUpdates_usage us st) as Hu.
  destruct (fold_left applyUpdate us st) as [ms' log'].
  cbn [ai_models ai_usage_tracking] in Hm, Hu. subst. f_equal.
  apply map_ext_in. intros r Hin. now apply own_update_applies.
Qed.

Lemma unique_codename (models : list AiModel) :
  NoDup (map codename models) ->
  forall a b, In a models -> In b models -> codename a = codename b -> a = b.
Proof.
  induction models as [|m ms IH]; intros Hnd a b Ha Hb E; [contradiction|].
  cbn [map] in Hnd. inversion Hnd as [|? ? Hfresh Hnd']; subst.
  destruct Ha as [->|Ha], Hb as [->|Hb]; auto.
  - exfalso. apply Hfresh. rewrite E. now apply in_map.
  - exfalso. apply Hfresh. rewrite <- E. now apply in_map.
Qed.

Lemma checkedRow_codename (now : Z) (model : AiModel) :
  codename (checkedRow now model) = codename model.
Proof. unfold checkedRow. now destruct (needsUpdate now model). Qed.

(** After a daily reset the daily dimension cannot be exceeded. *)
Lemma daily_reset_clears_daily (now : Z) (model : AiModel) :
  1 <= daysSinceReset now model ->
  dailyResetDue now model = true /\ newDailyUsage now model = 0
  /\ dailyExceeded now model = false.
Proof.
  intros Hd. unfold dailyExceeded, newDailyUsage, dailyResetDue.
  assert (E : (1 <=? daysSinceReset now model) = true) by now apply Z.leb_le.
  rewrite E. repeat split.
  destruct (0 <? daily_limit model) eqn:Hl; cbn [andb]; [|reflexivity].
  apply Z.ltb_lt in Hl. apply Z.leb_gt. lia.
Qed.

(** The monthly dimension, read off the row. *)
Lemma monthlyExceeded_false_iff (now : Z) (model : AiModel) :
  monthlyExceeded now model = false <->
  (monthly_limit model <= 0 \/ 1 <= monthsSinceReset now model
   \/ current_monthly_usage model < monthly_limit model).
Proof.
  unfold monthlyExceeded, newMonthlyUsage, monthlyResetDue.
  destruct (0 <? monthly_limit model) eqn:Hl; cbn [andb].
  - apply Z.ltb_lt in Hl.
    destruct (1 <=? monthsSinceReset now model) eqn:Hm.
    + apply Z.leb_le in Hm. rewrite Z.leb_gt. split; [auto|lia].
    + apply Z.leb_gt in Hm. rewrite Z.leb_gt. split; [auto|lia].
  - apply Z.ltb_ge in Hl. split; auto.
Qed.

(** C3 (as amended).  For every row whose [lastResetDaily] is at least one
    day before [now], [check_credits] zeroes [dailyUsage] and restarts the
    daily window before it evaluates exhaustion, so the row cannot be
    reported for its daily limit.  If moreover the monthly limit is not
    exceeded after the monthly reset step (it is unlimited, a monthly reset
    is due, or the monthly usage is below it), the row ends with
    [creditStatus = true] and is absent from the exhausted list.  Codenames
    are unique in the table. *)
Theorem check_credits_resets_before_limit_check :
  forall now st model resp st',
    NoDup (map codename (ai_models st)) ->
    In model (ai_models st) ->
    1 <= daysSinceReset now model ->
    checkAndUpdateCredits now st = (resp, st') ->
    (exists model', In model' (ai_models st')
                    /\ codename model' = codename model)
    /\ (forall model',
          In model' (ai_models st') -> codename model' = codename model ->
          current_daily_usage model' = 0 /\ last_reset_daily model' = now)
    /\ (forall e,
          In e (exhaustedModels (body resp)) ->
          ex_codename e = codename model ->
          ex_reason e = "Monthly limit exceeded")
    /\ ((monthly_limit model <= 0 \/ 1 <= monthsSinceReset now model
         \/ current_monthly_usage model < monthly_limit model) ->
        (forall model',
           In model' (ai_models st') -> codename model' = codename model ->
           credit_status model' = true)
        /\ (forall e,
              In e (exhaustedModels (body resp)) ->
              ex_codename e <> codename model)).
Proof.
  intros now st model resp st' Hnd Hin Hdays Hrun.
  rewrite (checkAndUpdateCredits_closed now st Hnd) in Hrun.
  injection Hrun as <- <-. cbn [ai_models body ok exhaustedModels].
  destruct (daily_reset_clears_daily now model Hdays) as (Hdue & Husage & Hdaily).
  assert (Hneeds : needsUpdate now model = true).
  { unfold needsUpdate, resetDue. now rewrite Hdue. }
  assert (Hrow : forall model',
             In model' (map (checkedRow now) (ai_models st)) ->
             codename model' = codename model ->
             model' = checkedRow now model).
  { intros model' Hin' E. apply in_map_iff in Hin' as (m & <- & Hm).
    rewrite checkedRow_codename in E.
    now rewrite (unique_codename _ Hnd m model Hm Hin E). }
  assert (Hentry : forall e,
             In e (map (exhaustedOf now)
                     (filter (newlyExhausted now) (ai_models st))) ->
             ex_codename e = codename model ->
             e = exhaustedOf now model /\ newlyExhausted now model = true).
  { intros e He E. apply in_map_iff in He as (m & <- & Hm).
    apply filter_In in Hm as (Hm & Hnew). cbn [exhaustedOf ex_codename] in E.
    now rewrite <- (unique_codename _ Hnd m model Hm Hin E). }
  split; [|split; [|split]].
  - exists (checkedRow now model). split.
    + now apply in_map.
    + apply checkedRow_codename.
  - intros model' Hin' E. rewrite (Hrow model' Hin' E).
    unfold checkedRow. rewrite Hneeds.
    cbn [writeUpdate updateOf current_daily_usage last_reset_daily
         up_current_daily_usage up_last_reset_daily].
    unfold newDailyReset. now rewrite Husage, Hdue.
  - intros e He E. destruct (Hentry e He E) as (-> & _).
    cbn [exhaustedOf ex_reason]. now rewrite Hdaily.
  - intros Hmonthly. apply monthlyExceeded_false_iff in Hmonthly.
    assert (Hlimit : limitExceeded now model = false).
    { unfold limitExceeded. now rewrite Hdaily, Hmonthly. }
    split.
    + intros model' Hin' E. rewrite (Hrow model' Hin' E).
      unfold checkedRow. rewrite Hneeds.
      cbn [writeUpdate updateOf credit_status up_credit_status].
      unfold newStatus, resetDue. rewrite Hlimit, Hdue.
      now destruct (credit_status model).
    + intros e He E. destruct (Hentry e He E) as (_ & Hnew).
      unfold newlyExhausted in Hnew. rewrite Hlimit in Hnew. discriminate.
Qed.

(** The scenario of C3: limit 100, usage 150, window started two days ago,
    previously disabled. *)
Lemma check_credits_resets_before_limit_check_witness :
  let st := mkStore [Fixtures.staleDaily] [] in
  let run := checkAndUpdateCredits Fixtures.mar15 st in
  (forall model',
     In model' (ai_models (snd run)) -> codename model' = "Orion" ->
     current_daily_usage model' = 0 /\ credit_status model' = true)
  /\ (forall e, In e (exhaustedModels (body (fst run))) ->
                ex_codename e <> "Orion").
Proof.
  intros st run.
  assert (Hnd : NoDup (map codename (ai_models st))).
  { cbn. constructor; [intros []|constructor]. }
  assert (Hin : In Fixtures.staleDaily (ai_models st)) by (now left).
  assert (Hdays : 1 <= daysSinceReset Fixtures.mar15 Fixtures.staleDaily).
  { vm_compute. discriminate. }
  destruct (check_credits_resets_before_limit_check
              Fixtures.mar15 st Fixtures.staleDaily (fst run) (snd run)
              Hnd Hin Hdays (surjective_pairing run))
    as (_ & Hzero & _ & Hmonth).
  destruct Hmonth as (Htrue & Habsent).
  { left. cbn. lia. }
  split.
  - intros model' Hin' E. split.
    + exact (proj1 (Hzero model' Hin' E)).
    + exact (Htrue model' Hin' E).
  - exact Habsent.
Defined.

(** C3 as stated fails: the same daily figures on a provider that is over
    its monthly limit leave it disabled and reported as exhausted. *)
Lemma check_credits_daily_reset_monthly_spent :
  let model := Fixtures.staleDailyMonthlySpent in
  let run := checkAndUpdateCredits Fixtures.mar15 (mkStore [model] []) in
  daily_limit model = 100 /\ current_daily_usage model = 150
  /\ daysSinceReset Fixtures.mar15 model = 2
  /\ map current_daily_usage (ai_models (snd run)) = [0]
  /\ map credit_status (ai_models (snd run)) = [false]
  /\ exhaustedModels (body (fst run))
     = [mkExhausted "Orion" "Monthly limit exceeded" 1200 1000].
Proof. vm_compute. repeat split; reflexivity. Qed.

(** A reset always moves its timestamp. *)
Lemma daily_reset_moves (now : Z) (model : AiModel) :
  dailyResetDue now model = true -> now <> last_reset_daily model.
Proof.
  unfold dailyResetDue, daysSinceReset. intros H E. apply Z.leb_le in H.
  rewrite E, Z.sub_diag in H. now vm_compute in H.
Qed.

Lemma monthly_reset_moves (now : Z) (model : AiModel) :
  monthlyResetDue now model = true -> now <> last_reset_monthly model.
Proof.
  unfold monthlyResetDue, monthsSinceReset. intros H E. apply Z.leb_le in H.
  rewrite E in H. lia.
Qed.

(** Which rows the gate changes, apart from [last_checked]. *)
Lemma changed_iff (now : Z) (model : AiModel) :
  changed now model = true <->
  (resetDue now model = true
   \/ (limitExceeded now model = true /\ credit_status model = true)).
Proof.
  unfold changed, newStatus, resetDue, newDailyUsage, newMonthlyUsage,
    newDailyReset, newMonthlyReset.
  destruct (dailyResetDue now model) eqn:Hd.
  - pose proof (daily_reset_moves now model Hd) as Hne.
    apply Z.eqb_neq in Hne. rewrite Hne. rewrite !andb_false_r.
    cbn. tauto.
  - destruct (monthlyResetDue now model) eqn:Hm.
    + pose proof (monthly_reset_moves now model Hm) as Hne.
      apply Z.eqb_neq in Hne. rewrite Hne. rewrite !andb_false_r.
      cbn. tauto.
    + rewrite !Z.eqb_refl. cbn [orb andb]. rewrite !andb_true_r.
      destruct (limitExceeded now model), (credit_status model); cbn;
        intuition discriminate.
Qed.

(** C5 (as amended).  [check_credits] writes back exactly the rows for which
    a reset is due or a limit is exceeded after the resets, stamping
    [lastChecked], and [updatedModels] is their number.  Every row the gate
    changed (status, a counter or a reset timestamp) is among them, and a
    row with no reset due and no limit exceeded is neither written nor
    counted.  A written row comes out with all of these equal to their
    prior values exactly when it was already disabled, no reset is due and a
    limit is still exceeded.  Codenames are unique in the table. *)
Theorem check_credits_persists_flagged_rows :
  forall now st resp st',
    NoDup (map codename (ai_models st)) ->
    checkAndUpdateCredits now st = (resp, st') ->
    updatedModels (body resp)
    = Z.of_nat (List.length (filter (needsUpdate now) (ai_models st)))
    /\ ai_models st' = map (checkedRow now) (ai_models st)
    /\ ai_usage_tracking st' = ai_usage_tracking st
    /\ (forall model,
          needsUpdate now model = false ->
          checkedRow now model = model /\ changed now model = false)
    /\ (forall model,
          needsUpdate now model = true ->
          checkedRow now model = writeUpdate (updateOf now model) model
          /\ last_checked (checkedRow now model) = now)
    /\ (forall model,
          changed now model = true -> needsUpdate now model = true)
    /\ (forall model,
          needsUpdate now model = true ->
          (changed now model = false <->
           credit_status model = false /\ resetDue now model = false
           /\ limitExceeded now model = true)).
Proof.
  intros now st resp st' Hnd Hrun.
  rewrite (checkAndUpdateCredits_closed now st Hnd) in Hrun.
  injection Hrun as <- <-. cbn [ai_models ai_usage_tracking body ok updatedModels].
  split; [reflexivity|]. split; [reflexivity|]. split; [reflexivity|].
  split; [|split; [|split]].
  - intros model H. split.
    + unfold checkedRow. now rewrite H.
    + apply not_true_is_false. intros Hc. apply changed_iff in Hc.
      unfold needsUpdate in H. apply orb_false_elim in H as (Hr & Hl).
      destruct Hc as [Hc|(Hc & _)]; congruence.
  - intros model H. unfold checkedRow. now rewrite H.
  - intros model H. apply changed_iff in H. unfold needsUpdate.
    destruct H as [->|(-> & _)]; [reflexivity|apply orb_true_r].
  - intros model H. unfold needsUpdate in H. split.
    + intros Hunchanged.
      destruct (resetDue now model) eqn:Hr.
      * assert (Hc : changed now model = true); [|congruence].
        apply changed_iff. now left.
      * cbn [orb] in H.
        destruct (credit_status model) eqn:Hs; [|now repeat split].
        assert (Hc : changed now model = true); [|congruence].
        apply changed_iff. right. now split.
    + intros (Hs & Hr & Hl). apply not_true_is_false. intros Hc.
      apply changed_iff in Hc. destruct Hc as [Hc|(_ & Hc)]; congruence.
Qed.

Lemma check_credits_persists_flagged_rows_witness :
  let st := mkStore [Fixtures.staleDaily; Fixtures.struckOut] [] in
  let run := checkAndUpdateCredits Fixtures.mar15 st in
  updatedModels (body (fst run)) = 1
  /\ ai_models (snd run)
     = map (checkedRow Fixtures.mar15) [Fixtures.staleDaily; Fixtures.struckOut]
  /\ checkedRow Fixtures.mar15 Fixtures.struckOut = Fixtures.struckOut.
Proof.
  intros st run.
  assert (Hnd : NoDup (map codename (ai_models st))).
  { cbn. constructor.
    - intros [H|[]]. discriminate H.
    - constructor; [intros []|constructor]. }
  destruct (check_credits_persists_flagged_rows
              Fixtures.mar15 st (fst run) (snd run) Hnd
              (surjective_pairing run))
    as (Hcount & Hrows & _ & Hframe & _).
  split; [exact Hcount|]. split; [exact Hrows|].
  apply Hframe. reflexivity.
Defined.

(** C5 as stated fails: a disabled row that still exceeds its daily limit,
    with no reset due, comes out with the same status, counters and reset
    timestamps, and is nevertheless written back and counted. *)
Lemma check_credits_rewrites_unchanged_row :
  let model := Fixtures.stillExhausted in
  let run := checkAndUpdateCredits Fixtures.mar15 (mkStore [model] []) in
  exists update model',
    snd (evaluateModel Fixtures.mar15 model) = [update]
    /\ up_credit_status update = credit_status model
    /\ up_current_daily_usage update = current_daily_usage model
    /\ up_current_monthly_usage update = current_monthly_usage model
    /\ up_last_reset_daily update = last_reset_daily model
    /\ up_last_reset_monthly update = last_reset_monthly model
    /\ updatedModels (body (fst run)) = 1
    /\ ai_models (snd run) = [model']
    /\ last_checked model' = Fixtures.mar15
    /\ last_checked model <> Fixtures.mar15.
Proof.
  eexists. eexists. vm_compute. repeat split; try reflexivity.
  discriminate.
Qed.

(** C8.  A row with [creditStatus = false] whose daily limit is not
    exceeded (in particular one for which neither limit is exceeded, such
    as a provider disabled by the breaker) is listed by
    [get_exhausted_models] with the reason "Monthly limit exceeded": the
    reason is a two-way choice on the daily figures alone. *)
Theorem exhausted_query_reason_defaults_to_monthly :
  forall st model,
    In model (ai_models st) ->
    credit_status model = false ->
    ~ (0 < daily_limit model
       /\ daily_limit model <= current_daily_usage model) ->
    status (getExhaustedModels st) = 200
    /\ In (mkExhaustedInfo (codename model) (original_name model)
             (current_daily_usage model) (current_monthly_usage model)
             (daily_limit model) (monthly_limit model)
             "Monthly limit exceeded")
          (body (getExhaustedModels st)).
Proof.
  intros st model Hin Hs Hdaily. split; [reflexivity|].
  unfold getExhaustedModels. cbn [body ok]. apply in_map_iff.
  exists model. split.
  - unfold exhaustedInfo.
    destruct (0 <? daily_limit model) eqn:Hl; cbn [andb]; [|reflexivity].
    destruct (daily_limit model <=? current_daily_usage model) eqn:Hu;
      [|reflexivity].
    exfalso. apply Hdaily. split; [now apply Z.ltb_lt|now apply Z.leb_le].
  - apply filter_In. split; [exact Hin|]. now rewrite Hs.
Qed.

Lemma exhausted_query_reason_defaults_to_monthly_witness :
  In (mkExhaustedInfo "Nova" "Gemma 7B" 3 40 100 1000 "Monthly limit exceeded")
     (body (getExhaustedModels
              (mkStore [Fixtures.staleDaily; Fixtures.struckOut] []))).
Proof.
  refine (proj2 (exhausted_query_reason_defaults_to_monthly
                   (mkStore [Fixtures.staleDaily; Fixtures.struckOut] [])
                   Fixtures.struckOut _ _ _)).
  - right. left. reflexivity.
  - reflexivity.
  - intros (_ & H). vm_compute in H. apply H. reflexivity.
Defined.

End CreditMonitorFacts.

(* ================================================================== *)
(** ** Facts about the orchestrator                                    *)
(* ================================================================== *)

Module OrchestratorFacts.

Import JS Orchestrator.

Ltac run_M :=
  cbv beta iota zeta
    delta [bind ret invoke query command markModelUnavailable trackUsage];
  cbn [fst snd store adapterCalls].

(** The candidate loop in closed form. *)
Lemma tryModels_closed (env : Env) (now : Z) (context : InterviewContext)
    (models : list AiModel) :
  forall w,
    tryModels env now context models w =
    (loopResult env context models,
     mkWorld (fold_left (strike now) (strikes env context models) (store w))
             (adapterCalls w ++ attempts env context models)).
Proof.
  induction models as [|model rest IH]; intros w.
  - cbn. rewrite app_nil_r. now destruct w.
  - cbn [tryModels attempts strikes loopResult]. unfold adapterFor.
    destruct ((codename model =? "Orion")%string
              && truthy_opt (GROQ_API_KEY env)).
    { run_M. destruct (callGroqAPI env context); [reflexivity|].
      rewrite IH. cbn [store adapterCalls fold_left].
      now rewrite <- app_assoc. }
    destruct ((codename model =? "Titan")%string
              && truthy_opt (MISTRAL_API_KEY env)).
    { run_M. destruct (callMistralAPI env context); [reflexivity|].
      rewrite IH. cbn [store adapterCalls fold_left].
      now rewrite <- app_assoc. }
    destruct (codename model =? "Nova")%string.
    { run_M.
      destruct (callLocalModel env (NOVA_ENDPOINT env) context); [reflexivity|].
      rewrite IH. cbn [store adapterCalls fold_left].
      now rewrite <- app_assoc. }
    apply IH.
Qed.

(** An adapter is invoked under the codename of its row. *)
Lemma adapterFor_name (env : Env) (context : InterviewContext)
    (model : AiModel) (name : string) (o : outcome string) :
  adapterFor env context model = Some (name, o) -> name = codename model.
Proof.
  unfold adapterFor.
  destruct (codename model =? "Orion")%string eqn:E1; cbn [andb].
  - apply String.eqb_eq in E1.
    destruct (truthy_opt (GROQ_API_KEY env)); [congruence|].
    destruct (codename model =? "Titan")%string eqn:E2; cbn [andb];
      [apply String.eqb_eq in E2; rewrite E1 in E2; discriminate|].
    destruct (codename model =? "Nova")%string eqn:E3;
      [apply String.eqb_eq in E3; rewrite E1 in E3; discriminate|discriminate].
  - destruct (codename model =? "Titan")%string eqn:E2; cbn [andb].
    + apply String.eqb_eq in E2.
      destruct (truthy_opt (MISTRAL_API_KEY env)); [congruence|].
      destruct (codename model =? "Nova")%string eqn:E3;
        [apply String.eqb_eq in E3; rewrite E2 in E3; discriminate|discriminate].
    + destruct (codename model =? "Nova")%string eqn:E3; [|discriminate].
      apply String.eqb_eq in E3. congruence.
Qed.

Lemma getAvailableModels_eligible (w : World) :
  getAvailableModels ["Orion"; "Titan"; "Nova"] w = (eligible (store w), w).
Proof. reflexivity. Qed.

(** No candidate eligible: the request is refused and nothing happens. *)
Lemma generate_question_refused (env : Env) (now : Z)
    (context : InterviewContext) (w : World) :
  eligible (store w) = [] ->
  generateInterviewQuestion env now context w =
  (mkResponse 503
     (Unavailable "No AI models available" ["Orion"; "Titan"; "Nova"]), w).
Proof.
  intros He. unfold generateInterviewQuestion, bind.
  rewrite getAvailableModels_eligible, He. reflexivity.
Qed.

(** Some candidate eligible: the answer carries what the loop found, or the
    fallback; the store is the loop's, possibly with the usage of the
    provider used; the evaluator may have been invoked once. *)
Lemma generate_question_served (env : Env) (now : Z)
    (context : InterviewContext) (w : World) :
  eligible (store w) <> [] ->
  let models := eligible (store w) in
  let found := loopResult env context models in
  let struck := fold_left (strike now) (strikes env context models) (store w) in
  exists evaluation modelStatus st' calls',
    generateInterviewQuestion env now context w =
    (ok (QuestionResult
           (if truthy (fst found) then Some (fst found)
            else getFallbackQuestion context)
           (if truthy (fst found) then snd found else "Fallback")
           evaluation modelStatus),
     mkWorld st' calls')
    /\ (ai_models st' = ai_models struck
        \/ exists requests tokens,
             ai_models st' =
             ai_models (update_model_usage (usage_amounts env) (snd found)
                          requests tokens struck))
    /\ (calls' = adapterCalls w ++ attempts env context models
        \/ calls' = (adapterCalls w ++ attempts env context models) ++ ["Athena"]).
Proof.
  intros He models found struck.
  assert (Hlen : (Z.of_nat (List.length models) =? 0) = false).
  { apply Z.eqb_neq. subst models.
    destruct (eligible (store w)); [contradiction|cbn [List.length]; lia]. }
  unfold generateInterviewQuestion. unfold bind at 1.
  rewrite getAvailableModels_eligible. fold models. rewrite Hlen.
  unfold bind at 1. rewrite tryModels_closed.
  fold found struck. cbn [fst snd].
  set (w1 := mkWorld struck (adapterCalls w ++ attempts env context models)).
  assert (Htail : forall (w2 : World) question usedModel,
    (ai_models (store w2) = ai_models struck
     \/ exists requests tokens,
          ai_models (store w2) =
          ai_models (update_model_usage (usage_amounts env) (snd found)
                       requests tokens struck)) ->
    adapterCalls w2 = adapterCalls w1 ->
    exists evaluation modelStatus st' calls',
      (athenaAvailable <- isModelAvailable "Athena" ;;
       evaluation <-
         (if athenaAvailable && truthy_opt (userResponse context)
          then
            r <- invoke "Athena"
                   (evaluateWithAthena env
                      (or_else (userResponse context) "") context) ;;
            match r with
            | Returns e => ret (Some e)
            | Throws _ => ret None
            end
          else ret None) ;;
       modelStatus <- getModelStatus ;;
       ret (ok (QuestionResult question usedModel evaluation modelStatus))) w2
      = (ok (QuestionResult question usedModel evaluation modelStatus),
         mkWorld st' calls')
      /\ (ai_models st' = ai_models struck
          \/ exists requests tokens,
               ai_models st' =
               ai_models (update_model_usage (usage_amounts env) (snd found)
                            requests tokens struck))
      /\ (calls' = adapterCalls w1 \/ calls' = adapterCalls w1 ++ ["Athena"])).
  { intros [st2 calls2] question usedModel Hst Hcalls.
    cbn [store adapterCalls] in Hst, Hcalls.
    unfold isModelAvailable, getModelStatus. run_M.
    match goal with
    | |- context [if ?c then _ else _] => destruct c
    end; run_M.
    - destruct (evaluateWithAthena env (or_else (userResponse context) "") context);
        do 4 eexists; (split; [reflexivity|]); cbn [store adapterCalls];
        (split; [exact Hst|right; now rewrite Hcalls]).
    - do 4 eexists. split; [reflexivity|].
      split; [exact Hst|left; exact Hcalls]. }
  destruct (truthy (fst found)) eqn:Ht; cbn [negb].
  - destruct (negb (snd found =? "Fallback")%string).
    + unfold bind at 1. run_M.
      apply Htail.
      * right. exists 1, (length (fst found)). reflexivity.
      * reflexivity.
    + unfold bind at 1. unfold ret at 1. apply Htail; [now left|reflexivity].
  - cbn [negb String.eqb Ascii.eqb Bool.eqb].
    unfold bind at 1. unfold ret at 1. apply Htail; [now left|reflexivity].
Qed.

(** *** Fallback content *)

Lemma questions_length : List.length questions = 5%nat.
Proof. reflexivity. Qed.

Lemma questions_in_range (i : Z) :
  0 <= i < 5 -> exists q, index questions i = Some q.
Proof.
  intros Hi.
  assert (H : i = 0 \/ i = 1 \/ i = 2 \/ i = 3 \/ i = 4) by lia.
  destruct H as [->|[->|[->|[->| ->]]]]; eexists; reflexivity.
Qed.

Lemma index_nonneg {A : Type} (arr : list A) (i : Z) :
  0 <= i -> index arr i = nth_error arr (Z.to_nat i).
Proof.
  intros Hi. unfold index.
  now replace (i <? 0) with false by (symmetry; apply Z.ltb_ge; lia).
Qed.

(** On the safe integers the subtraction is exact. *)
Lemma sub_one_safe (z : Z) : safeInteger z -> sub z 1 = z - 1.
Proof.
  unfold safeInteger, MAX_SAFE_INTEGER, sub, roundToDouble.
  change (2 ^ 53) with 9007199254740992. intros H.
  replace (Z.abs (z - 1) <=? 9007199254740992) with true; [reflexivity|].
  symmetry. apply Z.leb_le. lia.
Qed.

(** From question number one on, [%] is the mathematical modulo. *)
Lemma fallback_question_mod (context : InterviewContext) :
  1 <= questionNumber context ->
  safeInteger (questionNumber context) ->
  getFallbackQuestion context
  = nth_error questions (Z.to_nat ((questionNumber context - 1) mod 5)).
Proof.
  intros Hq Hsafe. unfold getFallbackQuestion, rem.
  rewrite sub_one_safe by exact Hsafe.
  rewrite questions_length. change (Z.of_nat 5) with 5.
  rewrite Z.rem_mod_nonneg by lia.
  apply index_nonneg. apply Z.mod_pos_bound. lia.
Qed.

Lemma fallback_question_defined (context : InterviewContext) :
  1 <= questionNumber context ->
  safeInteger (questionNumber context) ->
  exists q, getFallbackQuestion context = Some q.
Proof.
  intros Hq Hsafe. unfold getFallbackQuestion, rem.
  rewrite sub_one_safe by exact Hsafe. rewrite questions_length.
  change (Z.of_nat 5) with 5. rewrite Z.rem_mod_nonneg by lia.
  apply questions_in_range. apply Z.mod_pos_bound. lia.
Qed.

(** C6.  The fallback question is [questions[(questionNumber - 1) % 5]] over
    the five canned questions; it depends on the context through
    [questionNumber] alone.  For a [questionNumber] that is a safe integer
    from 1 on, the index is [(questionNumber - 1) mod 5], so the selection
    is defined, and it wraps around with period five as long as
    [questionNumber + 5] is a safe integer too.  Question numbers 1 and 6
    select the same, first, canned question. *)
Theorem fallback_question_is_modular_lookup :
  (forall context context',
     questionNumber context' = questionNumber context ->
     getFallbackQuestion context' = getFallbackQuestion context)
  /\ (forall context,
        1 <= questionNumber context ->
        safeInteger (questionNumber context) ->
        getFallbackQuestion context
        = nth_error questions
            (Z.to_nat ((questionNumber context - 1) mod 5))
        /\ exists q, getFallbackQuestion context = Some q)
  /\ (forall context context',
        1 <= questionNumber context ->
        questionNumber context' = questionNumber context + 5 ->
        safeInteger (questionNumber context') ->
        getFallbackQuestion context' = getFallbackQuestion context)
  /\ (forall context1 context6,
        questionNumber context1 = 1 -> questionNumber context6 = 6 ->
        getFallbackQuestion context1 = getFallbackQuestion context6
        /\ getFallbackQuestion context1 = nth_error questions 0).
Proof.
  split; [|split; [|split]].
  - intros context context' E. unfold getFallbackQuestion. now rewrite E.
  - intros context Hq Hsafe. split.
    + now apply fallback_question_mod.
    + now apply fallback_question_defined.
  - intros context context' Hq E Hsafe.
    assert (Hsafe0 : safeInteger (questionNumber context)).
    { unfold safeInteger, MAX_SAFE_INTEGER in *.
      change (2 ^ 53) with 9007199254740992 in *. lia. }
    rewrite (fallback_question_mod context') by (trivial; lia).
    rewrite (fallback_question_mod context) by trivial. rewrite E.
    replace (questionNumber context + 5 - 1)
      with (questionNumber context - 1 + 1 * 5) by lia.
    now rewrite Z.mod_add by lia.
  - intros context1 context6 E1 E6. unfold getFallbackQuestion.
    rewrite E1, E6. split; reflexivity.
Qed.

Lemma fallback_question_is_modular_lookup_witness :
  (getFallbackQuestion (Fixtures.contextAt 1)
   = getFallbackQuestion (Fixtures.contextAt 6)
   /\ getFallbackQuestion (Fixtures.contextAt 1)
      = Some "Tell me about a challenging project you've worked on recently.")
  /\ getFallbackQuestion (Fixtures.contextAt 8)
     = Some "What motivates you in your professional work?"
  /\ getFallbackQuestion (Fixtures.contextAt 13)
     = getFallbackQuestion (Fixtures.contextAt 8).
Proof.
  destruct fallback_question_is_modular_lookup as (_ & Hmod & Hperiod & H).
  split; [|split].
  - exact (H (Fixtures.contextAt 1) (Fixtures.contextAt 6) eq_refl eq_refl).
  - refine (proj1 (Hmod (Fixtures.contextAt 8) _ _)).
    + cbn. lia.
    + unfold safeInteger, MAX_SAFE_INTEGER. cbn. lia.
  - apply Hperiod.
    + cbn. lia.
    + reflexivity.
    + unfold safeInteger, MAX_SAFE_INTEGER. cbn. lia.
Defined.

(** C9 (as amended).  On the safe integers, the fallback lookup is defined
    for every [questionNumber >= 1].  For [questionNumber <= 0] the
    remainder [(questionNumber - 1) % 5] is never positive: where it is
    negative the index lies outside the list and no question is produced;
    where it is zero, that is when [questionNumber - 1] is a multiple of
    five (-4, -9, ...), the first canned question is returned. *)
Theorem fallback_question_defined_above_zero :
  (forall context,
     1 <= questionNumber context ->
     safeInteger (questionNumber context) ->
     exists q, getFallbackQuestion context = Some q)
  /\ (forall context,
        questionNumber context <= 0 ->
        safeInteger (questionNumber context) ->
        let i := rem (questionNumber context - 1) 5 in
        (i < 0 /\ getFallbackQuestion context = None)
        \/ (i = 0 /\ (questionNumber context - 1) mod 5 = 0
            /\ getFallbackQuestion context = nth_error questions 0)).
Proof.
  split.
  - intros context Hq Hsafe.
    now apply fallback_question_defined.
  - intros context Hq Hsafe i.
    assert (Hi : i <= 0) by (apply Z.rem_nonpos; lia).
    unfold getFallbackQuestion. rewrite sub_one_safe by exact Hsafe.
    rewrite questions_length. change (Z.of_nat 5) with 5. fold i.
    destruct (Z.eq_dec i 0) as [E|E].
    + right. split; [exact E|]. split.
      * unfold i, rem in E. apply Z.rem_divide in E; [|lia].
        apply Z.mod_divide; [lia|exact E].
      * now rewrite E.
    + left. split; [lia|]. unfold index.
      now replace (i <? 0) with true by (symmetry; apply Z.ltb_lt; lia).
Qed.

Lemma fallback_question_defined_above_zero_witness :
  getFallbackQuestion (Fixtures.contextAt 0) = None
  /\ exists q, getFallbackQuestion (Fixtures.contextAt 3) = Some q.
Proof.
  destruct fallback_question_defined_above_zero as (Hpos & Hneg).
  split.
  - destruct (Hneg (Fixtures.contextAt 0)) as [(_ & H)|(E & _)].
    + cbn. lia.
    + unfold safeInteger, MAX_SAFE_INTEGER. cbn. lia.
    + exact H.
    + vm_compute in E. discriminate E.
  - apply Hpos.
    + cbn. lia.
    + unfold safeInteger, MAX_SAFE_INTEGER. cbn. lia.
Defined.

(** C9 as stated fails: question number -4 is a safe integer below one,
    the remainder of -5 by 5 is zero rather than negative, and the first
    canned question is produced. *)
Lemma fallback_question_at_minus_four :
  questionNumber (Fixtures.contextAt (-4)) <= 0
  /\ safeInteger (questionNumber (Fixtures.contextAt (-4)))
  /\ rem (questionNumber (Fixtures.contextAt (-4)) - 1) 5 = 0
  /\ getFallbackQuestion (Fixtures.contextAt (-4))
     = Some "Tell me about a challenging project you've worked on recently.".
Proof.
  split; [cbn; lia|]. split.
  - unfold safeInteger, MAX_SAFE_INTEGER. cbn. lia.
  - split; reflexivity.
Qed.

(** Beyond the safe integers the subtraction rounds, and the bound on
    [questionNumber] cannot be dropped: [2^53 + 2] less one is [2^53], and
    the third question is selected where [(questionNumber - 1) mod 5] is
    3; [-(2^53 + 2)] less one is [-(2^53 + 4)], with remainder -1. *)
Example fallback_question_beyond_safe_integers :
  getFallbackQuestion (Fixtures.contextAt (2 ^ 53 + 2)) = nth_error questions 2
  /\ (2 ^ 53 + 2 - 1) mod 5 = 3
  /\ sub (- (2 ^ 53 + 2)) 1 = - (2 ^ 53 + 4)
  /\ getFallbackQuestion (Fixtures.contextAt (- (2 ^ 53 + 2))) = None.
Proof. vm_compute. repeat split; reflexivity. Qed.

(** *** evaluate_response *)

(** C7.  [evaluate_response] always answers with status 200.  When the
    evaluator is unavailable, its credential is missing or its call fails,
    the answer is the static fallback evaluation with the scores
    clarity 7, confidence 7, content 7, tone 7. *)
Theorem evaluate_response_never_errors :
  forall env now context w,
    status (fst (evaluateResponse env now context w)) = 200
    /\ ((fst (isModelAvailable "Athena" w) = false
         \/ truthy_opt (ANTHROPIC_API_KEY env) = false
         \/ exists message,
              evaluateWithAthena env (or_else (userResponse context) "") context
              = Throws message) ->
        fst (evaluateResponse env now context w)
        = mkResponse 200
            (FallbackEvaluation
               "Response received and noted. Continue with the interview."
               "Fallback" (mkScores 7 7 7 7))).
Proof.
  intros env now context w. unfold evaluateResponse, isModelAvailable.
  run_M.
  match goal with
  | |- context [negb ?a || _] => destruct a
  end; cbn [negb orb].
  - destruct (truthy_opt (ANTHROPIC_API_KEY env)); cbn [negb].
    + destruct (evaluateWithAthena env (or_else (userResponse context) "") context)
        as [evaluation|message]; run_M.
      * split; [reflexivity|].
        intros [H|[H|(m & H)]]; discriminate H.
      * split; reflexivity.
    + split; reflexivity.
  - split; reflexivity.
Qed.

Lemma evaluate_response_never_errors_witness :
  fst (evaluateResponse Fixtures.envAllFail Fixtures.mar15
         Fixtures.contextWithAnswer
         (Fixtures.worldOf Fixtures.tableAllDisabled))
  = mkResponse 200
      (FallbackEvaluation
         "Response received and noted. Continue with the interview."
         "Fallback" (mkScores 7 7 7 7)).
Proof.
  apply (proj2 (evaluate_response_never_errors Fixtures.envAllFail
                  Fixtures.mar15 Fixtures.contextWithAnswer
                  (Fixtures.worldOf Fixtures.tableAllDisabled))).
  right. right. exists "Anthropic API error". reflexivity.
Defined.

(** *** generate_question *)

(** C1 fails on the code: the loop walks the rows in the order the store
    returned them.  The same three eligible providers handed back as
    [Nova, Orion, Titan] are attempted in that order, and Nova answers a
    request that Orion would answer had the rows come back in priority
    order. *)
Theorem candidate_order_follows_store_order :
  Permutation Fixtures.tablePriority Fixtures.tableShuffled
  /\ adapterCalls
       (snd (generateInterviewQuestion Fixtures.envAllFail Fixtures.mar15
               (Fixtures.contextAt 1) (Fixtures.worldOf Fixtures.tablePriority)))
     = ["Orion"; "Titan"; "Nova"]
  /\ adapterCalls
       (snd (generateInterviewQuestion Fixtures.envAllFail Fixtures.mar15
               (Fixtures.contextAt 1) (Fixtures.worldOf Fixtures.tableShuffled)))
     = ["Nova"; "Orion"; "Titan"]
  /\ body (fst (generateInterviewQuestion Fixtures.envAllAnswer Fixtures.mar15
                  (Fixtures.contextAt 1)
                  (Fixtures.worldOf Fixtures.tablePriority)))
     = QuestionResult (Some "Orion asks?") "Orion" None
         (fst (getModelStatus
                 (snd (generateInterviewQuestion Fixtures.envAllAnswer
                         Fixtures.mar15 (Fixtures.contextAt 1)
                         (Fixtures.worldOf Fixtures.tablePriority)))))
  /\ body (fst (generateInterviewQuestion Fixtures.envAllAnswer Fixtures.mar15
                  (Fixtures.contextAt 1)
                  (Fixtures.worldOf Fixtures.tableShuffled)))
     = QuestionResult (Some "Nova asks?") "Nova" None
         (fst (getModelStatus
                 (snd (generateInterviewQuestion Fixtures.envAllAnswer
                         Fixtures.mar15 (Fixtures.contextAt 1)
                         (Fixtures.worldOf Fixtures.tableShuffled))))).
Proof.
  split.
  - unfold Fixtures.tablePriority, Fixtures.tableShuffled.
    apply Permutation_sym.
    apply (Permutation_cons_app
             [Fixtures.provider "Orion" true; Fixtures.provider "Titan" true] []).
    rewrite app_nil_r. apply Permutation_refl.
  - repeat split; vm_compute; reflexivity.
Qed.

Lemma eligible_none (st : Store) :
  (forall r, In r (ai_models st) ->
             In (codename r) ["Orion"; "Titan"; "Nova"] ->
             credit_status r = false) ->
  eligible st = [].
Proof.
  unfold eligible. induction (ai_models st) as [|r rows IH]; intros H;
    [reflexivity|].
  cbn [filter].
  destruct (existsb (String.eqb (codename r)) ["Orion"; "Titan"; "Nova"])
    eqn:Hname; cbn [andb].
  - apply existsb_exists in Hname as (n & Hn & E). apply String.eqb_eq in E.
    rewrite (H r); [|now left|now rewrite E].
    apply IH. intros r' Hin. apply H. now right.
  - apply IH. intros r' Hin. apply H. now right.
Qed.

(** A loop in which no adapter returns a non-empty text finds nothing. *)
Lemma loopResult_nothing (env : Env) (context : InterviewContext)
    (models : list AiModel) :
  (forall model name question,
     In model models ->
     adapterFor env context model = Some (name, Returns question) ->
     truthy question = false) ->
  truthy (fst (loopResult env context models)) = false.
Proof.
  induction models as [|model rest IH]; intros H; [reflexivity|].
  cbn [loopResult].
  destruct (adapterFor env context model) as [[name [question|message]]|] eqn:Ha.
  - cbn [fst]. apply (H model name question); [now left|exact Ha].
  - apply IH. intros m n q Hin. apply H. now right.
  - apply IH. intros m n q Hin. apply H. now right.
Qed.

(** C2 as stated fails: with the three providers disabled the answer for
    question number one is the 503 refusal, not a fallback question. *)
Lemma generate_question_all_disabled_refused :
  (forall r, In r Fixtures.tableAllDisabled ->
             In (codename r) ["Orion"; "Titan"; "Nova"] ->
             credit_status r = false)
  /\ questionNumber (Fixtures.contextAt 1) = 1
  /\ fst (generateInterviewQuestion Fixtures.envAllAnswer Fixtures.mar15
            (Fixtures.contextAt 1) (Fixtures.worldOf Fixtures.tableAllDisabled))
     = mkResponse 503
         (Unavailable "No AI models available" ["Orion"; "Titan"; "Nova"]).
Proof.
  split; [|split; reflexivity].
  intros r Hin Hname. cbn in Hin.
  destruct Hin as [<-|[<-|[<-|[<-|[]]]]]; try reflexivity.
  cbn in Hname. destruct Hname as [H|[H|[H|[]]]]; discriminate H.
Qed.

(** *** The single-strike breaker *)

Lemma disabled_ext (cn : string) (st st' : Store) :
  ai_models st' = ai_models st -> disabled cn st -> disabled cn st'.
Proof. unfold disabled. intros E H. now rewrite E. Qed.

Lemma strike_disables (now : Z) (st : Store) (cn : string) :
  disabled cn (strike now st cn).
Proof.
  intros r Hin E. cbn in Hin. apply in_map_iff in Hin as (r0 & <- & _).
  destruct (codename r0 =? cn)%string eqn:Hc; [reflexivity|].
  apply String.eqb_neq in Hc. contradiction.
Qed.

Lemma strike_keeps (now : Z) (st : Store) (cn cn' : string) :
  disabled cn st -> disabled cn (strike now st cn').
Proof.
  intros H r Hin E. cbn in Hin. apply in_map_iff in Hin as (r0 & <- & Hin).
  destruct (codename r0 =? cn')%string; [reflexivity|].
  now apply H.
Qed.

Lemma strikes_disable (now : Z) (cn : string) (struck : list string) :
  forall st,
    In cn struck \/ disabled cn st ->
    disabled cn (fold_left (strike now) struck st).
Proof.
  induction struck as [|cn' rest IH]; intros st H; cbn [fold_left].
  - destruct H as [[]|H]. exact H.
  - apply IH. destruct H as [[->|H]|H].
    + right. apply strike_disables.
    + now left.
    + right. now apply strike_keeps.
Qed.

Lemma usage_keeps (amounts : UsageAmounts) (cn name : string)
    (requests tokens : Z) (st : Store) :
  disabled cn st ->
  disabled cn (update_model_usage amounts name requests tokens st).
Proof.
  intros H r Hin E. cbn in Hin. apply in_map_iff in Hin as (r0 & <- & Hin).
  destruct (codename r0 =? name)%string;
    cbn [add_usage credit_status codename] in *; now apply H.
Qed.

(** Rows whose adapter does not return are walked through. *)
Lemma loop_through (env : Env) (context : InterviewContext)
    (before models : list AiModel) :
  Forall (fun m => forall n q,
            adapterFor env context m <> Some (n, Returns q)) before ->
  attempts env context (before ++ models)
  = attempts env context before ++ attempts env context models
  /\ strikes env context (before ++ models)
     = strikes env context before ++ strikes env context models
  /\ loopResult env context (before ++ models)
     = loopResult env context models.
Proof.
  induction 1 as [|m before Hm _ IH]; [now repeat split|].
  destruct IH as (IHa & IHs & IHr).
  cbn [app attempts strikes loopResult].
  destruct (adapterFor env context m) as [[n [q|msg]]|] eqn:Ha.
  - now destruct (Hm n q).
  - cbn [app]. now rewrite IHa, IHs, IHr.
  - now rewrite IHa, IHs, IHr.
Qed.

Lemma attempts_incl (env : Env) (context : InterviewContext)
    (models : list AiModel) (name : string) :
  In name (attempts env context models) -> In name (map codename models).
Proof.
  induction models as [|m rest IH]; [intros []|].
  cbn [attempts map].
  destruct (adapterFor env context m) as [[n [q|msg]]|] eqn:Ha.
  - intros [<-|[]]. left. symmetry. exact (adapterFor_name _ _ _ _ _ Ha).
  - intros [<-|H]; [left|right; now apply IH].
    symmetry. exact (adapterFor_name _ _ _ _ _ Ha).
  - intros H. right. now apply IH.
Qed.

Lemma adapterFor_not_evaluator (env : Env) (context : InterviewContext)
    (model : AiModel) (name : string) (o : outcome string) :
  adapterFor env context model = Some (name, o) -> name <> "Athena".
Proof.
  unfold adapterFor.
  repeat match goal with
         | |- context [if ?c then _ else _] => destruct c
         end; intros H; inversion H; discriminate.
Qed.

Lemma unique_codenames_filter (p : AiModel -> bool) (rows : list AiModel) :
  NoDup (map codename rows) -> NoDup (map codename (filter p rows)).
Proof.
  induction rows as [|r rows IH]; intros H; [constructor|].
  cbn [map] in H. inversion H as [|? ? Hfresh Hnd]; subst.
  cbn [filter]. destruct (p r); [|now apply IH].
  cbn [map]. constructor; [|now apply IH].
  intros Hin. apply Hfresh. apply in_map_iff in Hin as (x & E & Hx).
  apply filter_In in Hx as (Hx & _). rewrite <- E. now apply in_map.
Qed.

(** The breaker in the candidate loop of [generate_question]: the failing
    candidate is disabled and invoked once, and the loop goes on to the
    next candidate. *)
Lemma question_loop_strikes :
  forall env now context w before model rest name message resp w',
    fst (getAvailableModels ["Orion"; "Titan"; "Nova"] w)
    = before ++ model :: rest ->
    Forall (fun m => forall n q,
              adapterFor env context m <> Some (n, Returns q)) before ->
    adapterFor env context model = Some (name, Throws message) ->
    generateInterviewQuestion env now context w = (resp, w') ->
    disabled (codename model) (store w')
    /\ (NoDup (map codename (ai_models (store w))) ->
        count_occ string_dec (adapterCalls w') name
        = S (count_occ string_dec (adapterCalls w) name))
    /\ (forall next rest' name' question,
          rest = next :: rest' ->
          adapterFor env context next = Some (name', Returns question) ->
          truthy question = true ->
          status resp = 200
          /\ exists evaluation modelStatus,
               body resp
               = QuestionResult (Some question) name' evaluation modelStatus).
Proof.
  intros env now context w before model rest name message resp w'
    Hrows Hbefore Hfail Hrun.
  rewrite getAvailableModels_eligible in Hrows. cbn [fst] in Hrows.
  assert (Hsome : eligible (store w) <> []).
  { rewrite Hrows. intros E. symmetry in E. now apply app_cons_not_nil in E. }
  destruct (generate_question_served env now context w Hsome)
    as (evaluation & modelStatus & st' & calls' & Hserved & Hst & Hcalls).
  rewrite Hserved in Hrun. injection Hrun as <- <-.
  cbn [store adapterCalls body status ok].
  rewrite Hrows in *.
  destruct (loop_through env context before (model :: rest) Hbefore)
    as (Ha & Hs & Hr).
  cbn [attempts strikes loopResult] in Ha, Hs, Hr. rewrite Hfail in Ha, Hs, Hr.
  pose proof (adapterFor_name _ _ _ _ _ Hfail) as Hname.
  split; [|split].
  - assert (Hstruck : disabled (codename model)
                        (fold_left (strike now)
                           (strikes env context (before ++ model :: rest))
                           (store w))).
    { apply strikes_disable. left. rewrite Hs. apply in_or_app.
      right. now left. }
    destruct Hst as [E|(requests & tokens & E)].
    + exact (disabled_ext _ _ _ E Hstruck).
    + apply (disabled_ext _ _ _ E). now apply usage_keeps.
  - intros Hnd.
    pose proof (unique_codenames_filter
                  (fun r => existsb (String.eqb (codename r))
                              ["Orion"; "Titan"; "Nova"] && credit_status r)
                  _ Hnd) as Hnd'.
    fold (eligible (store w)) in Hnd'. rewrite Hrows, map_app in Hnd'.
    cbn [map] in Hnd'.
    pose proof (NoDup_remove_2 _ _ _ Hnd') as Hfresh.
    assert (H0 : count_occ string_dec (attempts env context before) name = 0%nat).
    { apply count_occ_not_In. intros Hin. apply attempts_incl in Hin.
      apply Hfresh. apply in_or_app. left. now rewrite <- Hname. }
    assert (H1 : count_occ string_dec (attempts env context rest) name = 0%nat).
    { apply count_occ_not_In. intros Hin. apply attempts_incl in Hin.
      apply Hfresh. apply in_or_app. right. now rewrite <- Hname. }
    assert (Hloop : count_occ string_dec
                      (adapterCalls w
                       ++ attempts env context (before ++ model :: rest)) name
                    = S (count_occ string_dec (adapterCalls w) name)).
    { rewrite Ha, !count_occ_app, H0. cbn [count_occ].
      destruct (string_dec name name) as [_|Hne]; [|contradiction].
      rewrite H1. lia. }
    destruct Hcalls as [->| ->]; [exact Hloop|].
    rewrite count_occ_app, Hloop. cbn [count_occ].
    destruct (string_dec "Athena" name) as [E|_]; [|lia].
    symmetry in E. now apply (adapterFor_not_evaluator _ _ _ _ _ Hfail) in E.
  - intros next rest' name' question -> Hnext Htruthy.
    cbn [loopResult] in Hr. rewrite Hnext in Hr. rewrite Hr.
    cbn [fst snd]. rewrite Htruthy. split; [reflexivity|].
    now exists evaluation, modelStatus.
Qed.

(** The evaluator's breaker in [evaluate_response]. *)
Lemma evaluate_response_strikes_evaluator (env : Env) (now : Z)
    (context : InterviewContext) (w : World) (message : string) :
  fst (isModelAvailable "Athena" w) = true ->
  truthy_opt (ANTHROPIC_API_KEY env) = true ->
  evaluateWithAthena env (or_else (userResponse context) "") context
  = Throws message ->
  disabled "Athena" (store (snd (evaluateResponse env now context w)))
  /\ adapterCalls (snd (evaluateResponse env now context w))
     = adapterCalls w ++ ["Athena"].
Proof.
  unfold evaluateResponse, isModelAvailable. run_M.
  intros -> -> ->. run_M. split; [|reflexivity].
  apply (strike_disables now (store w) "Athena").
Qed.

(** C4 as stated fails: in this [generate_question] request the adapter
    of Athena is invoked and fails, and Athena is as enabled afterwards as
    it was before; the failure is swallowed and the request answers 200.
    (Orion, whose adapter failed in the candidate loop, is disabled.) *)
Lemma question_evaluation_failure_is_swallowed :
  let rows := Fixtures.tablePriority ++ [Fixtures.provider "Athena" true] in
  let run := generateInterviewQuestion Fixtures.envOrionDown Fixtures.mar15
               Fixtures.contextWithAnswer (Fixtures.worldOf rows) in
  evaluateWithAthena Fixtures.envOrionDown "I led the migration."
    Fixtures.contextWithAnswer
  = Throws "Anthropic API error"
  /\ adapterCalls (snd run) = ["Orion"; "Titan"; "Athena"]
  /\ map (fun r => (codename r, credit_status r)) (ai_models (store (snd run)))
     = [("Orion", false); ("Titan", true); ("Nova", true); ("Athena", true)]
  /\ status (fst run) = 200.
Proof. vm_compute. repeat split; reflexivity. Qed.

End OrchestratorFacts.

(* ================================================================== *)
(** ** Facts about concurrent usage tracking                           *)
(* ================================================================== *)

Module UsageTrackerFacts.

Import UsageTracker.

(** The orchestrator's [trackUsage] issues exactly the operations of
    [program], in order, and does nothing else. *)
Lemma trackUsage_runs_program (env : Orchestrator.Env) (c : Call)
    (w : Orchestrator.World) :
  Orchestrator.trackUsage env (modelCodename c) (sessionId c)
    (requests c) (tokens c) w
  = (tt, Orchestrator.mkWorld
           (fold_left (exec (Orchestrator.usage_amounts env)) (program c)
              (Orchestrator.store w))
           (Orchestrator.adapterCalls w)).
Proof. reflexivity. Qed.

Lemma steps_trans (amounts : UsageAmounts) (c1 c2 c3 : Pool * Store) :
  steps amounts c1 c2 -> steps amounts c2 c3 -> steps amounts c1 c3.
Proof.
  induction 1 as [c|a b c Hstep _ IH]; [auto|].
  intros H. eapply steps_cons; [exact Hstep|]. now apply IH.
Qed.

(** A caller runs its program to the end while the others wait. *)
Lemma caller_runs (amounts : UsageAmounts) (before after : Pool)
    (ops : list StoreOp) :
  forall st,
    steps amounts (before ++ ops :: after, st)
                  (before ++ [] :: after, fold_left (exec amounts) ops st).
Proof.
  induction ops as [|op ops IH]; intros st; [constructor|].
  eapply steps_cons; [apply step_caller|]. cbn [fold_left]. apply IH.
Qed.

(** The calls made one after the other are one way for the concurrent
    calls to complete. *)
Lemma trackAll_steps (env : Orchestrator.Env) (calls : list Call) :
  forall (done : Pool) (w : Orchestrator.World),
    steps (Orchestrator.usage_amounts env)
      (done ++ map program calls, Orchestrator.store w)
      (done ++ map (fun _ => []) calls,
       Orchestrator.store (snd (UsageTrackerViews.trackAll env calls w))).
Proof.
  induction calls as [|c calls IH]; intros done w; [constructor|].
  cbn [map UsageTrackerViews.trackAll]. unfold Orchestrator.bind.
  rewrite trackUsage_runs_program.
  eapply steps_trans; [apply caller_runs|].
  replace (done ++ [] :: map program calls)
    with ((done ++ [[]]) ++ map program calls)
    by (now rewrite <- app_assoc).
  replace (done ++ [] :: map (fun _ : Call => []) calls)
    with ((done ++ [[]]) ++ map (fun _ : Call => @nil StoreOp) calls)
    by (now rewrite <- app_assoc).
  exact (IH (done ++ [[]]) (Orchestrator.mkWorld _ _)).
Qed.

Lemma trackAll_completes (env : Orchestrator.Env) (calls : list Call)
    (w : Orchestrator.World) :
  completes (Orchestrator.usage_amounts env) calls (Orchestrator.store w)
    (Orchestrator.store (snd (UsageTrackerViews.trackAll env calls w))).
Proof.
  exists (map (fun _ => []) calls). split.
  - exact (trackAll_steps env calls [] w).
  - unfold finished. apply Forall_forall. intros ops Hin.
    apply in_map_iff in Hin as (c & <- & _). reflexivity.
Qed.

Lemma sumZ_app (l1 l2 : list Z) : sumZ (l1 ++ l2) = sumZ l1 + sumZ l2.
Proof.
  induction l1 as [|x l1 IH]; cbn [app sumZ fold_right]; [reflexivity|].
  fold (sumZ (l1 ++ l2)). fold (sumZ l1). lia.
Qed.

Lemma concat_split (before after : Pool) (ops : list StoreOp) :
  List.concat (before ++ ops :: after) = List.concat before ++ ops ++ List.concat after.
Proof. now rewrite concat_app. Qed.

Lemma raised_zero (r : AiModel) : raised 0 0 r = r.
Proof. destruct r. unfold raised. cbn. now rewrite !Z.add_0_r. Qed.

Lemma bump_zero (cn : string) (rows : list AiModel) : bump cn 0 0 rows = rows.
Proof.
  unfold bump, update_where_codename. rewrite <- (map_id rows) at 2.
  apply map_ext. intros r. rewrite raised_zero. now destruct (_ =? _)%string.
Qed.

(** Applying the primitive and then the rest is applying the total. *)
Lemma bump_after_update (amounts : UsageAmounts) (cn : string)
    (requests tokens d m : Z) (rows : list AiModel) :
  bump cn d m
    (update_where_codename cn (add_usage amounts requests tokens) rows)
  = bump cn (daily_amount amounts requests tokens + d)
            (monthly_amount amounts requests tokens + m) rows.
Proof.
  unfold bump, update_where_codename. rewrite map_map. apply map_ext.
  intros r. destruct (codename r =? cn)%string eqn:E.
  - cbn [add_usage codename]. rewrite E. unfold raised, add_usage. cbn.
    f_equal; lia.
  - now rewrite E.
Qed.

(** One step keeps "store plus pending" fixed. *)
Lemma step_preserves (amounts : UsageAmounts) (cn : string)
    (c c' : Pool * Store) :
  step amounts c c' ->
  Forall (Forall (targets cn)) (fst c) ->
  Forall (Forall (targets cn)) (fst c')
  /\ bump cn (pendingDaily amounts (fst c')) (pendingMonthly amounts (fst c'))
       (ai_models (snd c'))
     = bump cn (pendingDaily amounts (fst c)) (pendingMonthly amounts (fst c))
         (ai_models (snd c))
  /\ Permutation (ai_usage_tracking (snd c') ++ pendingRows (fst c'))
                 (ai_usage_tracking (snd c) ++ pendingRows (fst c)).
Proof.
  intros Hstep. destruct Hstep as [before op ops after st]. cbn [fst snd].
  intros Hall.
  apply Forall_app in Hall as (Hb & Ha).
  inversion Ha as [|? ? Hthread Hafter]; subst.
  inversion Hthread as [|? ? Hop Hops]; subst.
  split; [|split].
  - apply Forall_app. split; [exact Hb|]. now constructor.
  - unfold pendingDaily, pendingMonthly. rewrite !concat_split.
    rewrite !map_app, !sumZ_app. cbn [map app sumZ fold_right].
    fold (sumZ (map (opDaily amounts) ops)).
    fold (sumZ (map (opMonthly amounts) ops)).
    destruct op as [row|name requests tokens]; cbn [exec opDaily opMonthly].
    + cbn [insert_usage ai_models]. f_equal; lia.
    + cbn [targets] in Hop. subst name.
      unfold update_model_usage, with_models. cbn [ai_models].
      rewrite bump_after_update. f_equal; lia.
  - unfold pendingRows. rewrite !concat_split, !flat_map_app.
    destruct op as [row|name requests tokens]; cbn [exec flat_map opRows app].
    + cbn [insert_usage ai_usage_tracking]. rewrite <- app_assoc.
      apply Permutation_app_head. cbn [app].
      apply Permutation_middle.
    + apply Permutation_refl.
Qed.

Lemma steps_preserve (amounts : UsageAmounts) (cn : string)
    (c c' : Pool * Store) :
  steps amounts c c' ->
  Forall (Forall (targets cn)) (fst c) ->
  bump cn (pendingDaily amounts (fst c')) (pendingMonthly amounts (fst c'))
    (ai_models (snd c'))
  = bump cn (pendingDaily amounts (fst c)) (pendingMonthly amounts (fst c))
      (ai_models (snd c))
  /\ Permutation (ai_usage_tracking (snd c') ++ pendingRows (fst c'))
                 (ai_usage_tracking (snd c) ++ pendingRows (fst c)).
Proof.
  induction 1 as [c|c1 c2 c3 Hstep _ IH]; intros Hall.
  - split; [reflexivity|apply Permutation_refl].
  - destruct (step_preserves amounts cn c1 c2 Hstep Hall) as (Hall2 & Hm & Hl).
    destruct (IH Hall2) as (Hm' & Hl'). split.
    + now rewrite Hm'.
    + now rewrite Hl'.
Qed.

Lemma finished_concat (pool : Pool) : finished pool -> List.concat pool = [].
Proof.
  induction 1 as [|ops pool -> _ IH]; [reflexivity|]. exact IH.
Qed.

Lemma pool_cases (pool : Pool) :
  finished pool
  \/ exists before op ops after, pool = before ++ (op :: ops) :: after.
Proof.
  induction pool as [|[|op ops] pool IH].
  - left. constructor.
  - destruct IH as [Hf|(before & op & ops & after & ->)].
    + left. now constructor.
    + right. now exists ([] :: before), op, ops, after.
  - right. now exists [], op, ops, pool.
Qed.

(** Every pool can be run to completion. *)
Lemma can_finish (amounts : UsageAmounts) (n : nat) :
  forall pool st,
    List.length (List.concat pool) = n ->
    exists pool' st', steps amounts (pool, st) (pool', st') /\ finished pool'.
Proof.
  induction n as [|n IH]; intros pool st Hlen.
  - destruct (pool_cases pool) as [Hf|(before & op & ops & after & ->)].
    + exists pool, st. split; [constructor|exact Hf].
    + rewrite concat_split, !length_app in Hlen. cbn [List.length] in Hlen. lia.
  - destruct (pool_cases pool) as [Hf|(before & op & ops & after & ->)].
    + rewrite (finished_concat pool Hf) in Hlen. discriminate Hlen.
    + destruct (IH (before ++ ops :: after) (exec amounts st op))
        as (pool' & st' & Hsteps & Hf).
      * rewrite concat_split, !length_app in *. cbn [List.length] in Hlen. lia.
      * exists pool', st'. split; [|exact Hf].
        eapply steps_cons; [apply step_caller|exact Hsteps].
Qed.

Lemma programs_pending (amounts : UsageAmounts) (calls : list Call) :
  pendingDaily amounts (map program calls) = totalDaily amounts calls
  /\ pendingMonthly amounts (map program calls) = totalMonthly amounts calls
  /\ pendingRows (map program calls) = map usageRow calls.
Proof.
  unfold pendingDaily, pendingMonthly, pendingRows, totalDaily, totalMonthly,
    sumZ.
  induction calls as [|c calls (IHd & IHm & IHr)]; [now repeat split|].
  cbn [map List.concat program app flat_map opRows opDaily opMonthly fold_right].
  rewrite IHd, IHm, IHr. now repeat split.
Qed.

Lemma programs_target (cn : string) (calls : list Call) :
  Forall (fun c => modelCodename c = cn) calls ->
  Forall (Forall (targets cn)) (map program calls).
Proof.
  induction 1 as [|c calls Hc _ IH]; cbn [map]; constructor; [|exact IH].
  unfold program. repeat constructor. exact Hc.
Qed.

(** The counters and the log once calls for one provider have completed. *)
Lemma completion_adds_up (amounts : UsageAmounts) (cn : string)
    (calls : list Call) (st st' : Store) :
  Forall (fun c => modelCodename c = cn) calls ->
  completes amounts calls st st' ->
  ai_models st'
  = update_where_codename cn
      (raised (totalDaily amounts calls) (totalMonthly amounts calls))
      (ai_models st)
  /\ Permutation (ai_usage_tracking st')
                 (ai_usage_tracking st ++ map usageRow calls).
Proof.
  intros Hcn (pool' & Hsteps & Hf).
  destruct (steps_preserve amounts cn _ _ Hsteps (programs_target cn calls Hcn))
    as (Hm & Hl).
  cbn [fst snd] in Hm, Hl.
  destruct (programs_pending amounts calls) as (Ed & Em & Er).
  rewrite Ed, Em in Hm. rewrite Er in Hl.
  unfold pendingDaily, pendingMonthly, pendingRows in Hm, Hl.
  rewrite (finished_concat pool' Hf) in Hm, Hl.
  cbn [map sumZ fold_right flat_map] in Hm, Hl.
  rewrite bump_zero in Hm. rewrite app_nil_r in Hl. now split.
Qed.

(** C10.  A [trackUsage] call of the orchestrator is two operations on the
    store, the log entry and then the increment, and never reads a
    counter.  Start any number of such calls for one provider
    concurrently, in an environment [env] and a world [w].  They can all
    complete (running them one after the other is one way), and however
    the store serialises their operations, once they have completed the
    provider's daily and monthly counters stand at their initial values
    plus the sum of the amounts of all the calls, and the usage log has
    gained exactly one entry per call.  The increment is one atomic
    operation of the store. *)
Theorem concurrent_tracking_adds_up :
  forall env cn calls w,
    Forall (fun c => modelCodename c = cn) calls ->
    let amounts := Orchestrator.usage_amounts env in
    (forall c w0,
       Orchestrator.trackUsage env (modelCodename c) (sessionId c)
         (requests c) (tokens c) w0
       = (tt, Orchestrator.mkWorld
                (fold_left (exec amounts) (program c) (Orchestrator.store w0))
                (Orchestrator.adapterCalls w0)))
    /\ completes amounts calls (Orchestrator.store w)
         (Orchestrator.store (snd (UsageTrackerViews.trackAll env calls w)))
    /\ (forall st',
          completes amounts calls (Orchestrator.store w) st' ->
          ai_models st'
          = update_where_codename cn
              (raised (totalDaily amounts calls) (totalMonthly amounts calls))
              (ai_models (Orchestrator.store w))
          /\ Permutation (ai_usage_tracking st')
                         (ai_usage_tracking (Orchestrator.store w)
                          ++ map usageRow calls)).
Proof.
  intros env cn calls w Hcn amounts. split; [|split].
  - intros c w0. apply trackUsage_runs_program.
  - apply trackAll_completes.
  - intros st' Hdone. now apply completion_adds_up.
Qed.

Lemma concurrent_tracking_adds_up_witness :
  let w := Fixtures.worldOf Fixtures.tablePriority in
  let st' := Orchestrator.store
               (snd (UsageTrackerViews.trackAll Fixtures.envAllAnswer
                       Fixtures.orionCalls w)) in
  completes Fixtures.countRequests Fixtures.orionCalls (Orchestrator.store w) st'
  /\ (forall st'',
        completes Fixtures.countRequests Fixtures.orionCalls
          (Orchestrator.store w) st'' ->
        map current_daily_usage (ai_models st'') = [2; 0; 0]
        /\ map current_monthly_usage (ai_models st'') = [2; 0; 0]
        /\ Permutation (ai_usage_tracking st'')
             [mkUsageRow "Orion" "session-1" 1 120;
              mkUsageRow "Orion" "session-2" 1 80]).
Proof.
  intros w st'.
  destruct (concurrent_tracking_adds_up Fixtures.envAllAnswer "Orion"
              Fixtures.orionCalls w)
    as (_ & Hseq & Hall).
  - repeat constructor.
  - split; [exact Hseq|]. intros st'' Hdone.
    destruct (Hall st'' Hdone) as (Hrows & Hlog). rewrite Hrows.
    split; [reflexivity|]. split; [reflexivity|exact Hlog].
Defined.

End UsageTrackerFacts.

(* ================================================================== *)
(** ** Further facts about the credit monitor                          *)
(* ================================================================== *)

Module CreditMonitorMore.

Import CreditMonitor CreditMonitorFacts.

(** The row [check_credits] leaves, field by field. *)
Lemma checkedRow_fields (now : Z) (model : AiModel) :
  checkedRow now model
  = mkAiModel (codename model) (original_name model) (newStatus now model)
      (newDailyUsage now model) (newMonthlyUsage now model)
      (daily_limit model) (monthly_limit model)
      (newDailyReset now model) (newMonthlyReset now model)
      (if needsUpdate now model then now else last_checked model).
Proof.
  unfold checkedRow. destruct (needsUpdate now model) eqn:Hn; [reflexivity|].
  unfold needsUpdate in Hn. apply orb_false_elim in Hn as (Hr & Hl).
  unfold resetDue in Hr. apply orb_false_elim in Hr as (Hd & Hm).
  unfold newStatus, newDailyUsage, newMonthlyUsage, newDailyReset,
    newMonthlyReset, resetDue.
  rewrite Hl, Hd, Hm. cbn [orb andb]. rewrite andb_false_r.
  now destruct model.
Qed.

Lemma no_days_since_now (now : Z) : (1 <=? (now - now) / Date.msPerDay) = false.
Proof. now rewrite Z.sub_diag. Qed.

Lemma no_months_since_now (now : Z) :
  (1 <=? (Date.getFullYear now - Date.getFullYear now) * 12
         + (Date.getMonth now - Date.getMonth now)) = false.
Proof. rewrite !Z.sub_diag. reflexivity. Qed.

(** After a run no reset is due any more and the limit tests come out as
    they did during the run. *)
Lemma checkedRow_settled (now : Z) (model : AiModel) :
  resetDue now (checkedRow now model) = false
  /\ dailyExceeded now (checkedRow now model) = dailyExceeded now model
  /\ monthlyExceeded now (checkedRow now model) = monthlyExceeded now model.
Proof.
  rewrite checkedRow_fields.
  set (r := mkAiModel _ _ _ _ _ _ _ _ _ _).
  assert (Hd : dailyResetDue now r = false).
  { unfold dailyResetDue, daysSinceReset. subst r. cbn [last_reset_daily].
    unfold newDailyReset. destruct (dailyResetDue now model) eqn:E.
    - apply no_days_since_now.
    - exact E. }
  assert (Hm : monthlyResetDue now r = false).
  { unfold monthlyResetDue, monthsSinceReset. subst r. cbn [last_reset_monthly].
    unfold newMonthlyReset. destruct (monthlyResetDue now model) eqn:E.
    - apply no_months_since_now.
    - exact E. }
  split; [|split].
  - unfold resetDue. now rewrite Hd, Hm.
  - unfold dailyExceeded. replace (newDailyUsage now r) with (newDailyUsage now model);
      [reflexivity|].
    unfold newDailyUsage at 2. now rewrite Hd.
  - unfold monthlyExceeded.
    replace (newMonthlyUsage now r) with (newMonthlyUsage now model);
      [reflexivity|].
    unfold newMonthlyUsage at 2. now rewrite Hm.
Qed.

Lemma checkedRow_status (now : Z) (model : AiModel) :
  credit_status (checkedRow now model) = newStatus now model
  /\ current_daily_usage (checkedRow now model) = newDailyUsage now model
  /\ current_monthly_usage (checkedRow now model) = newMonthlyUsage now model
  /\ daily_limit (checkedRow now model) = daily_limit model
  /\ monthly_limit (checkedRow now model) = monthly_limit model.
Proof. rewrite checkedRow_fields. now repeat split. Qed.

(** A row with no reset due that is either within its limits, or disabled
    and stamped [now], is a fixed point of the gate. *)
Lemma checkedRow_fixed (now : Z) (r : AiModel) :
  resetDue now r = false ->
  (limitExceeded now r = true -> credit_status r = false /\ last_checked r = now) ->
  checkedRow now r = r.
Proof.
  intros Hr Hl. rewrite checkedRow_fields.
  pose proof Hr as Hr'. unfold resetDue in Hr'.
  apply orb_false_elim in Hr' as (Hd & Hm).
  unfold newStatus, newDailyUsage, newMonthlyUsage, newDailyReset,
    newMonthlyReset, needsUpdate.
  rewrite Hr, Hd, Hm. cbn [orb]. rewrite andb_false_r.
  destruct (limitExceeded now r).
  - destruct (Hl eq_refl) as (Hs & Hc). destruct r. cbn in *. now subst.
  - now destruct r.
Qed.

Lemma checkedRow_idempotent (now : Z) (model : AiModel) :
  checkedRow now (checkedRow now model) = checkedRow now model.
Proof.
  destruct (checkedRow_settled now model) as (Hr & Hd & Hm).
  apply checkedRow_fixed; [exact Hr|].
  unfold limitExceeded. rewrite Hd, Hm. fold (limitExceeded now model).
  intros Hl. rewrite checkedRow_fields. cbn [credit_status last_checked].
  unfold newStatus, needsUpdate. rewrite Hl, orb_true_r. now split.
Qed.

Lemma checkedRow_not_newly_exhausted (now : Z) (model : AiModel) :
  newlyExhausted now (checkedRow now model) = false.
Proof.
  destruct (checkedRow_settled now model) as (_ & Hd & Hm).
  unfold newlyExhausted, limitExceeded. rewrite Hd, Hm.
  fold (limitExceeded now model).
  rewrite (proj1 (checkedRow_status now model)). unfold newStatus.
  now destruct (limitExceeded now model).
Qed.

Lemma filter_none {A : Type} (p : A -> bool) (l : list A) :
  (forall x, In x l -> p x = false) -> filter p l = [].
Proof.
  induction l as [|x l IH]; intros H; [reflexivity|].
  cbn [filter]. rewrite (H x) by now left.
  apply IH. intros y Hy. apply H. now right.
Qed.

Lemma checked_codenames (now : Z) (models : list AiModel) :
  map codename (map (checkedRow now) models) = map codename models.
Proof.
  rewrite map_map. apply map_ext. intros r. apply checkedRow_codename.
Qed.

(** Rows of the checked table, traced back through unique codenames. *)
Lemma checked_row_of (now : Z) (st : Store) (model model' : AiModel) :
  NoDup (map codename (ai_models st)) ->
  In model (ai_models st) ->
  In model' (map (checkedRow now) (ai_models st)) ->
  codename model' = codename model ->
  model' = checkedRow now model.
Proof.
  intros Hnd Hin Hin' E. apply in_map_iff in Hin' as (m & <- & Hm).
  rewrite checkedRow_codename in E.
  now rewrite (unique_codename _ Hnd m model Hm Hin E).
Qed.

(** X1.  A provider with a positive daily limit that its usage has reached,
    inside its daily window, ends a [check_credits] run disabled with its
    usage intact.  If it was enabled it is reported with the reason "Daily
    limit exceeded" and its daily figures, whatever its monthly figures
    are; if it was already disabled it is not reported. *)
Theorem check_credits_exhausts_daily :
  forall now st model resp st',
    NoDup (map codename (ai_models st)) ->
    In model (ai_models st) ->
    0 < daily_limit model ->
    daily_limit model <= current_daily_usage model ->
    daysSinceReset now model < 1 ->
    checkAndUpdateCredits now st = (resp, st') ->
    (forall model',
       In model' (ai_models st') -> codename model' = codename model ->
       credit_status model' = false
       /\ current_daily_usage model' = current_daily_usage model)
    /\ (credit_status model = true ->
        In (mkExhausted (codename model) "Daily limit exceeded"
              (current_daily_usage model) (daily_limit model))
           (exhaustedModels (body resp)))
    /\ (credit_status model = false ->
        forall e, In e (exhaustedModels (body resp)) ->
                  ex_codename e <> codename model).
Proof.
  intros now st model resp st' Hnd Hin Hlimit Husage Hdays Hrun.
  rewrite (checkAndUpdateCredits_closed now st Hnd) in Hrun.
  injection Hrun as <- <-. cbn [ai_models body ok exhaustedModels].
  assert (Hdue : dailyResetDue now model = false).
  { unfold dailyResetDue. apply Z.leb_gt. lia. }
  assert (Hnew : newDailyUsage now model = current_daily_usage model).
  { unfold newDailyUsage. now rewrite Hdue. }
  assert (Hdaily : dailyExceeded now model = true).
  { unfold dailyExceeded. rewrite Hnew.
    apply andb_true_intro. split; [now apply Z.ltb_lt|now apply Z.leb_le]. }
  assert (Hexc : limitExceeded now model = true).
  { unfold limitExceeded. now rewrite Hdaily. }
  split; [|split].
  - intros model' Hin' E.
    rewrite (checked_row_of now st model model' Hnd Hin Hin' E).
    destruct (checkedRow_status now model) as (-> & -> & _).
    unfold newStatus. now rewrite Hexc.
  - intros Hs. apply in_map_iff. exists model. split.
    + unfold exhaustedOf. now rewrite Hdaily, Hnew.
    + apply filter_In. split; [exact Hin|].
      unfold newlyExhausted. now rewrite Hexc, Hs.
  - intros Hs e He E. apply in_map_iff in He as (m & <- & Hm).
    apply filter_In in Hm as (Hm & Hnewly).
    cbn [exhaustedOf ex_codename] in E.
    rewrite (unique_codename _ Hnd m model Hm Hin E) in Hnewly.
    unfold newlyExhausted in Hnewly. rewrite Hs, andb_false_r in Hnewly.
    discriminate.
Qed.

Lemma check_credits_exhausts_daily_witness :
  let run := checkAndUpdateCredits Fixtures.mar15
               (mkStore Scenarios.mixedTable []) in
  In (mkExhausted "Titan" "Daily limit exceeded" 100 100)
     (exhaustedModels (body (fst run)))
  /\ forall model',
       In model' (ai_models (snd run)) -> codename model' = "Titan" ->
       credit_status model' = false.
Proof.
  intros run.
  assert (Hnd : NoDup (map codename (ai_models (mkStore Scenarios.mixedTable [])))).
  { cbn. repeat constructor; cbn; intuition discriminate. }
  destruct (check_credits_exhausts_daily Fixtures.mar15
              (mkStore Scenarios.mixedTable []) Scenarios.overBoth
              (fst run) (snd run) Hnd)
    as (Hrow & Hreport & _).
  - right. now left.
  - reflexivity.
  - cbn. lia.
  - vm_compute. reflexivity.
  - apply surjective_pairing.
  - split.
    + now apply Hreport.
    + intros model' Hin E. exact (proj1 (Hrow model' Hin E)).
Defined.

(** X2.  After a [check_credits] run no enabled provider is at or over a
    positive limit: the run establishes the store's invariant between
    [creditStatus] and the counters. *)
Theorem check_credits_establishes_invariant :
  forall now st resp st' r,
    NoDup (map codename (ai_models st)) ->
    checkAndUpdateCredits now st = (resp, st') ->
    In r (ai_models st') ->
    credit_status r = true ->
    ~ (0 < daily_limit r /\ daily_limit r <= current_daily_usage r)
    /\ ~ (0 < monthly_limit r /\ monthly_limit r <= current_monthly_usage r).
Proof.
  intros now st resp st' r Hnd Hrun Hin Hs.
  rewrite (checkAndUpdateCredits_closed now st Hnd) in Hrun.
  injection Hrun as <- <-. cbn [ai_models] in Hin.
  apply in_map_iff in Hin as (m & <- & _).
  destruct (checkedRow_status now m) as (Es & Ed & Em & Eld & Elm).
  rewrite Es in Hs. rewrite Ed, Em, Eld, Elm.
  unfold newStatus in Hs.
  destruct (limitExceeded now m) eqn:Hl; [discriminate|].
  unfold limitExceeded in Hl. apply orb_false_elim in Hl as (Hd & Hm).
  unfold dailyExceeded in Hd. unfold monthlyExceeded in Hm.
  apply andb_false_iff in Hd. apply andb_false_iff in Hm.
  rewrite Z.ltb_ge, Z.leb_gt in Hd, Hm. lia.
Qed.

Lemma check_credits_establishes_invariant_witness :
  let run := checkAndUpdateCredits Fixtures.mar15
               (mkStore Scenarios.mixedTable []) in
  let r := mkAiModel "Orion" "LLaMA-3.1 70B" true 0 150 100 0
             Fixtures.mar15 Fixtures.mar13 Fixtures.mar15 in
  In r (ai_models (snd run))
  /\ ~ (0 < daily_limit r /\ daily_limit r <= current_daily_usage r).
Proof.
  intros run r.
  assert (Hin : In r (ai_models (snd run))) by (vm_compute; left; reflexivity).
  split; [exact Hin|].
  refine (proj1 (check_credits_establishes_invariant Fixtures.mar15
                   (mkStore Scenarios.mixedTable []) (fst run) (snd run)
                   r _ (surjective_pairing run) Hin eq_refl)).
  cbn. repeat constructor; cbn; intuition discriminate.
Defined.

(** X3.  Running [check_credits] a second time at the same instant changes
    nothing in the store and reports no newly exhausted provider. *)
Theorem check_credits_idempotent :
  forall now st resp1 st1 resp2 st2,
    NoDup (map codename (ai_models st)) ->
    checkAndUpdateCredits now st = (resp1, st1) ->
    checkAndUpdateCredits now st1 = (resp2, st2) ->
    st2 = st1 /\ exhaustedModels (body resp2) = [].
Proof.
  intros now st resp1 st1 resp2 st2 Hnd Hrun1 Hrun2.
  rewrite (checkAndUpdateCredits_closed now st Hnd) in Hrun1.
  injection Hrun1 as <- <-.
  rewrite checkAndUpdateCredits_closed in Hrun2
    by (cbn [ai_models]; now rewrite checked_codenames).
  injection Hrun2 as <- <-. cbn [ai_models ai_usage_tracking body ok exhaustedModels].
  split.
  - f_equal. rewrite map_map. apply map_ext. intros r.
    apply checkedRow_idempotent.
  - rewrite filter_none; [reflexivity|].
    intros r Hin. apply in_map_iff in Hin as (m & <- & _).
    apply checkedRow_not_newly_exhausted.
Qed.

Lemma check_credits_idempotent_witness :
  let first := checkAndUpdateCredits Fixtures.mar15
                 (mkStore Scenarios.mixedTable []) in
  let second := checkAndUpdateCredits Fixtures.mar15 (snd first) in
  snd second = snd first /\ exhaustedModels (body (fst second)) = [].
Proof.
  intros first second.
  apply (check_credits_idempotent Fixtures.mar15
           (mkStore Scenarios.mixedTable []) (fst first) (snd first)
           (fst second) (snd second)).
  - cbn. repeat constructor; cbn; intuition discriminate.
  - apply surjective_pairing.
  - apply surjective_pairing.
Defined.

(** When the gate leaves a row enabled. *)
Lemma checkedRow_enabled_iff (now : Z) (model : AiModel) :
  credit_status (checkedRow now model) = true <->
  dailyExceeded now model = false /\ monthlyExceeded now model = false
  /\ (credit_status model = true \/ 1 <= daysSinceReset now model
      \/ 1 <= monthsSinceReset now model).
Proof.
  rewrite (proj1 (checkedRow_status now model)).
  unfold newStatus, limitExceeded, resetDue, dailyResetDue, monthlyResetDue.
  destruct (dailyExceeded now model), (monthlyExceeded now model);
    cbn [orb]; try (split; [discriminate|intros (H1 & H2 & _); discriminate]).
  destruct (credit_status model); cbn [negb andb].
  - split; [now auto|reflexivity].
  - destruct (1 <=? daysSinceReset now model) eqn:Hd;
      destruct (1 <=? monthsSinceReset now model) eqn:Hm; cbn [orb];
      rewrite ?Z.leb_le, ?Z.leb_gt in *.
    + split; [now auto|reflexivity].
    + split; [now auto|reflexivity].
    + split; [now auto|reflexivity].
    + split; [discriminate|].
      intros (_ & _ & [H|[H|H]]); [discriminate|lia|lia].
Qed.

(** X4.  A provider ends a [check_credits] run enabled exactly when neither
    limit is exceeded by the counters as they stand after the reset steps,
    and it was enabled before or one of its windows has just been reset: a
    disabled provider is never re-enabled inside its windows. *)
Theorem check_credits_final_status :
  forall now st model resp st' model',
    NoDup (map codename (ai_models st)) ->
    In model (ai_models st) ->
    checkAndUpdateCredits now st = (resp, st') ->
    In model' (ai_models st') ->
    codename model' = codename model ->
    (credit_status model' = true <->
     dailyExceeded now model = false /\ monthlyExceeded now model = false
     /\ (credit_status model = true \/ 1 <= daysSinceReset now model
         \/ 1 <= monthsSinceReset now model)).
Proof.
  intros now st model resp st' model' Hnd Hin Hrun Hin' E.
  rewrite (checkAndUpdateCredits_closed now st Hnd) in Hrun.
  injection Hrun as <- <-. cbn [ai_models] in Hin'.
  rewrite (checked_row_of now st model model' Hnd Hin Hin' E).
  apply checkedRow_enabled_iff.
Qed.

Lemma check_credits_final_status_witness :
  let run := checkAndUpdateCredits Fixtures.mar15
               (mkStore Scenarios.mixedTable []) in
  In Fixtures.struckOut (ai_models (snd run))
  /\ (credit_status Fixtures.struckOut = true <->
      dailyExceeded Fixtures.mar15 Fixtures.struckOut = false
      /\ monthlyExceeded Fixtures.mar15 Fixtures.struckOut = false
      /\ (credit_status Fixtures.struckOut = true
          \/ 1 <= daysSinceReset Fixtures.mar15 Fixtures.struckOut
          \/ 1 <= monthsSinceReset Fixtures.mar15 Fixtures.struckOut)).
Proof.
  intros run.
  assert (Hin : In Fixtures.struckOut (ai_models (snd run))).
  { vm_compute. right. right. left. reflexivity. }
  split; [exact Hin|].
  apply (check_credits_final_status Fixtures.mar15
           (mkStore Scenarios.mixedTable []) Fixtures.struckOut
           (fst run) (snd run) Fixtures.struckOut).
  - cbn. repeat constructor; cbn; intuition discriminate.
  - right. right. left. reflexivity.
  - apply surjective_pairing.
  - exact Hin.
  - reflexivity.
Defined.

Lemma writeRows_frame (updates : list Update) :
  forall r,
    codename (fold_left writeRow updates r) = codename r
    /\ original_name (fold_left writeRow updates r) = original_name r
    /\ daily_limit (fold_left writeRow updates r) = daily_limit r
    /\ monthly_limit (fold_left writeRow updates r) = monthly_limit r.
Proof.
  induction updates as [|u us IH]; intros r; cbn [fold_left]; [now repeat split|].
  destruct (IH (writeRow r u)) as (-> & -> & -> & ->).
  unfold writeRow. now destruct (codename r =? up_codename u)%string.
Qed.

(** The answer of a run, for any table. *)
Lemma check_credits_response (now : Z) (st : Store) :
  fst (checkAndUpdateCredits now st)
  = ok (mkCheckBody true
          (map (exhaustedOf now) (filter (newlyExhausted now) (ai_models st)))
          (Z.of_nat (List.length (filter (needsUpdate now) (ai_models st))))
          now).
Proof.
  unfold checkAndUpdateCredits. rewrite scanModels_closed. cbn [app fst].
  now rewrite length_map.
Qed.

Lemma check_credits_keeps_frame (now : Z) (st : Store) :
  ai_usage_tracking (snd (checkAndUpdateCredits now st)) = ai_usage_tracking st
  /\ map codename (ai_models (snd (checkAndUpdateCredits now st)))
     = map codename (ai_models st)
  /\ map daily_limit (ai_models (snd (checkAndUpdateCredits now st)))
     = map daily_limit (ai_models st)
  /\ map monthly_limit (ai_models (snd (checkAndUpdateCredits now st)))
     = map monthly_limit (ai_models st).
Proof.
  unfold checkAndUpdateCredits. rewrite scanModels_closed.
  cbn [app snd]. rewrite applyUpdates_usage, applyUpdates_models.
  split; [reflexivity|]. rewrite !map_map.
  repeat split; apply map_ext; intros r;
    apply (writeRows_frame
             (map (updateOf now) (filter (needsUpdate now) (ai_models st))) r).
Qed.

(** X5.  [check_credits] never adds, drops or reorders providers, never
    touches a provider's codename, name or limits, and never touches the
    usage log; it always answers 200 with [success] set, whatever the
    table. *)
Theorem check_credits_frame :
  forall now st,
    let run := checkAndUpdateCredits now st in
    status (fst run) = 200 /\ success (body (fst run)) = true
    /\ timestamp (body (fst run)) = now
    /\ ai_usage_tracking (snd run) = ai_usage_tracking st
    /\ map codename (ai_models (snd run)) = map codename (ai_models st)
    /\ map original_name (ai_models (snd run)) = map original_name (ai_models st)
    /\ map daily_limit (ai_models (snd run)) = map daily_limit (ai_models st)
    /\ map monthly_limit (ai_models (snd run)) = map monthly_limit (ai_models st).
Proof.
  intros now st run.
  assert (Hresp : fst run = fst (checkAndUpdateCredits now st)) by reflexivity.
  rewrite check_credits_response in Hresp. rewrite Hresp.
  split; [reflexivity|]. split; [reflexivity|]. split; [reflexivity|].
  subst run. unfold checkAndUpdateCredits. rewrite scanModels_closed.
  cbn [app snd]. rewrite applyUpdates_usage, applyUpdates_models.
  split; [reflexivity|]. rewrite !map_map.
  repeat split; apply map_ext; intros r;
    apply (writeRows_frame
             (map (updateOf now) (filter (needsUpdate now) (ai_models st))) r).
Qed.

(** X6.  Every provider [check_credits] reports as exhausted was enabled
    before the run and has a positive limit that its post-reset usage has
    reached; the reported figures are the daily ones whenever the daily
    limit is exceeded, and the monthly ones only when it is not. *)
Theorem check_credits_reports_newly_exhausted :
  forall now st e,
    In e (exhaustedModels (body (fst (checkAndUpdateCredits now st)))) ->
    exists model,
      In model (ai_models st) /\ ex_codename e = codename model
      /\ credit_status model = true
      /\ 0 < ex_limit e <= ex_usage e
      /\ ((ex_reason e = "Daily limit exceeded"
           /\ ex_limit e = daily_limit model
           /\ ex_usage e = newDailyUsage now model)
          \/ (ex_reason e = "Monthly limit exceeded"
              /\ ex_limit e = monthly_limit model
              /\ ex_usage e = newMonthlyUsage now model
              /\ dailyExceeded now model = false)).
Proof.
  intros now st e He. rewrite check_credits_response in He.
  cbn [body ok exhaustedModels] in He.
  apply in_map_iff in He as (m & <- & Hm). apply filter_In in Hm as (Hm & Hnew).
  unfold newlyExhausted in Hnew. apply andb_prop in Hnew as (Hl & Hs).
  exists m. split; [exact Hm|]. split; [reflexivity|]. split; [exact Hs|].
  unfold exhaustedOf. cbn [ex_limit ex_usage ex_reason].
  unfold limitExceeded in Hl.
  destruct (dailyExceeded now m) eqn:Hd.
  - unfold dailyExceeded in Hd. apply andb_prop in Hd as (H1 & H2).
    apply Z.ltb_lt in H1. apply Z.leb_le in H2.
    split; [lia|]. left. now repeat split.
  - cbn [orb] in Hl. unfold monthlyExceeded in Hl.
    apply andb_prop in Hl as (H1 & H2).
    apply Z.ltb_lt in H1. apply Z.leb_le in H2.
    split; [lia|]. right. now repeat split.
Qed.

Lemma check_credits_reports_newly_exhausted_witness :
  exists model,
    In model Scenarios.mixedTable /\ codename model = "Titan"
    /\ credit_status model = true.
Proof.
  destruct (check_credits_reports_newly_exhausted Fixtures.mar15
              (mkStore Scenarios.mixedTable [])
              (mkExhausted "Titan" "Daily limit exceeded" 100 100))
    as (model & Hin & E & Hs & _).
  - vm_compute. left. reflexivity.
  - exists model. cbn [ex_codename] in E. repeat split; auto.
Defined.

(** X9.  A provider that [check_credits] reports as exhausted is listed by
    a following [get_exhausted_models] with the same reason: the two
    computations of the reason agree on the store the run leaves. *)
Theorem exhausted_reason_agrees_with_query :
  forall now st resp st' e,
    NoDup (map codename (ai_models st)) ->
    checkAndUpdateCredits now st = (resp, st') ->
    In e (exhaustedModels (body resp)) ->
    exists info,
      In info (body (getExhaustedModels st'))
      /\ ei_codename info = ex_codename e
      /\ ei_reason info = ex_reason e.
Proof.
  intros now st resp st' e Hnd Hrun He.
  rewrite (checkAndUpdateCredits_closed now st Hnd) in Hrun.
  injection Hrun as <- <-. cbn [body ok exhaustedModels] in He.
  apply in_map_iff in He as (m & <- & Hm). apply filter_In in Hm as (Hm & Hnew).
  unfold newlyExhausted in Hnew. apply andb_prop in Hnew as (Hl & Hs).
  exists (exhaustedInfo (checkedRow now m)). split; [|split].
  - unfold getExhaustedModels. cbn [body ok ai_models].
    apply in_map. apply filter_In. split; [now apply in_map|].
    rewrite (proj1 (checkedRow_status now m)). unfold newStatus.
    now rewrite Hl.
  - cbn [exhaustedInfo ei_codename exhaustedOf ex_codename].
    apply checkedRow_codename.
  - destruct (checkedRow_status now m) as (_ & Ed & _ & Eld & _).
    cbn [exhaustedInfo ei_reason exhaustedOf ex_reason].
    rewrite Ed, Eld. reflexivity.
Qed.

Lemma exhausted_reason_agrees_with_query_witness :
  exists info,
    In info (body (getExhaustedModels
                     (snd (checkAndUpdateCredits Fixtures.mar15
                             (mkStore Scenarios.mixedTable [])))))
    /\ ei_codename info = "Titan"
    /\ ei_reason info = "Daily limit exceeded".
Proof.
  apply (exhausted_reason_agrees_with_query Fixtures.mar15
           (mkStore Scenarios.mixedTable [])
           (fst (checkAndUpdateCredits Fixtures.mar15
                   (mkStore Scenarios.mixedTable [])))
           (snd (checkAndUpdateCredits Fixtures.mar15
                   (mkStore Scenarios.mixedTable [])))
           (mkExhausted "Titan" "Daily limit exceeded" 100 100)).
  - cbn. repeat constructor; cbn; intuition discriminate.
  - apply surjective_pairing.
  - vm_compute. left. reflexivity.
Defined.

(** *** reset_credits *)

Lemma reset_rows (now : Z) (st : Store) :
  (forall r, In r (ai_models st) -> codename r <> "") ->
  ai_models (snd (resetCredits now st)) = map (resetRow now) (ai_models st).
Proof.
  intros Hnames. unfold resetCredits, with_models. cbn [snd ai_models].
  apply map_ext_in. intros r Hin.
  destruct (codename r =? "")%string eqn:E; [|reflexivity].
  apply String.eqb_eq in E. now destruct (Hnames r Hin).
Qed.

(** X7.  After [reset_credits] every provider (with a non-empty codename)
    is enabled with both counters at zero and both windows starting at the
    reset instant, so [get_exhausted_models] answers with the empty list;
    codenames, names, limits and the usage log are as before. *)
Theorem reset_credits_clears_everything :
  forall now st,
    (forall r, In r (ai_models st) -> codename r <> "") ->
    let st' := snd (resetCredits now st) in
    (forall r, In r (ai_models st') ->
               credit_status r = true
               /\ current_daily_usage r = 0 /\ current_monthly_usage r = 0
               /\ last_reset_daily r = now /\ last_reset_monthly r = now)
    /\ body (getExhaustedModels st') = []
    /\ map codename (ai_models st') = map codename (ai_models st)
    /\ map daily_limit (ai_models st') = map daily_limit (ai_models st)
    /\ map monthly_limit (ai_models st') = map monthly_limit (ai_models st)
    /\ ai_usage_tracking st' = ai_usage_tracking st.
Proof.
  intros now st Hnames st'. subst st'.
  assert (Hall : forall r, In r (ai_models (snd (resetCredits now st))) ->
                           credit_status r = true
                           /\ current_daily_usage r = 0
                           /\ current_monthly_usage r = 0
                           /\ last_reset_daily r = now
                           /\ last_reset_monthly r = now).
  { intros r Hin. rewrite (reset_rows now st Hnames) in Hin.
    apply in_map_iff in Hin as (r0 & <- & _). now repeat split. }
  split; [exact Hall|]. split.
  - unfold getExhaustedModels. cbn [body ok]. rewrite filter_none; [reflexivity|].
    intros r Hin. now rewrite (proj1 (Hall r Hin)).
  - rewrite (reset_rows now st Hnames), !map_map. now repeat split.
Qed.

Lemma reset_credits_clears_everything_witness :
  body (getExhaustedModels
          (snd (resetCredits Fixtures.mar15 (mkStore Scenarios.mixedTable []))))
  = [].
Proof.
  refine (proj1 (proj2 (reset_credits_clears_everything Fixtures.mar15
                          (mkStore Scenarios.mixedTable []) _))).
  intros r Hin. cbn in Hin.
  destruct Hin as [<-|[<-|[<-|[]]]]; discriminate.
Defined.

(** X8.  A [check_credits] run that follows [reset_credits] within the same
    day-length window and calendar month finds nothing to do: it reports no
    exhausted provider, counts no update and leaves the store as the reset
    left it. *)
Theorem check_after_reset_is_quiet :
  forall now now' st,
    (forall r, In r (ai_models st) -> codename r <> "") ->
    now' - now < Date.msPerDay ->
    (Date.getFullYear now' - Date.getFullYear now) * 12
    + (Date.getMonth now' - Date.getMonth now) < 1 ->
    checkAndUpdateCredits now' (snd (resetCredits now st))
    = (ok (mkCheckBody true [] 0 now'), snd (resetCredits now st)).
Proof.
  intros now now' st Hnames Hday Hmonth.
  assert (Hquiet : forall r,
             In r (ai_models (snd (resetCredits now st))) ->
             needsUpdate now' r = false /\ newlyExhausted now' r = false).
  { intros r Hin. rewrite (reset_rows now st Hnames) in Hin.
    apply in_map_iff in Hin as (r0 & <- & _).
    assert (Hd : dailyResetDue now' (resetRow now r0) = false).
    { unfold dailyResetDue, daysSinceReset. cbn [resetRow last_reset_daily].
      apply Z.leb_gt. apply Z.div_lt_upper_bound; [reflexivity|lia]. }
    assert (Hm : monthlyResetDue now' (resetRow now r0) = false).
    { unfold monthlyResetDue, monthsSinceReset.
      cbn [resetRow last_reset_monthly]. apply Z.leb_gt. exact Hmonth. }
    assert (Hl : limitExceeded now' (resetRow now r0) = false).
    { unfold limitExceeded, dailyExceeded, monthlyExceeded, newDailyUsage,
        newMonthlyUsage. rewrite Hd, Hm.
      cbn [resetRow current_daily_usage current_monthly_usage daily_limit
           monthly_limit].
      destruct (0 <? daily_limit r0) eqn:E1, (0 <? monthly_limit r0) eqn:E2;
        cbn [andb orb]; rewrite ?Z.ltb_lt in *;
        repeat match goal with
               | |- context [?a <=? 0] =>
                   replace (a <=? 0) with false
                     by (symmetry; apply Z.leb_gt; lia)
               end; reflexivity. }
    unfold needsUpdate, newlyExhausted, resetDue. now rewrite Hd, Hm, Hl. }
  unfold checkAndUpdateCredits. rewrite scanModels_closed.
  rewrite !filter_none by (intros r Hin; now apply Hquiet).
  reflexivity.
Qed.

Lemma check_after_reset_is_quiet_witness :
  checkAndUpdateCredits (Fixtures.mar15 + 3600000)
    (snd (resetCredits Fixtures.mar15 (mkStore Scenarios.mixedTable [])))
  = (ok (mkCheckBody true [] 0 (Fixtures.mar15 + 3600000)),
     snd (resetCredits Fixtures.mar15 (mkStore Scenarios.mixedTable []))).
Proof.
  apply check_after_reset_is_quiet.
  - intros r Hin. cbn in Hin.
    destruct Hin as [<-|[<-|[<-|[]]]]; discriminate.
  - vm_compute. reflexivity.
  - vm_compute. reflexivity.
Defined.

(** *** The breaker and the monitor together *)

(** X10.  A provider the orchestrator has struck stays disabled through
    [check_credits] runs for as long as neither of its windows is due for a
    reset; the first run after a window has elapsed enables it again,
    provided no limit is exceeded then. *)
Theorem struck_provider_waits_for_reset :
  forall struckAt now w model resp st' model',
    NoDup (map codename (ai_models (Orchestrator.store w))) ->
    In model (ai_models (Orchestrator.store w)) ->
    checkAndUpdateCredits now
      (Orchestrator.store
         (snd (Orchestrator.markModelUnavailable struckAt (codename model) w)))
    = (resp, st') ->
    In model' (ai_models st') ->
    codename model' = codename model ->
    (credit_status model' = true <->
     (1 <= daysSinceReset now model \/ 1 <= monthsSinceReset now model)
     /\ dailyExceeded now model = false /\ monthlyExceeded now model = false).
Proof.
  intros struckAt now w model resp st' model' Hnd Hin Hrun Hin' E.
  set (st := Orchestrator.store w) in *.
  change (Orchestrator.store
            (snd (Orchestrator.markModelUnavailable struckAt (codename model) w)))
    with (Orchestrator.strike struckAt st (codename model)) in Hrun.
  set (struck := Orchestrator.strike struckAt st (codename model)) in *.
  assert (Hnames : map codename (ai_models struck) = map codename (ai_models st)).
  { subst struck. unfold Orchestrator.strike, with_models, update_where_codename.
    cbn [ai_models]. rewrite map_map. apply map_ext. intros r.
    now destruct (codename r =? codename model)%string. }
  assert (Hnd' : NoDup (map codename (ai_models struck))) by now rewrite Hnames.
  assert (Hrow : In (Orchestrator.setUnavailable struckAt model)
                    (ai_models struck)).
  { subst struck. unfold Orchestrator.strike, with_models, update_where_codename.
    cbn [ai_models]. apply in_map_iff. exists model.
    now rewrite String.eqb_refl. }
  rewrite (checkAndUpdateCredits_closed now struck Hnd') in Hrun.
  injection Hrun as <- <-. cbn [ai_models] in Hin'.
  rewrite (checked_row_of now struck _ model' Hnd' Hrow Hin' E).
  rewrite checkedRow_enabled_iff.
  change (dailyExceeded now (Orchestrator.setUnavailable struckAt model))
    with (dailyExceeded now model).
  change (monthlyExceeded now (Orchestrator.setUnavailable struckAt model))
    with (monthlyExceeded now model).
  change (daysSinceReset now (Orchestrator.setUnavailable struckAt model))
    with (daysSinceReset now model).
  change (monthsSinceReset now (Orchestrator.setUnavailable struckAt model))
    with (monthsSinceReset now model).
  cbn [Orchestrator.setUnavailable credit_status].
  split.
  - intros (Hd & Hm & [H|[H|H]]); [discriminate| |]; auto.
  - intros ([H|H] & Hd & Hm); auto.
Qed.

Lemma struck_provider_waits_for_reset_witness :
  let later := Fixtures.mar15 + Date.msPerDay in
  let st := Orchestrator.store
              (snd (Orchestrator.markModelUnavailable Fixtures.mar15 "Orion"
                      (Fixtures.worldOf Fixtures.tablePriority))) in
  let row := mkAiModel "Orion" "Orion" true 0 0 100 1000
               later Fixtures.mar15 later in
  In row (ai_models (snd (checkAndUpdateCredits later st)))
  /\ credit_status row = true.
Proof.
  intros later st row.
  assert (Hin : In row (ai_models (snd (checkAndUpdateCredits later st)))).
  { vm_compute. left. reflexivity. }
  split; [exact Hin|].
  apply (struck_provider_waits_for_reset Fixtures.mar15 later
           (Fixtures.worldOf Fixtures.tablePriority)
           (Fixtures.provider "Orion" true)
           (fst (checkAndUpdateCredits later st))
           (snd (checkAndUpdateCredits later st)) row).
  - cbn. repeat constructor; cbn; intuition discriminate.
  - left. reflexivity.
  - apply surjective_pairing.
  - exact Hin.
  - reflexivity.
  - split; [|split; reflexivity]. left. vm_compute. discriminate.
Defined.

End CreditMonitorMore.

(* ================================================================== *)
(** ** Further facts about the orchestrator                            *)
(* ================================================================== *)

Module OrchestratorMore.

Import JS Orchestrator OrchestratorViews OrchestratorFacts.

(** The loop never names its result "Fallback". *)
Lemma loopResult_name (env : Env) (context : InterviewContext)
    (models : list AiModel) :
  (snd (loopResult env context models) =? "Fallback")%string = false.
Proof.
  induction models as [|model rest IH]; [reflexivity|].
  cbn [loopResult].
  destruct (adapterFor env context model) as [[name [q|msg]]|] eqn:Ha;
    [|exact IH|exact IH].
  cbn [snd]. unfold adapterFor in Ha.
  repeat match type of Ha with
         | (if ?c then _ else _) = _ => destruct c
         end; inversion Ha; reflexivity.
Qed.

(** [generate_question] with at least one eligible provider, in full. *)
Lemma generate_question_closed (env : Env) (now : Z)
    (context : InterviewContext) (w : World) :
  eligible (store w) <> [] ->
  let models := eligible (store w) in
  let found := loopResult env context models in
  let struck := fold_left (strike now) (strikes env context models) (store w) in
  let st' := if truthy (fst found)
             then tracked env (snd found) (sessionId context)
                    (length (fst found)) struck
             else struck in
  generateInterviewQuestion env now context w =
  (ok (QuestionResult
         (if truthy (fst found) then Some (fst found)
          else getFallbackQuestion context)
         (if truthy (fst found) then snd found else "Fallback")
         (if evaluatorRuns context st'
          then match evaluateWithAthena env
                       (or_else (userResponse context) "") context with
               | Returns e => Some e
               | Throws _ => None
               end
          else None)
         (fst (getModelStatus (mkWorld st' [])))),
   mkWorld st'
     ((adapterCalls w ++ attempts env context models)
      ++ (if evaluatorRuns context st' then ["Athena"] else []))).
Proof.
  intros He models found struck st'.
  assert (Hlen : (Z.of_nat (List.length models) =? 0) = false).
  { apply Z.eqb_neq. subst models.
    destruct (eligible (store w)); [contradiction|cbn [List.length]; lia]. }
  unfold generateInterviewQuestion. unfold bind at 1.
  rewrite getAvailableModels_eligible. fold models. rewrite Hlen.
  unfold bind at 1. rewrite tryModels_closed.
  fold found struck. cbn [fst snd].
  subst st'. unfold evaluatorRuns.
  destruct (truthy (fst found)) eqn:Ht; cbn [negb].
  - pose proof (loopResult_name env context models) as Hname.
    fold found in Hname. rewrite Hname. cbn [negb].
    unfold isModelAvailable, getModelStatus, tracked. run_M.
    match goal with
    | |- context [if ?c then _ else _] => destruct c
    end; run_M.
    + now destruct (evaluateWithAthena env (or_else (userResponse context) "")
                      context).
    + now rewrite app_nil_r.
  - cbn [String.eqb Ascii.eqb Bool.eqb negb].
    unfold isModelAvailable, getModelStatus. run_M.
    match goal with
    | |- context [if ?c then _ else _] => destruct c
    end; run_M.
    + now destruct (evaluateWithAthena env (or_else (userResponse context) "")
                      context).
    + now rewrite app_nil_r.
Qed.

(** *** What no request does to the table *)

Lemma keepsFrame_refl (r : AiModel) : keepsFrame r r.
Proof. now repeat split. Qed.

Lemma keepsFrame_trans (a b c : AiModel) :
  keepsFrame a b -> keepsFrame b c -> keepsFrame a c.
Proof.
  intros (A1 & A2 & A3 & A4 & A5 & A6 & A7) (B1 & B2 & B3 & B4 & B5 & B6 & B7).
  repeat split; try congruence. auto.
Qed.

Lemma neverEnables_refl (st : Store) : neverEnables st st.
Proof.
  unfold neverEnables. induction (ai_models st); constructor;
    [apply keepsFrame_refl|assumption].
Qed.

Lemma frames_trans (l1 l2 : list AiModel) :
  Forall2 keepsFrame l1 l2 ->
  forall l3, Forall2 keepsFrame l2 l3 -> Forall2 keepsFrame l1 l3.
Proof.
  induction 1 as [|x y l l' Hxy _ IH]; intros l3 H23.
  - inversion H23. constructor.
  - inversion H23 as [|? z ? l'' Hyz Hrest]; subst. constructor.
    + exact (keepsFrame_trans _ _ _ Hxy Hyz).
    + now apply IH.
Qed.

Lemma neverEnables_trans (a b c : Store) :
  neverEnables a b -> neverEnables b c -> neverEnables a c.
Proof. unfold neverEnables. intros Hab Hbc. exact (frames_trans _ _ Hab _ Hbc). Qed.

Lemma neverEnables_ext (a b b' : Store) :
  ai_models b' = ai_models b -> neverEnables a b -> neverEnables a b'.
Proof. unfold neverEnables. now intros ->. Qed.

Lemma neverEnables_map (f : AiModel -> AiModel) (st : Store) :
  (forall r, keepsFrame r (f r)) ->
  neverEnables st (with_models (map f) st).
Proof.
  intros Hf. unfold neverEnables, with_models. cbn [ai_models].
  induction (ai_models st); cbn [map]; constructor; auto.
Qed.

Lemma strike_neverEnables (now : Z) (st : Store) (cn : string) :
  neverEnables st (strike now st cn).
Proof.
  apply neverEnables_map. intros r.
  destruct (codename r =? cn)%string; [|apply keepsFrame_refl].
  repeat split. cbn. discriminate.
Qed.

Lemma strikes_neverEnable (now : Z) (struck : list string) :
  forall st, neverEnables st (fold_left (strike now) struck st).
Proof.
  induction struck as [|cn rest IH]; intros st; cbn [fold_left].
  - apply neverEnables_refl.
  - eapply neverEnables_trans; [apply strike_neverEnables|apply IH].
Qed.

Lemma tracked_neverEnables (env : Env) (name session : string) (tokens : Z)
    (st : Store) :
  neverEnables st (tracked env name session tokens st).
Proof.
  unfold tracked, update_model_usage.
  apply (neverEnables_ext st
           (with_models
              (map (fun r => if (codename r =? name)%string
                             then add_usage (usage_amounts env) 1 tokens r
                             else r)) st)); [reflexivity|].
  apply neverEnables_map. intros r.
  destruct (codename r =? name)%string; [|apply keepsFrame_refl].
  now repeat split.
Qed.

(** Strikes leave the usage log and the counters alone. *)
Lemma strikes_keep_usage (now : Z) (struck : list string) :
  forall st,
    ai_usage_tracking (fold_left (strike now) struck st) = ai_usage_tracking st
    /\ map current_daily_usage (ai_models (fold_left (strike now) struck st))
       = map current_daily_usage (ai_models st)
    /\ map current_monthly_usage (ai_models (fold_left (strike now) struck st))
       = map current_monthly_usage (ai_models st).
Proof.
  induction struck as [|cn rest IH]; intros st; cbn [fold_left];
    [now repeat split|].
  destruct (IH (strike now st cn)) as (-> & -> & ->).
  unfold strike, with_models, update_where_codename. cbn [ai_models ai_usage_tracking].
  rewrite !map_map.
  repeat split; apply map_ext; intros r;
    now destruct (codename r =? cn)%string.
Qed.

(** *** The other handlers in closed form *)

Lemma getAvailableModels_speech (w : World) :
  getAvailableModels ["Vox"; "Aether"] w = (eligibleSpeech (store w), w).
Proof. reflexivity. Qed.

Lemma trySpeech_closed (env : Env) (now : Z) (context : InterviewContext)
    (models : list AiModel) :
  forall w,
    trySpeech env now context models w =
    let struck :=
      fold_left (strike now) (speechStrikes env context models) (store w) in
    let calls := adapterCalls w ++ speechAttempts env context models in
    match speechFound env context models with
    | Some (audioUrl, name) =>
        (ok (SpeechResult audioUrl name),
         mkWorld (tracked env name (sessionId context)
                    (length (speechText context)) struck) calls)
    | None =>
        (ok (SpeechFailed "All TTS models failed" true), mkWorld struck calls)
    end.
Proof.
  induction models as [|model rest IH]; intros w.
  - cbn. rewrite app_nil_r. now destruct w.
  - cbn [trySpeech speechAttempts speechStrikes speechFound].
    unfold speechAdapterFor, speechText.
    destruct ((codename model =? "Vox")%string
              && truthy_opt (ELEVENLABS_API_KEY env)).
    { run_M.
      destruct (callElevenLabsAPI env (or_else (userResponse context) ""));
        [reflexivity|].
      rewrite IH. cbn [store adapterCalls fold_left].
      rewrite <- app_assoc. reflexivity. }
    destruct ((codename model =? "Aether")%string
              && truthy_opt (AZURE_SPEECH_KEY env)).
    { run_M.
      destruct (callAzureTTS env (or_else (userResponse context) ""));
        [reflexivity|].
      rewrite IH. cbn [store adapterCalls fold_left].
      rewrite <- app_assoc. reflexivity. }
    apply IH.
Qed.

Lemma generateSpeech_refused (env : Env) (now : Z)
    (context : InterviewContext) (w : World) :
  eligibleSpeech (store w) = [] ->
  generateSpeech env now context w =
  (mkResponse 503 (Unavailable "No TTS models available" ["Vox"; "Aether"]), w).
Proof.
  intros He. unfold generateSpeech, bind.
  rewrite getAvailableModels_speech, He. reflexivity.
Qed.

Lemma generateSpeech_served (env : Env) (now : Z)
    (context : InterviewContext) (w : World) :
  eligibleSpeech (store w) <> [] ->
  generateSpeech env now context w =
  trySpeech env now context (eligibleSpeech (store w)) w.
Proof.
  intros He. unfold generateSpeech, bind. rewrite getAvailableModels_speech.
  destruct (eligibleSpeech (store w)); [contradiction|].
  replace (Z.of_nat (List.length (a :: l)) =? 0) with false; [reflexivity|].
  symmetry. apply Z.eqb_neq. cbn [List.length]. lia.
Qed.

(** [evaluate_response], case by case. *)
Lemma evaluateResponse_closed (env : Env) (now : Z)
    (context : InterviewContext) (w : World) :
  evaluateResponse env now context w =
  if negb (fst (isModelAvailable "Athena" w))
     || negb (truthy_opt (ANTHROPIC_API_KEY env))
  then (getFallbackEvaluation context, w)
  else
    match evaluateWithAthena env (or_else (userResponse context) "") context with
    | Returns evaluation =>
        (ok (EvaluationResult evaluation "Athena"),
         mkWorld (tracked env "Athena" (sessionId context)
                    (length (or_else (userResponse context) "")) (store w))
                 (adapterCalls w ++ ["Athena"]))
    | Throws _ =>
        (getFallbackEvaluation context,
         mkWorld (strike now (store w) "Athena") (adapterCalls w ++ ["Athena"]))
    end.
Proof.
  unfold evaluateResponse, isModelAvailable. run_M.
  match goal with
  | |- context [negb ?a || _] => destruct a
  end; cbn [negb orb]; [|reflexivity].
  destruct (truthy_opt (ANTHROPIC_API_KEY env)); cbn [negb]; [|reflexivity].
  now destruct (evaluateWithAthena env (or_else (userResponse context) "")
                  context).
Qed.

(** [process_audio], case by case. *)
Lemma processAudioInput_closed (env : Env) (now : Z)
    (context : InterviewContext) (w : World) :
  processAudioInput env now context w =
  if negb (fst (isModelAvailable "Echo" w))
  then (Returns (mkResponse 503
                   (Unavailable "Speech recognition unavailable" ["Echo"])), w)
  else if truthy (ECHO_ENDPOINT env)
  then
    match callLocalSTT env (audioData context) with
    | Returns (Given transcript) =>
        (Returns (ok (TranscriptResult transcript "Echo")),
         mkWorld (tracked env "Echo" (sessionId context) (length transcript)
                    (store w))
                 (adapterCalls w ++ ["Echo"]))
    | Returns (Missing n) =>
        (Throws (typeError n "length"),
         mkWorld (strike now (store w) "Echo") (adapterCalls w ++ ["Echo"]))
    | Throws e =>
        (Throws e,
         mkWorld (strike now (store w) "Echo") (adapterCalls w ++ ["Echo"]))
    end
  else
    (Returns (ok (TranscriptResult (or_else (userResponse context) "") "Echo")),
     mkWorld (tracked env "Echo" (sessionId context)
                (length (or_else (userResponse context) "")) (store w))
             (adapterCalls w)).
Proof.
  unfold processAudioInput, isModelAvailable. run_M.
  match goal with
  | |- context [negb ?a] => destruct a
  end; cbn [negb]; [|reflexivity].
  destruct (truthy (ECHO_ENDPOINT env)); run_M.
  - now destruct (callLocalSTT env (audioData context)) as [[t|n]|e].
  - now destruct w.
Qed.

(** The table after a sequence of strikes. *)
Lemma strikes_closed (now : Z) (struck : list string) :
  forall st,
    ai_models (fold_left (strike now) struck st) =
    map (fun r => if existsb (String.eqb (codename r)) struck
                  then setUnavailable now r else r)
        (ai_models st).
Proof.
  induction struck as [|cn rest IH]; intros st; cbn [fold_left].
  - cbn [existsb]. now rewrite map_id.
  - rewrite IH. unfold strike, with_models, update_where_codename.
    cbn [ai_models]. rewrite map_map. apply map_ext. intros r.
    cbn [existsb].
    destruct (codename r =? cn)%string; cbn [orb setUnavailable codename].
    + now destruct (existsb (String.eqb (codename r)) rest).
    + reflexivity.
Qed.

(** *** X11: requests and the table *)

Lemma generate_question_neverEnables (env : Env) (now : Z)
    (context : InterviewContext) (w : World) :
  neverEnables (store w)
    (store (snd (generateInterviewQuestion env now context w))).
Proof.
  destruct (eligible (store w)) as [|m ms] eqn:E.
  - rewrite generate_question_refused by exact E. apply neverEnables_refl.
  - assert (He : eligible (store w) <> []) by (rewrite E; discriminate).
    pose proof (generate_question_closed env now context w He) as Hc.
    cbv zeta in Hc. rewrite Hc. cbn [snd store].
    destruct (truthy _).
    + eapply neverEnables_trans;
        [apply strikes_neverEnable|apply tracked_neverEnables].
    + apply strikes_neverEnable.
Qed.

Lemma generateSpeech_neverEnables (env : Env) (now : Z)
    (context : InterviewContext) (w : World) :
  neverEnables (store w) (store (snd (generateSpeech env now context w))).
Proof.
  destruct (eligibleSpeech (store w)) as [|m ms] eqn:E.
  - rewrite generateSpeech_refused by exact E. apply neverEnables_refl.
  - rewrite generateSpeech_served by (rewrite E; discriminate).
    rewrite trySpeech_closed. cbv zeta.
    destruct (speechFound env context (eligibleSpeech (store w)))
      as [[audioUrl name]|]; cbn [snd store].
    + eapply neverEnables_trans;
        [apply strikes_neverEnable|apply tracked_neverEnables].
    + apply strikes_neverEnable.
Qed.

Lemma evaluateResponse_neverEnables (env : Env) (now : Z)
    (context : InterviewContext) (w : World) :
  neverEnables (store w) (store (snd (evaluateResponse env now context w))).
Proof.
  rewrite evaluateResponse_closed.
  destruct (negb _ || negb _); [apply neverEnables_refl|].
  destruct (evaluateWithAthena env _ context); cbn [snd store].
  - apply tracked_neverEnables.
  - apply strike_neverEnables.
Qed.

Lemma processAudioInput_neverEnables (env : Env) (now : Z)
    (context : InterviewContext) (w : World) :
  neverEnables (store w) (store (snd (processAudioInput env now context w))).
Proof.
  rewrite processAudioInput_closed.
  destruct (negb _); [apply neverEnables_refl|].
  destruct (truthy (ECHO_ENDPOINT env)).
  - destruct (callLocalSTT env (audioData context)) as [[t|n]|e];
      cbn [snd store].
    + apply tracked_neverEnables.
    + apply strike_neverEnables.
    + apply strike_neverEnables.
  - apply tracked_neverEnables.
Qed.

(** *** The handlers on a body without context, in closed form *)

Lemma tryModelsWithout_step (env : Env) (now : Z) (n : nullish)
    (model : AiModel) (rest : list AiModel) (w : World) :
  OrchestratorEndpoint.tryModelsWithout env now n (model :: rest) w =
  if OrchestratorEndpoint.questionCandidate env model
  then OrchestratorEndpoint.tryModelsWithout env now n rest
         (mkWorld (strike now (store w) (codename model))
                  (adapterCalls w ++ [codename model]))
  else OrchestratorEndpoint.tryModelsWithout env now n rest w.
Proof.
  cbn [OrchestratorEndpoint.tryModelsWithout].
  unfold OrchestratorEndpoint.questionCandidate.
  destruct (codename model =? "Orion")%string eqn:E1.
  { apply String.eqb_eq in E1. rewrite E1.
    cbn [String.eqb Ascii.eqb Bool.eqb andb orb].
    destruct (truthy_opt (GROQ_API_KEY env)); reflexivity. }
  destruct (codename model =? "Titan")%string eqn:E2.
  { apply String.eqb_eq in E2. rewrite E2.
    cbn [String.eqb Ascii.eqb Bool.eqb andb orb].
    destruct (truthy_opt (MISTRAL_API_KEY env)); reflexivity. }
  destruct (codename model =? "Nova")%string eqn:E3.
  { apply String.eqb_eq in E3. rewrite E3. reflexivity. }
  reflexivity.
Qed.

Lemma tryModelsWithout_closed (env : Env) (now : Z) (n : nullish)
    (models : list AiModel) :
  forall w,
    OrchestratorEndpoint.tryModelsWithout env now n models w =
    (tt,
     mkWorld
       (fold_left (strike now)
          (map codename
             (filter (OrchestratorEndpoint.questionCandidate env) models))
          (store w))
       (adapterCalls w
        ++ map codename
             (filter (OrchestratorEndpoint.questionCandidate env) models))).
Proof.
  induction models as [|model rest IH]; intros w.
  - cbn. rewrite app_nil_r. now destruct w.
  - rewrite tryModelsWithout_step. cbn [filter].
    destruct (OrchestratorEndpoint.questionCandidate env model); [|apply IH].
    rewrite IH. cbn [store adapterCalls map fold_left].
    now rewrite <- app_assoc.
Qed.

Lemma generateInterviewQuestionWithout_closed (env : Env) (now : Z)
    (n : nullish) (w : World) :
  OrchestratorEndpoint.generateInterviewQuestionWithout env now n w =
  match eligible (store w) with
  | [] =>
      (Returns (mkResponse 503
                  (Unavailable "No AI models available"
                     ["Orion"; "Titan"; "Nova"])), w)
  | _ :: _ =>
      (Throws (typeError n "questionNumber"),
       mkWorld
         (fold_left (strike now)
            (map codename
               (filter (OrchestratorEndpoint.questionCandidate env)
                  (eligible (store w))))
            (store w))
         (adapterCalls w
          ++ map codename
               (filter (OrchestratorEndpoint.questionCandidate env)
                  (eligible (store w)))))
  end.
Proof.
  unfold OrchestratorEndpoint.generateInterviewQuestionWithout.
  unfold bind at 1. rewrite getAvailableModels_eligible.
  destruct (eligible (store w)) as [|m ms]; [reflexivity|].
  replace (Z.of_nat (List.length (m :: ms)) =? 0) with false
    by (symmetry; apply Z.eqb_neq; cbn [List.length]; lia).
  unfold bind. rewrite tryModelsWithout_closed. reflexivity.
Qed.

Lemma processAudioInputWithout_closed (env : Env) (now : Z) (n : nullish)
    (w : World) :
  OrchestratorEndpoint.processAudioInputWithout env now n w =
  if negb (fst (isModelAvailable "Echo" w))
  then (Returns (mkResponse 503
                   (Unavailable "Speech recognition unavailable" ["Echo"])), w)
  else (Throws (typeError n (if truthy (ECHO_ENDPOINT env)
                             then "audioData" else "userResponse")),
        mkWorld (strike now (store w) "Echo") (adapterCalls w)).
Proof.
  unfold OrchestratorEndpoint.processAudioInputWithout, isModelAvailable.
  run_M.
  match goal with
  | |- context [negb ?a] => destruct a
  end; reflexivity.
Qed.

Lemma trySpeechWithout_closed (env : Env) (now : Z) (models : list AiModel) :
  forall w,
    OrchestratorEndpoint.trySpeechWithout env now models w =
    (ok (SpeechFailed "All TTS models failed" true),
     mkWorld
       (fold_left (strike now)
          (map codename
             (filter (OrchestratorEndpoint.speechCandidate env) models))
          (store w))
       (adapterCalls w)).
Proof.
  induction models as [|model rest IH]; intros w.
  - cbn. now destruct w.
  - cbn [OrchestratorEndpoint.trySpeechWithout filter].
    unfold OrchestratorEndpoint.speechCandidate at 1.
    destruct ((codename model =? "Vox")%string
              && truthy_opt (ELEVENLABS_API_KEY env)); cbn [orb].
    { run_M. rewrite IH. reflexivity. }
    destruct ((codename model =? "Aether")%string
              && truthy_opt (AZURE_SPEECH_KEY env)).
    { run_M. rewrite IH. reflexivity. }
    apply IH.
Qed.

Lemma generateSpeechWithout_closed (env : Env) (now : Z) (w : World) :
  OrchestratorEndpoint.generateSpeechWithout env now w =
  match eligibleSpeech (store w) with
  | [] =>
      (mkResponse 503 (Unavailable "No TTS models available" ["Vox"; "Aether"]),
       w)
  | _ :: _ =>
      (ok (SpeechFailed "All TTS models failed" true),
       mkWorld
         (fold_left (strike now)
            (map codename
               (filter (OrchestratorEndpoint.speechCandidate env)
                  (eligibleSpeech (store w))))
            (store w))
         (adapterCalls w))
  end.
Proof.
  unfold OrchestratorEndpoint.generateSpeechWithout.
  unfold bind. rewrite getAvailableModels_speech.
  destruct (eligibleSpeech (store w)) as [|m ms]; [reflexivity|].
  replace (Z.of_nat (List.length (m :: ms)) =? 0) with false
    by (symmetry; apply Z.eqb_neq; cbn [List.length]; lia).
  apply trySpeechWithout_closed.
Qed.

Lemma evaluateResponseWithout_closed (env : Env) (now : Z) (w : World) :
  OrchestratorEndpoint.evaluateResponseWithout env now w =
  if negb (fst (isModelAvailable "Athena" w))
     || negb (truthy_opt (ANTHROPIC_API_KEY env))
  then (OrchestratorEndpoint.fallbackEvaluation, w)
  else (OrchestratorEndpoint.fallbackEvaluation,
        mkWorld (strike now (store w) "Athena") (adapterCalls w)).
Proof.
  unfold OrchestratorEndpoint.evaluateResponseWithout, isModelAvailable.
  run_M.
  match goal with
  | |- context [negb ?a || _] => destruct a
  end; cbn [negb orb]; [|reflexivity].
  now destruct (truthy_opt (ANTHROPIC_API_KEY env)).
Qed.

Lemma generateInterviewQuestionWithout_neverEnables (env : Env) (now : Z)
    (n : nullish) (w : World) :
  neverEnables (store w)
    (store (snd (OrchestratorEndpoint.generateInterviewQuestionWithout
                   env now n w))).
Proof.
  rewrite generateInterviewQuestionWithout_closed.
  destruct (eligible (store w)); [apply neverEnables_refl|].
  apply strikes_neverEnable.
Qed.

Lemma processAudioInputWithout_neverEnables (env : Env) (now : Z)
    (n : nullish) (w : World) :
  neverEnables (store w)
    (store (snd (OrchestratorEndpoint.processAudioInputWithout env now n w))).
Proof.
  rewrite processAudioInputWithout_closed.
  destruct (negb _); [apply neverEnables_refl|apply strike_neverEnables].
Qed.

Lemma generateSpeechWithout_neverEnables (env : Env) (now : Z) (w : World) :
  neverEnables (store w)
    (store (snd (OrchestratorEndpoint.generateSpeechWithout env now w))).
Proof.
  rewrite generateSpeechWithout_closed.
  destruct (eligibleSpeech (store w)); [apply neverEnables_refl|].
  apply strikes_neverEnable.
Qed.

Lemma evaluateResponseWithout_neverEnables (env : Env) (now : Z) (w : World) :
  neverEnables (store w)
    (store (snd (OrchestratorEndpoint.evaluateResponseWithout env now w))).
Proof.
  rewrite evaluateResponseWithout_closed.
  destruct (negb _ || negb _); [apply neverEnables_refl|].
  apply strike_neverEnables.
Qed.

(** X11.  No request to the orchestrator, whatever its method, body or
    action and whatever the adapters do, adds, drops or reorders a provider
    row, changes a codename, name, limit or reset window, or enables a
    provider that was disabled: only [check_credits] and [reset_credits]
    ever turn [creditStatus] back on. *)
Theorem orchestrator_never_enables :
  forall env now req w,
    neverEnables (store w)
      (store (snd (OrchestratorEndpoint.serve env now req w))).
Proof.
  intros env now req w. unfold OrchestratorEndpoint.serve.
  destruct (OrchestratorEndpoint.method req =? "OPTIONS")%string;
    [apply neverEnables_refl|].
  destruct (OrchestratorEndpoint.json req) as [[action [context|n]]|message];
    [| |apply neverEnables_refl].
  - destruct (action =? "generate_question")%string.
    { unfold bind, ret.
      pose proof (generate_question_neverEnables env now context w) as H.
      destruct (generateInterviewQuestion env now context w). exact H. }
    destruct (action =? "process_audio")%string.
    { unfold bind, ret.
      pose proof (processAudioInput_neverEnables env now context w) as H.
      destruct (processAudioInput env now context w) as [r w']. exact H. }
    destruct (action =? "generate_speech")%string.
    { unfold bind, ret.
      pose proof (generateSpeech_neverEnables env now context w) as H.
      destruct (generateSpeech env now context w). exact H. }
    destruct (action =? "evaluate_response")%string.
    { unfold bind, ret.
      pose proof (evaluateResponse_neverEnables env now context w) as H.
      destruct (evaluateResponse env now context w). exact H. }
    destruct (action =? "get_model_status")%string; apply neverEnables_refl.
  - destruct (action =? "generate_question")%string.
    { unfold bind, ret.
      pose proof (generateInterviewQuestionWithout_neverEnables env now n w)
        as H.
      destruct (OrchestratorEndpoint.generateInterviewQuestionWithout
                  env now n w). exact H. }
    destruct (action =? "process_audio")%string.
    { unfold bind, ret.
      pose proof (processAudioInputWithout_neverEnables env now n w) as H.
      destruct (OrchestratorEndpoint.processAudioInputWithout env now n w).
      exact H. }
    destruct (action =? "generate_speech")%string.
    { unfold bind, ret.
      pose proof (generateSpeechWithout_neverEnables env now w) as H.
      destruct (OrchestratorEndpoint.generateSpeechWithout env now w).
      exact H. }
    destruct (action =? "evaluate_response")%string.
    { unfold bind, ret.
      pose proof (evaluateResponseWithout_neverEnables env now w) as H.
      destruct (OrchestratorEndpoint.evaluateResponseWithout env now w).
      exact H. }
    destruct (action =? "get_model_status")%string; apply neverEnables_refl.
Qed.

(** X12.  [generate_question] accounts for usage exactly when a provider
    answered: a result tagged "Fallback" leaves the usage log and every
    usage counter as they were; a result tagged with a provider carries
    that provider's non-empty answer and adds one log entry for it, with
    one request and the length of the question as tokens; a refusal
    changes nothing at all. *)
Theorem question_usage_accounting :
  forall env now context w,
    let run := generateInterviewQuestion env now context w in
    match body (fst run) with
    | Unavailable _ _ => status (fst run) = 503 /\ snd run = w
    | QuestionResult question usedModel _ _ =>
        status (fst run) = 200
        /\ if (usedModel =? "Fallback")%string
           then ai_usage_tracking (store (snd run)) = ai_usage_tracking (store w)
                /\ map current_daily_usage (ai_models (store (snd run)))
                   = map current_daily_usage (ai_models (store w))
                /\ map current_monthly_usage (ai_models (store (snd run)))
                   = map current_monthly_usage (ai_models (store w))
           else exists q,
                  question = Some q /\ truthy q = true
                  /\ ai_usage_tracking (store (snd run))
                     = ai_usage_tracking (store w)
                       ++ [mkUsageRow usedModel (sessionId context) 1 (length q)]
    | _ => False
    end.
Proof.
  intros env now context w run. subst run.
  destruct (eligible (store w)) as [|m ms] eqn:E.
  - rewrite generate_question_refused by exact E. now split.
  - assert (He : eligible (store w) <> []) by (rewrite E; discriminate).
    pose proof (generate_question_closed env now context w He) as Hc.
    cbv zeta in Hc. rewrite Hc. clear Hc. cbn [fst snd body ok status store].
    split; [reflexivity|].
    set (models := eligible (store w)).
    destruct (strikes_keep_usage now (strikes env context models) (store w))
      as (Hlog & Hd & Hm).
    destruct (truthy (fst (loopResult env context models))) eqn:Ht.
    + rewrite (loopResult_name env context models).
      exists (fst (loopResult env context models)).
      split; [reflexivity|]. split; [exact Ht|].
      unfold tracked, update_model_usage, with_models, insert_usage.
      cbn [ai_usage_tracking]. now rewrite Hlog.
    + cbn [String.eqb Ascii.eqb Bool.eqb]. now repeat split.
Qed.

(** *** X13: who gets invoked *)

Lemma adapterFor_key (env : Env) (context : InterviewContext)
    (model : AiModel) (name : string) (o : outcome string) :
  adapterFor env context model = Some (name, o) ->
  (name = "Orion" -> truthy_opt (GROQ_API_KEY env) = true)
  /\ (name = "Titan" -> truthy_opt (MISTRAL_API_KEY env) = true).
Proof.
  unfold adapterFor.
  destruct (codename model =? "Orion")%string;
    destruct (truthy_opt (GROQ_API_KEY env));
    destruct (codename model =? "Titan")%string;
    destruct (truthy_opt (MISTRAL_API_KEY env));
    destruct (codename model =? "Nova")%string;
    cbn [andb]; intros H; inversion H; split; intros E;
    try reflexivity; discriminate E.
Qed.

Lemma attempts_keys (env : Env) (context : InterviewContext)
    (models : list AiModel) (name : string) :
  In name (attempts env context models) ->
  (name = "Orion" -> truthy_opt (GROQ_API_KEY env) = true)
  /\ (name = "Titan" -> truthy_opt (MISTRAL_API_KEY env) = true).
Proof.
  induction models as [|m rest IH]; [intros []|].
  cbn [attempts].
  destruct (adapterFor env context m) as [[n [q|msg]]|] eqn:Ha.
  - intros [<-|[]]. exact (adapterFor_key _ _ _ _ _ Ha).
  - intros [<-|H]; [exact (adapterFor_key _ _ _ _ _ Ha)|now apply IH].
  - exact IH.
Qed.

Lemma eligible_enabled (st : Store) (name : string) :
  In name (map codename (eligible st)) ->
  exists r, In r (ai_models st) /\ codename r = name /\ credit_status r = true.
Proof.
  intros H. apply in_map_iff in H as (r & E & Hr).
  apply filter_In in Hr as (Hr & Hp). apply andb_prop in Hp as (_ & Hs).
  now exists r.
Qed.

Lemma available_enabled (cn : string) (w : World) :
  fst (isModelAvailable cn w) = true ->
  exists r, In r (ai_models (store w)) /\ codename r = cn
            /\ credit_status r = true.
Proof.
  unfold isModelAvailable, query. cbn [fst].
  destruct (filter (fun r => (codename r =? cn)%string) (ai_models (store w)))
    as [|r [|r' rest]] eqn:E; try discriminate.
  intros Hs. exists r.
  assert (Hin : In r (filter (fun r => (codename r =? cn)%string)
                        (ai_models (store w)))) by (rewrite E; now left).
  apply filter_In in Hin as (Hin & Hc). apply String.eqb_eq in Hc. now repeat split.
Qed.

Lemma neverEnables_back (st st' : Store) (r' : AiModel) :
  neverEnables st st' -> In r' (ai_models st') ->
  exists r, In r (ai_models st) /\ keepsFrame r r'.
Proof.
  unfold neverEnables. induction 1 as [|x y l l' Hxy _ IH]; [intros []|].
  intros [<-|Hin].
  - exists x. split; [now left|exact Hxy].
  - destruct (IH Hin) as (r & Hr & Hk). exists r. split; [now right|exact Hk].
Qed.

(** X13.  The adapters a [generate_question] request invokes all belong to
    providers that were enabled in the store when the request started;
    Orion is invoked only with a Groq credential configured and Titan only
    with a Mistral credential. *)
Theorem only_enabled_configured_providers_are_invoked :
  forall env now context w,
    exists invoked,
      adapterCalls (snd (generateInterviewQuestion env now context w))
      = adapterCalls w ++ invoked
      /\ (forall name,
            In name invoked ->
            exists r, In r (ai_models (store w)) /\ codename r = name
                      /\ credit_status r = true)
      /\ (In "Orion" invoked -> truthy_opt (GROQ_API_KEY env) = true)
      /\ (In "Titan" invoked -> truthy_opt (MISTRAL_API_KEY env) = true).
Proof.
  intros env now context w.
  destruct (eligible (store w)) as [|m ms] eqn:E.
  - rewrite generate_question_refused by exact E. exists [].
    cbn [snd]. rewrite app_nil_r. split; [reflexivity|].
    split; [intros name []|]. split; intros [].
  - assert (He : eligible (store w) <> []) by (rewrite E; discriminate).
    pose proof (generate_question_neverEnables env now context w) as Hframe.
    pose proof (generate_question_closed env now context w He) as Hc.
    cbv zeta in Hc. rewrite Hc in *. clear Hc. cbn [snd adapterCalls store] in *.
    set (models := eligible (store w)) in *.
    set (st' := if truthy (fst (loopResult env context models)) then _ else _) in *.
    exists (attempts env context models
            ++ (if evaluatorRuns context st' then ["Athena"] else [])).
    split; [now rewrite app_assoc|].
    split; [|split].
    + intros name Hin. apply in_app_or in Hin as [Hin|Hin].
      * apply eligible_enabled. now apply attempts_incl in Hin.
      * destruct (evaluatorRuns context st') eqn:Hrun; [|destruct Hin].
        destruct Hin as [<-|[]].
        unfold evaluatorRuns in Hrun. apply andb_prop in Hrun as (Hav & _).
        apply available_enabled in Hav as (r' & Hr' & Hname & Hs).
        cbn [store] in Hr'.
        destruct (neverEnables_back _ _ r' Hframe Hr') as (r & Hr & Hk).
        destruct Hk as (Hcn & _ & _ & _ & _ & _ & Hen).
        exists r. split; [exact Hr|]. split; [congruence|auto].
    + intros Hin. apply in_app_or in Hin as [Hin|Hin].
      * now apply (proj1 (attempts_keys _ _ _ _ Hin)).
      * destruct (evaluatorRuns context st'); [|destruct Hin].
        destruct Hin as [H|[]]. discriminate H.
    + intros Hin. apply in_app_or in Hin as [Hin|Hin].
      * now apply (proj2 (attempts_keys _ _ _ _ Hin)).
      * destruct (evaluatorRuns context st'); [|destruct Hin].
        destruct Hin as [H|[]]. discriminate H.
Qed.

(** *** X14: the loop stops at the first adapter that returns *)

Lemma strikes_incl (env : Env) (context : InterviewContext)
    (models : list AiModel) (cn : string) :
  In cn (strikes env context models) -> In cn (map codename models).
Proof.
  induction models as [|m rest IH]; [intros []|].
  cbn [strikes map].
  destruct (adapterFor env context m) as [[n [q|msg]]|].
  - intros [].
  - intros [<-|H]; [now left|right; now apply IH].
  - intros H. right. now apply IH.
Qed.

Lemma nodup_app_disjoint {A : Type} (l1 l2 : list A) (x : A) :
  NoDup (l1 ++ l2) -> In x l1 -> In x l2 -> False.
Proof.
  induction l1 as [|a l1 IH]; [intros _ []|].
  cbn [app]. intros Hnd [->|H1] H2; inversion Hnd as [|? ? Hfresh Hnd']; subst.
  - apply Hfresh. apply in_or_app. now right.
  - now apply IH.
Qed.

Lemma not_struck (name : string) (struck : list string) :
  ~ In name struck -> existsb (String.eqb name) struck = false.
Proof.
  intros H. apply not_true_is_false. intros E.
  apply existsb_exists in E as (x & Hx & Ex). apply String.eqb_eq in Ex.
  now subst.
Qed.

(** X14.  The candidate loop of [generate_question] ends at the first
    adapter that returns, whatever it returns: no later candidate is
    invoked, and neither the provider that returned nor any later
    candidate is disabled.  A non-empty text is the answer, under that
    provider's codename.  An empty text is no answer: the result is the
    fallback question, no usage is recorded, the remaining candidates are
    left untried and the provider stays enabled. *)
Theorem first_return_ends_the_loop :
  forall env now context w before model rest name question,
    fst (getAvailableModels ["Orion"; "Titan"; "Nova"] w)
    = before ++ model :: rest ->
    Forall (fun m => forall n q,
              adapterFor env context m <> Some (n, Returns q)) before ->
    adapterFor env context model = Some (name, Returns question) ->
    let run := generateInterviewQuestion env now context w in
    (exists tail,
       adapterCalls (snd run)
       = adapterCalls w ++ attempts env context before ++ name :: tail
       /\ forall n, In n tail -> n = "Athena")
    /\ (NoDup (map codename (ai_models (store w))) ->
        forall r r',
          In r (model :: rest) -> In r' (ai_models (store (snd run))) ->
          codename r' = codename r -> credit_status r' = true)
    /\ (truthy question = true ->
        exists evaluation modelStatus,
          fst run
          = mkResponse 200
              (QuestionResult (Some question) name evaluation modelStatus))
    /\ (truthy question = false ->
        ai_usage_tracking (store (snd run)) = ai_usage_tracking (store w)
        /\ exists evaluation modelStatus,
             fst run
             = mkResponse 200
                 (QuestionResult (getFallbackQuestion context) "Fallback"
                    evaluation modelStatus)).
Proof.
  intros env now context w before model rest name question Hrows Hbefore Hret run.
  rewrite getAvailableModels_eligible in Hrows. cbn [fst] in Hrows.
  assert (He : eligible (store w) <> []).
  { rewrite Hrows. intros E. symmetry in E. now apply app_cons_not_nil in E. }
  pose proof (generate_question_closed env now context w He) as Hc.
  cbv zeta in Hc. subst run. rewrite Hc. clear Hc.
  cbn [fst snd store adapterCalls].
  destruct (loop_through env context before (model :: rest) Hbefore)
    as (Ha & Hs & Hr).
  cbn [attempts strikes loopResult] in Ha, Hs, Hr. rewrite Hret in Ha, Hs, Hr.
  rewrite app_nil_r in Hs.
  rewrite Hrows, Ha, Hs, Hr. cbn [fst snd].
  set (struck := fold_left (strike now) (strikes env context before) (store w)).
  set (st' := if truthy question then _ else struck).
  split; [|split; [|split]].
  - exists (if evaluatorRuns context st' then ["Athena"] else []). split.
    + now rewrite <- !app_assoc.
    + intros n Hn. destruct (evaluatorRuns context st'); [|destruct Hn].
      now destruct Hn as [<-|[]].
  - intros Hnd r r' Hr0 Hr' Ecn.
    assert (Hel : In r (eligible (store w))).
    { rewrite Hrows. apply in_or_app. now right. }
    pose proof Hel as Hel'. apply filter_In in Hel' as (Hin & Hp).
    apply andb_prop in Hp as (_ & Hen).
    assert (Hfresh : ~ In (codename r) (strikes env context before)).
    { intros Hst. apply strikes_incl in Hst.
      pose proof (unique_codenames_filter
                    (fun r => existsb (String.eqb (codename r))
                                ["Orion"; "Titan"; "Nova"] && credit_status r)
                    _ Hnd) as Hnd'.
      fold (eligible (store w)) in Hnd'. rewrite Hrows, map_app in Hnd'.
      apply (nodup_app_disjoint _ _ (codename r) Hnd' Hst). now apply in_map. }
    assert (Hstruck : forall x, In x (ai_models struck) ->
                                codename x = codename r -> credit_status x = true).
    { intros x Hx Ex. subst struck. rewrite strikes_closed in Hx.
      apply in_map_iff in Hx as (r0 & <- & Hr0').
      destruct (existsb (String.eqb (codename r0)) (strikes env context before))
        eqn:Hex.
      - cbn [setUnavailable codename] in Ex. rewrite Ex in Hex.
        now rewrite (not_struck _ _ Hfresh) in Hex.
      - rewrite (CreditMonitorFacts.unique_codename _ Hnd r0 r Hr0' Hin Ex).
        exact Hen. }
    subst st'. destruct (truthy question).
    + unfold tracked, update_model_usage, with_models, update_where_codename in Hr'.
      cbn [ai_models insert_usage] in Hr'.
      apply in_map_iff in Hr' as (x & <- & Hx).
      destruct (codename x =? name)%string;
        cbn [add_usage codename credit_status] in *; now apply Hstruck.
    + now apply Hstruck.
  - intros Ht. subst st'. rewrite Ht. now do 2 eexists.
  - intros Ht. subst st'. rewrite Ht. split.
    + subst struck. apply strikes_keep_usage.
    + now do 2 eexists.
Qed.

Lemma first_return_ends_the_loop_witness :
  let run := generateInterviewQuestion Fixtures.envAllAnswer Fixtures.mar15
               (Fixtures.contextAt 1) (Fixtures.worldOf Fixtures.tablePriority) in
  adapterCalls (snd run) = ["Orion"]
  /\ exists evaluation modelStatus,
       fst run
       = mkResponse 200
           (QuestionResult (Some "Orion asks?") "Orion" evaluation modelStatus).
Proof.
  intros run.
  destruct (first_return_ends_the_loop Fixtures.envAllAnswer Fixtures.mar15
              (Fixtures.contextAt 1) (Fixtures.worldOf Fixtures.tablePriority)
              [] (Fixtures.provider "Orion" true)
              [Fixtures.provider "Titan" true; Fixtures.provider "Nova" true]
              "Orion" "Orion asks?" eq_refl (Forall_nil _) eq_refl)
    as (_ & _ & Hanswer & _).
  split; [reflexivity|]. now apply Hanswer.
Defined.

(** *** generate_speech *)

Lemma speech_through (env : Env) (context : InterviewContext)
    (before models : list AiModel) :
  Forall (fun m => forall n url,
            speechAdapterFor env context m <> Some (n, Returns url)) before ->
  speechAttempts env context (before ++ models)
  = speechAttempts env context before ++ speechAttempts env context models
  /\ speechStrikes env context (before ++ models)
     = speechStrikes env context before ++ speechStrikes env context models
  /\ speechFound env context (before ++ models)
     = speechFound env context models.
Proof.
  induction 1 as [|m before Hm _ IH]; [now repeat split|].
  destruct IH as (IHa & IHs & IHr).
  cbn [app speechAttempts speechStrikes speechFound].
  destruct (speechAdapterFor env context m) as [[n [q|msg]]|] eqn:Ha.
  - now destruct (Hm n q).
  - cbn [app]. now rewrite IHa, IHs, IHr.
  - now rewrite IHa, IHs, IHr.
Qed.

Lemma speech_nothing_found (env : Env) (context : InterviewContext)
    (models : list AiModel) :
  (forall m n url, In m models ->
                   speechAdapterFor env context m <> Some (n, Returns url)) ->
  speechFound env context models = None
  /\ forall m n message,
       In m models ->
       speechAdapterFor env context m = Some (n, Throws message) ->
       In (codename m) (speechStrikes env context models).
Proof.
  induction models as [|model rest IH]; intros H; [split; [reflexivity|intros ? ? ? []]|].
  destruct IH as (IHf & IHs).
  { intros m n url Hin. apply H. now right. }
  cbn [speechFound speechStrikes].
  destruct (speechAdapterFor env context model) as [[n [q|msg]]|] eqn:Ha.
  - exfalso. apply (H model n q); [now left|exact Ha].
  - split; [exact IHf|]. intros m n' message [<-|Hin] Hm.
    + now left.
    + right. now apply (IHs m n' message).
  - split; [exact IHf|]. intros m n' message [<-|Hin] Hm.
    + congruence.
    + now apply (IHs m n' message).
Qed.

(** X15.  When at least one speech provider is eligible and no adapter the
    loop invokes returns, [generate_speech] answers with status 200 and
    [{error: "All TTS models failed", useBrowserTTS: true}]; every provider
    whose adapter failed is disabled, and no usage is recorded. *)
Theorem speech_degrades_to_browser :
  forall env now context w,
    fst (getAvailableModels ["Vox"; "Aether"] w) <> [] ->
    (forall m n url,
       In m (fst (getAvailableModels ["Vox"; "Aether"] w)) ->
       speechAdapterFor env context m <> Some (n, Returns url)) ->
    let run := generateSpeech env now context w in
    fst run = mkResponse 200 (SpeechFailed "All TTS models failed" true)
    /\ ai_usage_tracking (store (snd run)) = ai_usage_tracking (store w)
    /\ map current_daily_usage (ai_models (store (snd run)))
       = map current_daily_usage (ai_models (store w))
    /\ (forall m n message,
          In m (fst (getAvailableModels ["Vox"; "Aether"] w)) ->
          speechAdapterFor env context m = Some (n, Throws message) ->
          disabled (codename m) (store (snd run))).
Proof.
  intros env now context w. rewrite getAvailableModels_speech. cbn [fst].
  intros He Hnone. cbv zeta.
  rewrite generateSpeech_served by exact He. rewrite trySpeech_closed. cbv zeta.
  destruct (speech_nothing_found env context _ Hnone) as (-> & Hstrikes).
  cbn [fst snd store].
  destruct (strikes_keep_usage now
              (speechStrikes env context (eligibleSpeech (store w))) (store w))
    as (Hlog & Hd & _).
  split; [reflexivity|]. split; [exact Hlog|]. split; [exact Hd|].
  intros m n message Hin Hm. apply strikes_disable. left.
  exact (Hstrikes m n message Hin Hm).
Qed.

Lemma speech_degrades_to_browser_witness :
  let w := Fixtures.worldOf [Fixtures.provider "Vox" true;
                             Fixtures.provider "Aether" true] in
  let run := generateSpeech Fixtures.envAllFail Fixtures.mar15
               Fixtures.contextWithAnswer w in
  fst run = mkResponse 200 (SpeechFailed "All TTS models failed" true)
  /\ disabled "Vox" (store (snd run)) /\ disabled "Aether" (store (snd run)).
Proof.
  intros w run.
  destruct (speech_degrades_to_browser Fixtures.envAllFail Fixtures.mar15
              Fixtures.contextWithAnswer w)
    as (Hresp & _ & _ & Hdis).
  - vm_compute. discriminate.
  - intros m n url Hin. vm_compute in Hin.
    destruct Hin as [<-|[<-|[]]]; vm_compute; discriminate.
  - split; [exact Hresp|]. split.
    + apply (Hdis (Fixtures.provider "Vox" true) "Vox" "ElevenLabs API error").
      * vm_compute. now left.
      * reflexivity.
    + apply (Hdis (Fixtures.provider "Aether" true) "Aether" "Azure TTS error").
      * vm_compute. right. now left.
      * reflexivity.
Defined.

(** X16.  [generate_speech] returns with the first adapter that returns,
    taking whatever it returns as the audio (there is no check that it is
    non-empty); it records one usage entry for that provider, with the
    length of the spoken text as tokens, and invokes no later provider. *)
Theorem speech_first_return_wins :
  forall env now context w before model rest name audioUrl,
    fst (getAvailableModels ["Vox"; "Aether"] w) = before ++ model :: rest ->
    Forall (fun m => forall n url,
              speechAdapterFor env context m <> Some (n, Returns url)) before ->
    speechAdapterFor env context model = Some (name, Returns audioUrl) ->
    let run := generateSpeech env now context w in
    fst run = mkResponse 200 (SpeechResult audioUrl name)
    /\ adapterCalls (snd run)
       = adapterCalls w ++ speechAttempts env context before ++ [name]
    /\ ai_usage_tracking (store (snd run))
       = ai_usage_tracking (store w)
         ++ [mkUsageRow name (sessionId context) 1
               (length (or_else (userResponse context) ""))].
Proof.
  intros env now context w before model rest name audioUrl.
  rewrite getAvailableModels_speech. cbn [fst]. intros Hrows Hbefore Hret.
  cbv zeta.
  assert (He : eligibleSpeech (store w) <> []).
  { rewrite Hrows. intros E. symmetry in E. now apply app_cons_not_nil in E. }
  rewrite generateSpeech_served by exact He. rewrite trySpeech_closed. cbv zeta.
  destruct (speech_through env context before (model :: rest) Hbefore)
    as (Ha & Hs & Hf).
  cbn [speechAttempts speechStrikes speechFound] in Ha, Hs, Hf.
  rewrite Hret in Ha, Hs, Hf. rewrite Hrows, Ha, Hs, Hf.
  cbn [fst snd store adapterCalls]. split; [reflexivity|]. split; [reflexivity|].
  unfold tracked, update_model_usage, with_models, insert_usage.
  cbn [ai_usage_tracking].
  now rewrite (proj1 (strikes_keep_usage now _ (store w))).
Qed.

Lemma speech_first_return_wins_witness :
  let env := Orchestrator.mkEnv None None None (Some "esk") (Some "azk")
               "http://localhost:8001" "http://localhost:8003"
               (fun _ => Throws "Groq API error")
               (fun _ => Throws "Mistral API error")
               (fun _ _ => Throws "Local model error")
               (fun _ _ => Throws "Anthropic API error")
               (fun _ => Throws "ElevenLabs API error")
               (fun _ => Returns "data:audio/mpeg;base64,AAAA")
               (fun _ => Throws "Local STT error")
               Fixtures.countRequests in
  let w := Fixtures.worldOf [Fixtures.provider "Vox" true;
                             Fixtures.provider "Aether" true] in
  let run := generateSpeech env Fixtures.mar15 Fixtures.contextWithAnswer w in
  fst run = mkResponse 200 (SpeechResult "data:audio/mpeg;base64,AAAA" "Aether")
  /\ adapterCalls (snd run) = ["Vox"; "Aether"].
Proof.
  intros env w run.
  destruct (speech_first_return_wins env Fixtures.mar15
              Fixtures.contextWithAnswer w
              [Fixtures.provider "Vox" true] (Fixtures.provider "Aether" true)
              [] "Aether" "data:audio/mpeg;base64,AAAA" eq_refl)
    as (Hresp & Hcalls & _).
  - constructor; [|constructor]. intros n url H. vm_compute in H. discriminate H.
  - reflexivity.
  - split; [exact Hresp|exact Hcalls].
Defined.

(** *** evaluate_response *)

(** X17.  [evaluate_response] touches nothing when it cannot try the
    evaluator: with Athena unavailable or no Anthropic credential it
    invokes no adapter and leaves the store as it was.  When the evaluator
    answers, the answer is returned under "Athena" and one usage entry is
    recorded with the length of the response text as tokens; when it
    fails, Athena is disabled and no usage is recorded. *)
Theorem evaluate_response_effects :
  forall env now context w,
    let run := evaluateResponse env now context w in
    let text := or_else (userResponse context) "" in
    ((fst (isModelAvailable "Athena" w) = false
      \/ truthy_opt (ANTHROPIC_API_KEY env) = false) -> snd run = w)
    /\ (fst (isModelAvailable "Athena" w) = true ->
        truthy_opt (ANTHROPIC_API_KEY env) = true ->
        adapterCalls (snd run) = adapterCalls w ++ ["Athena"]
        /\ (forall evaluation,
              evaluateWithAthena env text context = Returns evaluation ->
              fst run = mkResponse 200 (EvaluationResult evaluation "Athena")
              /\ ai_usage_tracking (store (snd run))
                 = ai_usage_tracking (store w)
                   ++ [mkUsageRow "Athena" (sessionId context) 1 (length text)]
              /\ map credit_status (ai_models (store (snd run)))
                 = map credit_status (ai_models (store w)))
        /\ (forall message,
              evaluateWithAthena env text context = Throws message ->
              disabled "Athena" (store (snd run))
              /\ ai_usage_tracking (store (snd run))
                 = ai_usage_tracking (store w))).
Proof.
  intros env now context w run text. subst run text.
  rewrite evaluateResponse_closed. split.
  - intros [-> | ->]; [reflexivity|]. now rewrite orb_true_r.
  - intros -> ->. cbn [negb orb].
    destruct (evaluateWithAthena env (or_else (userResponse context) "") context)
      as [evaluation|message]; cbn [fst snd store adapterCalls].
    + split; [reflexivity|]. split.
      * intros e [= <-]. split; [reflexivity|]. split; [reflexivity|].
        unfold tracked, update_model_usage, with_models, update_where_codename.
        cbn [ai_models insert_usage]. rewrite map_map. apply map_ext.
        intros r. now destruct (codename r =? "Athena")%string.
      * intros m H. discriminate H.
    + split; [reflexivity|]. split.
      * intros e H. discriminate H.
      * intros m _. split; [apply strike_disables|reflexivity].
Qed.

Lemma evaluate_response_effects_witness :
  let w := Fixtures.worldOf (Fixtures.tablePriority
                             ++ [Fixtures.provider "Athena" true]) in
  let run := evaluateResponse Fixtures.envAllAnswer Fixtures.mar15
               Fixtures.contextWithAnswer w in
  fst run = mkResponse 200 (EvaluationResult "Clear and confident." "Athena")
  /\ ai_usage_tracking (store (snd run))
     = [mkUsageRow "Athena" "session-1" 1 20].
Proof.
  intros w run.
  destruct (evaluate_response_effects Fixtures.envAllAnswer Fixtures.mar15
              Fixtures.contextWithAnswer w) as (_ & H).
  destruct (H eq_refl eq_refl) as (_ & Hok & _).
  destruct (Hok "Clear and confident." eq_refl) as (Hresp & Hlog & _).
  split; [exact Hresp|exact Hlog].
Defined.

(** *** isModelAvailable and getModelStatus *)

Lemma single_named_row (cn : string) (rows : list AiModel) (r : AiModel) :
  NoDup (map codename rows) -> In r rows -> codename r = cn ->
  filter (fun x => (codename x =? cn)%string) rows = [r].
Proof.
  induction rows as [|x rows IH]; intros Hnd Hin E; [contradiction|].
  cbn [map] in Hnd. inversion Hnd as [|? ? Hfresh Hnd']; subst.
  cbn [filter]. destruct Hin as [->|Hin].
  - rewrite String.eqb_refl. f_equal. apply CreditMonitorMore.filter_none.
    intros y Hy. apply String.eqb_neq. intros Ey. apply Hfresh.
    rewrite <- Ey. now apply in_map.
  - replace (codename x =? codename r)%string with false.
    + now apply IH.
    + symmetry. apply String.eqb_neq. intros Ex. apply Hfresh. rewrite Ex.
      now apply in_map.
Qed.

(** X18.  [isModelAvailable] reads the store without changing anything.  It
    answers false for a codename no row carries; with unique codenames it
    answers true exactly when the row of that codename is enabled. *)
Theorem model_available_iff :
  forall cn w,
    snd (isModelAvailable cn w) = w
    /\ ((forall r, In r (ai_models (store w)) -> codename r <> cn) ->
        fst (isModelAvailable cn w) = false)
    /\ (NoDup (map codename (ai_models (store w))) ->
        (fst (isModelAvailable cn w) = true <->
         exists r, In r (ai_models (store w)) /\ codename r = cn
                   /\ credit_status r = true)).
Proof.
  intros cn w. split; [reflexivity|]. split.
  - intros Hnone. unfold isModelAvailable, query. cbn [fst].
    rewrite CreditMonitorMore.filter_none; [reflexivity|].
    intros r Hr. apply String.eqb_neq. now apply Hnone.
  - intros Hnd. split; [apply available_enabled|].
    intros (r & Hr & E & Hs). unfold isModelAvailable, query. cbn [fst].
    now rewrite (single_named_row cn _ r Hnd Hr E).
Qed.

Lemma model_available_iff_witness :
  fst (isModelAvailable "Echo" (Fixtures.worldOf Fixtures.tablePriority)) = false
  /\ fst (isModelAvailable "Titan" (Fixtures.worldOf Fixtures.tablePriority))
     = true.
Proof.
  split.
  - apply (proj1 (proj2 (model_available_iff "Echo"
                           (Fixtures.worldOf Fixtures.tablePriority)))).
    intros r Hin. cbn in Hin. destruct Hin as [<-|[<-|[<-|[]]]]; discriminate.
  - apply (proj2 (proj2 (model_available_iff "Titan"
                           (Fixtures.worldOf Fixtures.tablePriority)))).
    + cbn. repeat constructor; cbn; intuition discriminate.
    + exists (Fixtures.provider "Titan" true).
      split; [right; now left|]. now split.
Defined.

Lemma insertByCodename_perm (r : AiModel) (sorted : list AiModel) :
  Permutation (insertByCodename r sorted) (r :: sorted).
Proof.
  induction sorted as [|x rest IH]; cbn [insertByCodename]; [apply Permutation_refl|].
  destruct (String.leb (codename r) (codename x)); [apply Permutation_refl|].
  eapply Permutation_trans; [apply perm_skip, IH|apply perm_swap].
Qed.

Lemma orderByCodename_perm (rows : list AiModel) :
  Permutation (orderByCodename rows) rows.
Proof.
  induction rows as [|r rows IH]; cbn; [constructor|].
  eapply Permutation_trans; [apply insertByCodename_perm|now apply perm_skip].
Qed.

Lemma insertByCodename_sorted (r : AiModel) (sorted : list AiModel) :
  Sorted byCodename (map statusOf sorted) ->
  Sorted byCodename (map statusOf (insertByCodename r sorted)).
Proof.
  induction sorted as [|x rest IH]; intros Hs; cbn [insertByCodename map].
  - repeat constructor.
  - destruct (String.leb (codename r) (codename x)) eqn:E.
    + cbn [map]. constructor; [exact Hs|]. constructor. exact E.
    + cbn [map] in *. inversion Hs as [|? ? Hrest Hhd]; subst.
      constructor; [now apply IH|].
      destruct rest as [|y rest']; cbn [insertByCodename map].
      * constructor. unfold byCodename. cbn [statusOf ms_codename].
        destruct (String.leb_total (codename r) (codename x)); congruence.
      * destruct (String.leb (codename r) (codename y)); cbn [map].
        -- constructor. unfold byCodename. cbn [statusOf ms_codename].
           destruct (String.leb_total (codename r) (codename x)); congruence.
        -- constructor. now inversion Hhd.
Qed.

(** X19.  [get_model_status] lists every provider of the table exactly
    once, each with its current status, counters and limits, in
    non-decreasing codename order, and changes nothing. *)
Theorem model_status_is_sorted_table :
  forall w,
    snd (getModelStatus w) = w
    /\ Permutation (fst (getModelStatus w)) (map statusOf (ai_models (store w)))
    /\ Sorted byCodename (fst (getModelStatus w)).
Proof.
  intros w. split; [reflexivity|].
  unfold getModelStatus, query. cbn [fst].
  change (fun r => mkModelStatus (codename r) (credit_status r)
                     (current_daily_usage r) (current_monthly_usage r)
                     (daily_limit r) (monthly_limit r)) with statusOf.
  split.
  - apply Permutation_map. apply orderByCodename_perm.
  - unfold orderByCodename.
    induction (ai_models (store w)) as [|r rows IH]; cbn [fold_right map].
    + constructor.
    + now apply insertByCodename_sorted.
Qed.

(** *** The endpoint *)

Lemma generate_question_status (env : Env) (now : Z)
    (context : InterviewContext) (w : World) :
  status (fst (generateInterviewQuestion env now context w)) = 200
  \/ (status (fst (generateInterviewQuestion env now context w)) = 503
      /\ snd (generateInterviewQuestion env now context w) = w).
Proof.
  destruct (eligible (store w)) as [|m ms] eqn:E.
  - right. rewrite generate_question_refused by exact E. now split.
  - left. assert (He : eligible (store w) <> []) by (rewrite E; discriminate).
    pose proof (generate_question_closed env now context w He) as Hc.
    cbv zeta in Hc. now rewrite Hc.
Qed.

Lemma generateSpeech_status (env : Env) (now : Z)
    (context : InterviewContext) (w : World) :
  status (fst (generateSpeech env now context w)) = 200
  \/ (status (fst (generateSpeech env now context w)) = 503
      /\ snd (generateSpeech env now context w) = w).
Proof.
  destruct (eligibleSpeech (store w)) as [|m ms] eqn:E.
  - right. rewrite generateSpeech_refused by exact E. now split.
  - left. rewrite generateSpeech_served by (rewrite E; discriminate).
    rewrite trySpeech_closed. cbv zeta.
    now destruct (speechFound env context (eligibleSpeech (store w)))
      as [[audioUrl name]|].
Qed.

Lemma evaluateResponse_status (env : Env) (now : Z)
    (context : InterviewContext) (w : World) :
  status (fst (evaluateResponse env now context w)) = 200.
Proof.
  rewrite evaluateResponse_closed.
  destruct (negb _ || negb _); [reflexivity|].
  now destruct (evaluateWithAthena env _ context).
Qed.

(** X20.  [process_audio] on a body with a context, with the
    transcription endpoint configured.  With Echo unavailable the request
    is refused with status 503 and nothing happens.  Otherwise the
    adapter is invoked once.  A transcript, empty or not, is returned with
    status 200 under "Echo", with one usage entry whose tokens are the
    transcript's length.  A failing transcription disables Echo, records
    no usage and reaches the caller as a 500 carrying the adapter's
    message.  So does a payload without transcript: reading the length of
    [undefined] or [null] throws, and the 500 carries the [TypeError]'s
    message. *)
Theorem process_audio_outcomes :
  forall env now req context w,
    OrchestratorEndpoint.method req <> "OPTIONS" ->
    OrchestratorEndpoint.json req = Returns ("process_audio", Given context) ->
    truthy (ECHO_ENDPOINT env) = true ->
    let run := OrchestratorEndpoint.serve env now req w in
    (fst (isModelAvailable "Echo" w) = false ->
     run = (OrchestratorEndpoint.Answer
              (mkResponse 503
                 (Unavailable "Speech recognition unavailable" ["Echo"])), w))
    /\ (fst (isModelAvailable "Echo" w) = true ->
        adapterCalls (snd run) = adapterCalls w ++ ["Echo"]
        /\ (forall transcript,
              callLocalSTT env (audioData context) = Returns (Given transcript) ->
              fst run = OrchestratorEndpoint.Answer
                          (mkResponse 200 (TranscriptResult transcript "Echo"))
              /\ ai_usage_tracking (store (snd run))
                 = ai_usage_tracking (store w)
                   ++ [mkUsageRow "Echo" (sessionId context) 1
                         (length transcript)])
        /\ (forall n,
              callLocalSTT env (audioData context) = Returns (Missing n) ->
              fst run = OrchestratorEndpoint.Failed
                          (mkResponse 500 (typeError n "length"))
              /\ disabled "Echo" (store (snd run))
              /\ ai_usage_tracking (store (snd run))
                 = ai_usage_tracking (store w))
        /\ (forall message,
              callLocalSTT env (audioData context) = Throws message ->
              fst run = OrchestratorEndpoint.Failed (mkResponse 500 message)
              /\ disabled "Echo" (store (snd run))
              /\ ai_usage_tracking (store (snd run))
                 = ai_usage_tracking (store w))).
Proof.
  intros env now req context w Hmethod Hjson Hendpoint run. subst run.
  unfold OrchestratorEndpoint.serve.
  apply String.eqb_neq in Hmethod. rewrite Hmethod, Hjson.
  cbn [String.eqb Ascii.eqb Bool.eqb]. unfold bind.
  rewrite processAudioInput_closed, Hendpoint.
  split.
  - intros Hav. rewrite Hav. reflexivity.
  - intros Hav. rewrite Hav. cbn [negb].
    destruct (callLocalSTT env (audioData context)) as [[transcript|n]|message];
      cbn [fst snd store adapterCalls ret OrchestratorEndpoint.settle].
    + split; [reflexivity|]. split; [|split].
      * intros t [= <-]. now split.
      * intros m H. discriminate H.
      * intros m H. discriminate H.
    + split; [reflexivity|]. split; [|split].
      * intros t H. discriminate H.
      * intros m [= <-]. split; [reflexivity|].
        split; [apply strike_disables|reflexivity].
      * intros m H. discriminate H.
    + split; [reflexivity|]. split; [|split].
      * intros t H. discriminate H.
      * intros m H. discriminate H.
      * intros m [= <-]. split; [reflexivity|].
        split; [apply strike_disables|reflexivity].
Qed.

Lemma process_audio_outcomes_witness :
  let env := Orchestrator.mkEnv None None None None None
               "http://localhost:8001" "http://localhost:8003"
               (fun _ => Throws "Groq API error")
               (fun _ => Throws "Mistral API error")
               (fun _ _ => Throws "Local model error")
               (fun _ _ => Throws "Anthropic API error")
               (fun _ => Throws "ElevenLabs API error")
               (fun _ => Throws "Azure TTS error")
               (fun _ => Returns (Missing Undefined))
               Fixtures.countRequests in
  let req := OrchestratorEndpoint.mkRequest "POST"
               (Returns ("process_audio", Given Fixtures.contextWithAnswer)) in
  let w := Fixtures.worldOf [Fixtures.provider "Echo" true] in
  let run := OrchestratorEndpoint.serve env Fixtures.mar15 req w in
  fst run = OrchestratorEndpoint.Failed
              (mkResponse 500
                 "Cannot read properties of undefined (reading 'length')")
  /\ disabled "Echo" (store (snd run)).
Proof.
  intros env req w run.
  destruct (process_audio_outcomes env Fixtures.mar15 req
              Fixtures.contextWithAnswer w) as (_ & H).
  - cbn. discriminate.
  - reflexivity.
  - reflexivity.
  - destruct (H eq_refl) as (_ & _ & Hmissing & _).
    destruct (Hmissing Undefined eq_refl) as (Hresp & Hdis & _).
    split; [exact Hresp|exact Hdis].
Defined.

(** *** X21: what ends in the catch block *)

Lemma strikes_struck (now : Z) (struck : list string) (st : Store)
    (cn : string) :
  In cn struck -> disabled cn (fold_left (strike now) struck st).
Proof. intros H. apply strikes_disable. now left. Qed.

(** Goes through the causes of a failure that the request at hand rules
    out. *)
Ltac no_cause :=
  intros (_ & Hc);
  destruct Hc as
    [Hc
    |[(? & ? & ? & Hc & Hunknown)
     |[(? & ? & ? & Hc & [Hstt'|(? & Hstt' & ?)])
      |[(? & ? & Hc & ?)
       |(? & ? & Hc & ?)]]]];
  try discriminate Hc;
  try (injection Hc as <- <-); try (injection Hc as <-); subst;
  try congruence;
  try (exfalso; apply Hunknown; cbn; tauto).

(** X21.  The orchestrator endpoint answers through its catch block, in
    each case with status 500 and without recording usage, in exactly
    these cases: the body does not parse; the action is none of the five
    it knows; [process_audio] with Echo available yields no transcript,
    because the transcription adapter failed, or handed back [undefined]
    or [null], or the body has no context; [generate_question] on a body
    without context finds a provider eligible.  In the first two nothing
    was invoked and the store is untouched.  In the [process_audio] cases
    Echo is disabled.  In the last, every eligible provider whose adapter
    the loop calls is disabled.  No failure of a question, speech or
    evaluation provider on a body with a context reaches the caller this
    way. *)
Theorem endpoint_failures :
  forall env now req w,
    let run := OrchestratorEndpoint.serve env now req w in
    (forall message,
       fst run = OrchestratorEndpoint.Failed (mkResponse 500 message)
       <-> OrchestratorEndpoint.method req <> "OPTIONS"
           /\ (OrchestratorEndpoint.json req = Throws message
               \/ (message = "Unknown action"
                   /\ exists action context,
                        OrchestratorEndpoint.json req
                        = Returns (action, context)
                        /\ ~ In action ["generate_question"; "process_audio";
                                        "generate_speech"; "evaluate_response";
                                        "get_model_status"])
               \/ (fst (isModelAvailable "Echo" w) = true
                   /\ truthy (ECHO_ENDPOINT env) = true
                   /\ exists context,
                        OrchestratorEndpoint.json req
                        = Returns ("process_audio", Given context)
                        /\ (callLocalSTT env (audioData context)
                            = Throws message
                            \/ exists n,
                                 callLocalSTT env (audioData context)
                                 = Returns (Missing n)
                                 /\ message = typeError n "length"))
               \/ (fst (isModelAvailable "Echo" w) = true
                   /\ exists n,
                        OrchestratorEndpoint.json req
                        = Returns ("process_audio", Missing n)
                        /\ message
                           = typeError n (if truthy (ECHO_ENDPOINT env)
                                          then "audioData"
                                          else "userResponse"))
               \/ (fst (getAvailableModels ["Orion"; "Titan"; "Nova"] w) <> []
                   /\ exists n,
                        OrchestratorEndpoint.json req
                        = Returns ("generate_question", Missing n)
                        /\ message = typeError n "questionNumber")))
    /\ (forall response,
          fst run = OrchestratorEndpoint.Failed response ->
          status response = 500
          /\ ai_usage_tracking (store (snd run)) = ai_usage_tracking (store w)
          /\ ((forall context,
                 OrchestratorEndpoint.json req
                 <> Returns ("process_audio", context)) ->
              (forall n,
                 OrchestratorEndpoint.json req
                 <> Returns ("generate_question", Missing n)) ->
              snd run = w)
          /\ (forall context,
                OrchestratorEndpoint.json req
                = Returns ("process_audio", context) ->
                disabled "Echo" (store (snd run)))
          /\ (forall n model,
                OrchestratorEndpoint.json req
                = Returns ("generate_question", Missing n) ->
                In model (fst (getAvailableModels ["Orion"; "Titan"; "Nova"] w)) ->
                OrchestratorEndpoint.questionCandidate env model = true ->
                disabled (codename model) (store (snd run))
                /\ In (codename model) (adapterCalls (snd run)))).
Proof.
  intros env now req w run. subst run. split.
  - intros message. unfold OrchestratorEndpoint.serve.
    destruct (OrchestratorEndpoint.method req =? "OPTIONS")%string eqn:Hm.
    { apply String.eqb_eq in Hm. split; [discriminate|]. now intros (H & _). }
    apply String.eqb_neq in Hm.
    destruct (OrchestratorEndpoint.json req) as [[action [context|n]]|e]
      eqn:Hj.
    + (* a body with a context *)
      destruct (action =? "generate_question")%string eqn:E1.
      { apply String.eqb_eq in E1. subst action. unfold bind, ret.
        destruct (generateInterviewQuestion env now context w).
        split; [discriminate|]. no_cause. }
      destruct (action =? "process_audio")%string eqn:E2.
      { apply String.eqb_eq in E2. subst action. unfold bind.
        rewrite processAudioInput_closed.
        destruct (fst (isModelAvailable "Echo" w)) eqn:Hav; cbn [negb].
        2:{ split; [discriminate|]. no_cause. }
        destruct (truthy (ECHO_ENDPOINT env)) eqn:Hep.
        2:{ split; [discriminate|]. no_cause. }
        destruct (callLocalSTT env (audioData context)) as [[t|n]|e] eqn:Hstt;
          cbn [fst ret OrchestratorEndpoint.settle OrchestratorEndpoint.failed].
        - split; [discriminate|]. no_cause.
        - split.
          + intros [= <-]. split; [exact Hm|]. right. right. left.
            split; [reflexivity|]. split; [reflexivity|].
            exists context. split; [reflexivity|]. right. now exists n.
          + no_cause. unfold OrchestratorEndpoint.failed. congruence.
        - split.
          + intros [= <-]. split; [exact Hm|]. right. right. left.
            split; [reflexivity|]. split; [reflexivity|].
            exists context. split; [reflexivity|]. now left.
          + no_cause. unfold OrchestratorEndpoint.failed. congruence. }
      destruct (action =? "generate_speech")%string eqn:E3.
      { apply String.eqb_eq in E3. subst action. unfold bind, ret.
        destruct (generateSpeech env now context w).
        split; [discriminate|]. no_cause. }
      destruct (action =? "evaluate_response")%string eqn:E4.
      { apply String.eqb_eq in E4. subst action. unfold bind, ret.
        destruct (evaluateResponse env now context w).
        split; [discriminate|]. no_cause. }
      destruct (action =? "get_model_status")%string eqn:E5.
      { apply String.eqb_eq in E5. subst action.
        split; [discriminate|]. no_cause. }
      cbn [fst ret OrchestratorEndpoint.failed].
      apply String.eqb_neq in E1, E2, E3, E4, E5. split.
      * intros [= <-]. split; [exact Hm|]. right. left.
        split; [reflexivity|]. exists action, (Given context).
        split; [reflexivity|].
        intros [H|[H|[H|[H|[H|[]]]]]]; congruence.
      * no_cause. reflexivity.
    + (* a body without context *)
      destruct (action =? "generate_question")%string eqn:E1.
      { apply String.eqb_eq in E1. subst action. unfold bind.
        rewrite generateInterviewQuestionWithout_closed.
        rewrite getAvailableModels_eligible. cbn [fst].
        destruct (eligible (store w)) as [|m ms];
          cbn [fst ret OrchestratorEndpoint.settle OrchestratorEndpoint.failed].
        - split; [discriminate|]. no_cause.
        - split.
          + intros [= <-]. split; [exact Hm|]. do 4 right.
            split; [discriminate|]. now exists n.
          + no_cause. reflexivity. }
      destruct (action =? "process_audio")%string eqn:E2.
      { apply String.eqb_eq in E2. subst action. unfold bind.
        rewrite processAudioInputWithout_closed.
        destruct (fst (isModelAvailable "Echo" w)) eqn:Hav;
          cbn [negb fst ret OrchestratorEndpoint.settle
               OrchestratorEndpoint.failed].
        - split.
          + intros [= <-]. split; [exact Hm|]. do 3 right. left.
            split; [reflexivity|]. now exists n.
          + no_cause. reflexivity.
        - split; [discriminate|]. no_cause. }
      destruct (action =? "generate_speech")%string eqn:E3.
      { apply String.eqb_eq in E3. subst action. unfold bind, ret.
        destruct (OrchestratorEndpoint.generateSpeechWithout env now w).
        split; [discriminate|]. no_cause. }
      destruct (action =? "evaluate_response")%string eqn:E4.
      { apply String.eqb_eq in E4. subst action. unfold bind, ret.
        destruct (OrchestratorEndpoint.evaluateResponseWithout env now w).
        split; [discriminate|]. no_cause. }
      destruct (action =? "get_model_status")%string eqn:E5.
      { apply String.eqb_eq in E5. subst action.
        split; [discriminate|]. no_cause. }
      cbn [fst ret OrchestratorEndpoint.failed].
      apply String.eqb_neq in E1, E2, E3, E4, E5. split.
      * intros [= <-]. split; [exact Hm|]. right. left.
        split; [reflexivity|]. exists action, (Missing n).
        split; [reflexivity|].
        intros [H|[H|[H|[H|[H|[]]]]]]; congruence.
      * no_cause. reflexivity.
    + (* a body that does not parse *)
      cbn [fst ret OrchestratorEndpoint.failed]. split.
      * intros [= <-]. split; [exact Hm|]. now left.
      * no_cause. reflexivity.
  - intros response. unfold OrchestratorEndpoint.serve.
    destruct (OrchestratorEndpoint.method req =? "OPTIONS")%string;
      [discriminate|].
    destruct (OrchestratorEndpoint.json req) as [[action [context|n]]|e].
    + destruct (action =? "generate_question")%string eqn:E1.
      { unfold bind, ret.
        destruct (generateInterviewQuestion env now context w). discriminate. }
      destruct (action =? "process_audio")%string eqn:E2.
      { unfold bind. rewrite processAudioInput_closed.
        destruct (negb (fst (isModelAvailable "Echo" w))); [discriminate|].
        destruct (truthy (ECHO_ENDPOINT env)); [|discriminate].
        destruct (callLocalSTT env (audioData context)) as [[t|n]|e];
          [discriminate| |];
          cbn [fst snd store ret OrchestratorEndpoint.settle
               OrchestratorEndpoint.failed];
          intros [= <-]; (split; [reflexivity|]); (split; [reflexivity|]);
          (split; [|split]).
        - intros H _. apply String.eqb_eq in E2. subst action.
          now destruct (H (Given context)).
        - intros c _. apply strike_disables.
        - intros n' model H. discriminate H.
        - intros H _. apply String.eqb_eq in E2. subst action.
          now destruct (H (Given context)).
        - intros c _. apply strike_disables.
        - intros n' model H. discriminate H. }
      destruct (action =? "generate_speech")%string eqn:E3.
      { unfold bind, ret. destruct (generateSpeech env now context w).
        discriminate. }
      destruct (action =? "evaluate_response")%string eqn:E4.
      { unfold bind, ret. destruct (evaluateResponse env now context w).
        discriminate. }
      destruct (action =? "get_model_status")%string eqn:E5; [discriminate|].
      cbn [fst snd ret OrchestratorEndpoint.failed]. intros [= <-].
      split; [reflexivity|]. split; [reflexivity|].
      split; [reflexivity|]. split.
      * intros c [= -> _]. rewrite String.eqb_refl in E2. discriminate E2.
      * intros n' model H. discriminate H.
    + destruct (action =? "generate_question")%string eqn:E1.
      { unfold bind. rewrite generateInterviewQuestionWithout_closed.
        rewrite getAvailableModels_eligible. cbn [fst].
        destruct (eligible (store w)) as [|m ms] eqn:He; [discriminate|].
        rewrite <- He.
        cbn [fst snd store adapterCalls ret OrchestratorEndpoint.settle
             OrchestratorEndpoint.failed].
        intros [= <-]. split; [reflexivity|].
        split; [apply strikes_keep_usage|]. split; [|split].
        - intros _ H. apply String.eqb_eq in E1. subst action.
          now destruct (H n).
        - intros c [= E _]. rewrite E in E1. discriminate E1.
        - intros n' model _ Hin Hc.
          assert (Hs : In (codename model)
                         (map codename
                            (filter (OrchestratorEndpoint.questionCandidate env)
                               (eligible (store w))))).
          { apply in_map. apply filter_In. now split. }
          split; [now apply strikes_struck|].
          apply in_or_app. now right. }
      destruct (action =? "process_audio")%string eqn:E2.
      { unfold bind. rewrite processAudioInputWithout_closed.
        destruct (negb (fst (isModelAvailable "Echo" w))); [discriminate|].
        cbn [fst snd store ret OrchestratorEndpoint.settle
             OrchestratorEndpoint.failed].
        intros [= <-]. split; [reflexivity|]. split; [reflexivity|].
        split; [|split].
        - intros H _. apply String.eqb_eq in E2. subst action.
          now destruct (H (Missing n)).
        - intros c _. apply strike_disables.
        - intros n' model [= E _]. rewrite E in E1. discriminate E1. }
      destruct (action =? "generate_speech")%string eqn:E3.
      { unfold bind, ret.
        destruct (OrchestratorEndpoint.generateSpeechWithout env now w).
        discriminate. }
      destruct (action =? "evaluate_response")%string eqn:E4.
      { unfold bind, ret.
        destruct (OrchestratorEndpoint.evaluateResponseWithout env now w).
        discriminate. }
      destruct (action =? "get_model_status")%string eqn:E5; [discriminate|].
      cbn [fst snd ret OrchestratorEndpoint.failed]. intros [= <-].
      split; [reflexivity|]. split; [reflexivity|].
      split; [reflexivity|]. split.
      * intros c [= E _]. rewrite E in E2. discriminate E2.
      * intros n' model [= E _]. rewrite E in E1. discriminate E1.
    + cbn [fst snd ret OrchestratorEndpoint.failed]. intros [= <-].
      split; [reflexivity|]. split; [reflexivity|].
      split; [reflexivity|]. split.
      * intros c H. discriminate H.
      * intros n' model H. discriminate H.
Qed.

Lemma endpoint_failures_witness :
  let req := OrchestratorEndpoint.mkRequest "POST"
               (Returns ("generate_question", Missing Undefined)) in
  let w := Fixtures.worldOf Fixtures.tablePriority in
  let run := OrchestratorEndpoint.serve Fixtures.envAllAnswer Fixtures.mar15
               req w in
  fst run = OrchestratorEndpoint.Failed
              (mkResponse 500
                 "Cannot read properties of undefined (reading 'questionNumber')")
  /\ disabled "Orion" (store (snd run))
  /\ ai_usage_tracking (store (snd run)) = [].
Proof.
  intros req w run.
  destruct (endpoint_failures Fixtures.envAllAnswer Fixtures.mar15 req w)
    as (Hiff & Heffects).
  assert (Hfailed : fst run
                    = OrchestratorEndpoint.Failed
                        (mkResponse 500
                           "Cannot read properties of undefined (reading 'questionNumber')")).
  { apply Hiff. split; [cbn; discriminate|]. do 4 right.
    split; [vm_compute; discriminate|]. exists Undefined. now split. }
  split; [exact Hfailed|].
  destruct (Heffects _ Hfailed) as (_ & Hlog & _ & _ & Hstruck).
  split; [|exact Hlog].
  refine (proj1 (Hstruck Undefined (Fixtures.provider "Orion" true)
                   eq_refl _ eq_refl)).
  vm_compute. now left.
Defined.

(** X22.  Whatever the endpoint answers outside its catch block carries
    status 200 or 503, and a 503 means that no provider was tried and
    nothing changed; [evaluate_response] is never answered 503. *)
Theorem endpoint_answers :
  forall env now req w response,
    fst (OrchestratorEndpoint.serve env now req w)
    = OrchestratorEndpoint.Answer response ->
    (status response = 200
     \/ (status response = 503
         /\ snd (OrchestratorEndpoint.serve env now req w) = w))
    /\ (forall context,
          OrchestratorEndpoint.json req = Returns ("evaluate_response", context) ->
          status response = 200).
Proof.
  intros env now req w response. unfold OrchestratorEndpoint.serve.
  destruct (OrchestratorEndpoint.method req =? "OPTIONS")%string;
    [discriminate|].
  destruct (OrchestratorEndpoint.json req) as [[action [context|n]]|message];
    [| |discriminate].
  - destruct (action =? "generate_question")%string eqn:E1.
    { apply String.eqb_eq in E1. subst action. unfold bind, ret.
      pose proof (generate_question_status env now context w) as H.
      destruct (generateInterviewQuestion env now context w) as [r w'].
      cbn [fst snd] in *. intros [= <-]. split; [exact H|].
      intros c Hc. discriminate Hc. }
    destruct (action =? "process_audio")%string eqn:E2.
    { apply String.eqb_eq in E2. subst action. unfold bind.
      rewrite processAudioInput_closed.
      destruct (negb (fst (isModelAvailable "Echo" w))).
      - cbn. intros [= <-]. split; [right; now split|].
        intros c Hc. discriminate Hc.
      - destruct (truthy (ECHO_ENDPOINT env)).
        + destruct (callLocalSTT env (audioData context)) as [[t|n]|e];
            [|discriminate|discriminate].
          cbn. intros [= <-]. split; [now left|]. intros c Hc. discriminate Hc.
        + cbn. intros [= <-]. split; [now left|]. intros c Hc. discriminate Hc. }
    destruct (action =? "generate_speech")%string eqn:E3.
    { apply String.eqb_eq in E3. subst action. unfold bind, ret.
      pose proof (generateSpeech_status env now context w) as H.
      destruct (generateSpeech env now context w) as [r w'].
      cbn [fst snd] in *. intros [= <-]. split; [exact H|].
      intros c Hc. discriminate Hc. }
    destruct (action =? "evaluate_response")%string eqn:E4.
    { unfold bind, ret.
      pose proof (evaluateResponse_status env now context w) as H.
      destruct (evaluateResponse env now context w) as [r w'].
      cbn [fst snd] in *. intros [= <-]. split; [now left|]. intros c _. exact H. }
    destruct (action =? "get_model_status")%string; discriminate.
  - destruct (action =? "generate_question")%string eqn:E1.
    { apply String.eqb_eq in E1. subst action. unfold bind.
      rewrite generateInterviewQuestionWithout_closed.
      destruct (eligible (store w)); [|discriminate].
      cbn. intros [= <-]. split; [right; now split|].
      intros c Hc. discriminate Hc. }
    destruct (action =? "process_audio")%string eqn:E2.
    { apply String.eqb_eq in E2. subst action. unfold bind.
      rewrite processAudioInputWithout_closed.
      destruct (negb (fst (isModelAvailable "Echo" w))); [|discriminate].
      cbn. intros [= <-]. split; [right; now split|].
      intros c Hc. discriminate Hc. }
    destruct (action =? "generate_speech")%string eqn:E3.
    { apply String.eqb_eq in E3. subst action. unfold bind.
      rewrite generateSpeechWithout_closed.
      destruct (eligibleSpeech (store w)); cbn; intros [= <-].
      - split; [right; now split|]. intros c Hc. discriminate Hc.
      - split; [now left|]. intros c Hc. discriminate Hc. }
    destruct (action =? "evaluate_response")%string eqn:E4.
    { unfold bind. rewrite evaluateResponseWithout_closed.
      destruct (negb _ || negb _); cbn; intros [= <-];
        (split; [now left|]); intros c _; reflexivity. }
    destruct (action =? "get_model_status")%string; discriminate.
Qed.

Lemma endpoint_answers_witness :
  let req := OrchestratorEndpoint.mkRequest "POST"
               (Returns ("generate_question", Given (Fixtures.contextAt 1))) in
  let w := Fixtures.worldOf Fixtures.tableAllDisabled in
  snd (OrchestratorEndpoint.serve Fixtures.envAllAnswer Fixtures.mar15 req w) = w.
Proof.
  intros req w.
  destruct (endpoint_answers Fixtures.envAllAnswer Fixtures.mar15 req w
              (mkResponse 503
                 (Unavailable "No AI models available" ["Orion"; "Titan"; "Nova"]))
              eq_refl) as ([H|(_ & H)] & _).
  - discriminate H.
  - exact H.
Defined.

(** X25.  Requests whose body has no context and that do not end in the
    catch block.  [generate_speech] is refused with status 503 when no
    speech provider is eligible; otherwise every eligible provider with a
    credential is disabled without its adapter being invoked (reading
    [context.userResponse] throws first), and the answer is
    [{error: "All TTS models failed", useBrowserTTS: true}] with status
    200.  [evaluate_response] answers the fallback evaluation, and
    disables Athena exactly when it was available with a credential.
    [generate_question] and [process_audio] are refused with status 503
    when no provider, respectively Echo, is available.
    [get_model_status] reads no context.  None of them invokes an adapter
    or records usage. *)
Theorem requests_without_context :
  forall env now req w n,
    OrchestratorEndpoint.method req <> "OPTIONS" ->
    let run := OrchestratorEndpoint.serve env now req w in
    (OrchestratorEndpoint.json req = Returns ("generate_speech", Missing n) ->
     adapterCalls (snd run) = adapterCalls w
     /\ ai_usage_tracking (store (snd run)) = ai_usage_tracking (store w)
     /\ (fst (getAvailableModels ["Vox"; "Aether"] w) = [] ->
         run = (OrchestratorEndpoint.Answer
                  (mkResponse 503
                     (Unavailable "No TTS models available" ["Vox"; "Aether"])),
                w))
     /\ (fst (getAvailableModels ["Vox"; "Aether"] w) <> [] ->
         fst run = OrchestratorEndpoint.Answer
                     (mkResponse 200 (SpeechFailed "All TTS models failed" true))
         /\ forall model,
              In model (fst (getAvailableModels ["Vox"; "Aether"] w)) ->
              OrchestratorEndpoint.speechCandidate env model = true ->
              disabled (codename model) (store (snd run))))
    /\ (OrchestratorEndpoint.json req
        = Returns ("evaluate_response", Missing n) ->
        fst run = OrchestratorEndpoint.Answer
                    (mkResponse 200
                       (FallbackEvaluation
                          "Response received and noted. Continue with the interview."
                          "Fallback" (mkScores 7 7 7 7)))
        /\ adapterCalls (snd run) = adapterCalls w
        /\ ai_usage_tracking (store (snd run)) = ai_usage_tracking (store w)
        /\ (fst (isModelAvailable "Athena" w) = false
            \/ truthy_opt (ANTHROPIC_API_KEY env) = false -> snd run = w)
        /\ (fst (isModelAvailable "Athena" w) = true ->
            truthy_opt (ANTHROPIC_API_KEY env) = true ->
            disabled "Athena" (store (snd run))))
    /\ (OrchestratorEndpoint.json req
        = Returns ("generate_question", Missing n) ->
        fst (getAvailableModels ["Orion"; "Titan"; "Nova"] w) = [] ->
        run = (OrchestratorEndpoint.Answer
                 (mkResponse 503
                    (Unavailable "No AI models available"
                       ["Orion"; "Titan"; "Nova"])), w))
    /\ (OrchestratorEndpoint.json req = Returns ("process_audio", Missing n) ->
        fst (isModelAvailable "Echo" w) = false ->
        run = (OrchestratorEndpoint.Answer
                 (mkResponse 503
                    (Unavailable "Speech recognition unavailable" ["Echo"])),
               w))
    /\ (forall context,
          OrchestratorEndpoint.json req
          = Returns ("get_model_status", context) ->
          run = (OrchestratorEndpoint.Rows (fst (getModelStatus w)), w)).
Proof.
  intros env now req w n Hm run. subst run.
  apply String.eqb_neq in Hm. unfold OrchestratorEndpoint.serve. rewrite Hm.
  split; [|split; [|split; [|split]]].
  - intros ->. cbn [String.eqb Ascii.eqb Bool.eqb]. unfold bind.
    rewrite generateSpeechWithout_closed, getAvailableModels_speech.
    cbn [fst].
    destruct (eligibleSpeech (store w)) as [|m ms] eqn:E;
      cbn [fst snd ret store adapterCalls].
    + split; [reflexivity|]. split; [reflexivity|].
      split; [reflexivity|]. intros H. contradiction.
    + split; [reflexivity|]. split; [apply strikes_keep_usage|].
      split; [discriminate|]. intros _. split; [reflexivity|].
      intros model Hin Hc. apply strikes_struck. apply in_map.
      apply filter_In. now split.
  - intros ->. cbn [String.eqb Ascii.eqb Bool.eqb]. unfold bind.
    rewrite evaluateResponseWithout_closed.
    destruct (fst (isModelAvailable "Athena" w)); cbn [negb orb].
    + destruct (truthy_opt (ANTHROPIC_API_KEY env));
        cbn [negb fst snd ret store adapterCalls].
      * split; [reflexivity|]. split; [reflexivity|]. split; [reflexivity|].
        split; [intros [H|H]; discriminate H|]. intros _ _.
        apply strike_disables.
      * split; [reflexivity|]. split; [reflexivity|]. split; [reflexivity|].
        split; [reflexivity|]. intros _ H. discriminate H.
    + cbn [fst snd ret]. split; [reflexivity|]. split; [reflexivity|].
      split; [reflexivity|]. split; [reflexivity|]. intros H. discriminate H.
  - intros ->. rewrite getAvailableModels_eligible. cbn [fst]. intros He.
    cbn [String.eqb Ascii.eqb Bool.eqb]. unfold bind.
    rewrite generateInterviewQuestionWithout_closed, He. reflexivity.
  - intros -> Hav. cbn [String.eqb Ascii.eqb Bool.eqb]. unfold bind.
    rewrite processAudioInputWithout_closed, Hav. reflexivity.
  - intros context ->. destruct context; reflexivity.
Qed.

Lemma requests_without_context_witness :
  let req := OrchestratorEndpoint.mkRequest "POST"
               (Returns ("evaluate_response", Missing Null)) in
  let w := Fixtures.worldOf [Fixtures.provider "Athena" true] in
  let run := OrchestratorEndpoint.serve Fixtures.envAllAnswer Fixtures.mar15
               req w in
  disabled "Athena" (store (snd run)) /\ adapterCalls (snd run) = [].
Proof.
  intros req w run.
  destruct (requests_without_context Fixtures.envAllAnswer Fixtures.mar15
              req w Null) as (_ & Heval & _).
  - cbn. discriminate.
  - destruct (Heval eq_refl) as (_ & Hcalls & _ & _ & Hstruck).
    split; [now apply Hstruck|exact Hcalls].
Defined.

(** *** C2: when the answer is the fallback question *)

(** The loop ends without a text exactly when the first adapter that
    returns, if there is one, returns the empty text. *)
Lemma loop_finds_nothing_iff (env : Env) (context : InterviewContext)
    (models : list AiModel) :
  truthy (fst (loopResult env context models)) = false
  <-> (forall before model rest name question,
         models = before ++ model :: rest ->
         Forall (fun m => forall n q,
                   adapterFor env context m <> Some (n, Returns q)) before ->
         adapterFor env context model = Some (name, Returns question) ->
         truthy question = false).
Proof.
  split.
  - intros H before model rest name question -> Hbefore Ha.
    destruct (loop_through env context before (model :: rest) Hbefore)
      as (_ & _ & Hr).
    rewrite Hr in H. cbn [loopResult] in H. now rewrite Ha in H.
  - induction models as [|m ms IH]; intros H; [reflexivity|].
    cbn [loopResult].
    destruct (adapterFor env context m) as [[name [q|msg]]|] eqn:Ha.
    + cbn [fst]. apply (H [] m ms name q); [reflexivity|constructor|exact Ha].
    + apply IH. intros before model rest n q -> Hb Hm.
      apply (H (m :: before) model rest n q); [reflexivity| |exact Hm].
      constructor; [|exact Hb]. intros n' q'. rewrite Ha. discriminate.
    + apply IH. intros before model rest n q -> Hb Hm.
      apply (H (m :: before) model rest n q); [reflexivity| |exact Hm].
      constructor; [|exact Hb]. intros n' q'. rewrite Ha. discriminate.
Qed.

(** C2 (as amended).  When Orion, Titan and Nova all have
    [creditStatus = false], [generate_question] answers with status 503 and
    the error naming the three providers, and touches nothing.  The answer
    [usedModel = "Fallback"] is given exactly when at least one of them is
    eligible and the loop ends without a text: every adapter it invokes
    fails, up to the first one that returns, if any, which returns the
    empty text.  Its question is then the canned question selected by
    [questionNumber], and for [questionNumber = 1] the first one. *)
Theorem generate_question_without_provider :
  forall env now context w,
    let run := generateInterviewQuestion env now context w in
    let candidates := fst (getAvailableModels ["Orion"; "Titan"; "Nova"] w) in
    let nothingFound :=
      forall before model rest name question,
        candidates = before ++ model :: rest ->
        Forall (fun m => forall n q,
                  adapterFor env context m <> Some (n, Returns q)) before ->
        adapterFor env context model = Some (name, Returns question) ->
        truthy question = false in
    ((forall r, In r (ai_models (store w)) ->
                In (codename r) ["Orion"; "Titan"; "Nova"] ->
                credit_status r = false) ->
     run = (mkResponse 503
              (Unavailable "No AI models available" ["Orion"; "Titan"; "Nova"]),
            w))
    /\ (candidates <> [] -> nothingFound ->
        exists evaluation modelStatus,
          fst run
          = mkResponse 200
              (QuestionResult (getFallbackQuestion context) "Fallback"
                 evaluation modelStatus))
    /\ (forall question evaluation modelStatus,
          body (fst run)
          = QuestionResult question "Fallback" evaluation modelStatus ->
          candidates <> [] /\ nothingFound
          /\ question = getFallbackQuestion context)
    /\ (questionNumber context = 1 ->
        getFallbackQuestion context
        = Some "Tell me about a challenging project you've worked on recently.").
Proof.
  intros env now context w run candidates nothingFound.
  subst run candidates nothingFound.
  rewrite getAvailableModels_eligible. cbn [fst].
  split; [|split; [|split]].
  - intros Hall. apply generate_question_refused. now apply eligible_none.
  - intros Hsome Hnone.
    pose proof (generate_question_closed env now context w Hsome) as Hc.
    cbv zeta in Hc. rewrite Hc. cbn [fst].
    apply loop_finds_nothing_iff in Hnone. rewrite Hnone.
    eexists. eexists. reflexivity.
  - intros question evaluation modelStatus.
    destruct (eligible (store w)) as [|m ms] eqn:E.
    { rewrite generate_question_refused by exact E. discriminate. }
    assert (Hsome : eligible (store w) <> []) by (rewrite E; discriminate).
    pose proof (generate_question_closed env now context w Hsome) as Hc.
    cbv zeta in Hc. rewrite Hc. cbn [fst body ok]. rewrite <- E.
    destruct (truthy (fst (loopResult env context (eligible (store w)))))
      eqn:Ht.
    + intros [= _ Hname _ _].
      pose proof (loopResult_name env context (eligible (store w))) as Hn.
      rewrite Hname in Hn. discriminate Hn.
    + intros [= <- _ _]. split; [exact Hsome|]. split; [|reflexivity].
      now apply loop_finds_nothing_iff.
  - intros Hq. unfold getFallbackQuestion. now rewrite Hq.
Qed.

Lemma generate_question_without_provider_witness :
  generateInterviewQuestion Fixtures.envAllAnswer Fixtures.mar15
    (Fixtures.contextAt 1) (Fixtures.worldOf Fixtures.tableAllDisabled)
  = (mkResponse 503
       (Unavailable "No AI models available" ["Orion"; "Titan"; "Nova"]),
     Fixtures.worldOf Fixtures.tableAllDisabled)
  /\ (exists evaluation modelStatus,
        fst (generateInterviewQuestion Fixtures.envAllFail Fixtures.mar15
               (Fixtures.contextAt 3) (Fixtures.worldOf Fixtures.tablePriority))
        = mkResponse 200
            (QuestionResult
               (Some "What motivates you in your professional work?")
               "Fallback" evaluation modelStatus))
  /\ getFallbackQuestion (Fixtures.contextAt 1)
     = Some "Tell me about a challenging project you've worked on recently.".
Proof.
  split; [|split].
  - apply (proj1 (generate_question_without_provider Fixtures.envAllAnswer
                    Fixtures.mar15 (Fixtures.contextAt 1)
                    (Fixtures.worldOf Fixtures.tableAllDisabled))).
    intros r Hin Hname. cbn in Hin.
    destruct Hin as [<-|[<-|[<-|[<-|[]]]]]; try reflexivity.
    cbn in Hname. destruct Hname as [H|[H|[H|[]]]]; discriminate H.
  - apply (proj1 (proj2 (generate_question_without_provider Fixtures.envAllFail
                           Fixtures.mar15 (Fixtures.contextAt 3)
                           (Fixtures.worldOf Fixtures.tablePriority)))).
    + vm_compute. discriminate.
    + intros before model rest name question Hrows _ Ha.
      assert (Hin : In model Fixtures.tablePriority).
      { change Fixtures.tablePriority
          with (fst (getAvailableModels ["Orion"; "Titan"; "Nova"]
                       (Fixtures.worldOf Fixtures.tablePriority))).
        rewrite Hrows. apply in_or_app. right. left. reflexivity. }
      destruct Hin as [<-|[<-|[<-|[]]]]; vm_compute in Ha; discriminate Ha.
  - apply (proj2 (proj2 (proj2
             (generate_question_without_provider Fixtures.envAllFail
                Fixtures.mar15 (Fixtures.contextAt 1)
                (Fixtures.worldOf Fixtures.tablePriority))))).
    reflexivity.
Defined.

(** *** C4: the single-strike breaker, handler by handler *)

Lemma speechAdapterFor_name (env : Env) (context : InterviewContext)
    (model : AiModel) (name : string) (o : outcome string) :
  speechAdapterFor env context model = Some (name, o) -> name = codename model.
Proof.
  unfold speechAdapterFor.
  destruct (codename model =? "Vox")%string eqn:E1; cbn [andb].
  - apply String.eqb_eq in E1.
    destruct (truthy_opt (ELEVENLABS_API_KEY env)); [congruence|].
    destruct (codename model =? "Aether")%string eqn:E2; cbn [andb];
      [|discriminate].
    apply String.eqb_eq in E2. rewrite E1 in E2. discriminate E2.
  - destruct (codename model =? "Aether")%string eqn:E2; cbn [andb];
      [|discriminate].
    apply String.eqb_eq in E2.
    destruct (truthy_opt (AZURE_SPEECH_KEY env)); [congruence|discriminate].
Qed.

Lemma speechAttempts_incl (env : Env) (context : InterviewContext)
    (models : list AiModel) (name : string) :
  In name (speechAttempts env context models) -> In name (map codename models).
Proof.
  induction models as [|m rest IH]; [intros []|].
  cbn [speechAttempts map].
  destruct (speechAdapterFor env context m) as [[n [q|msg]]|] eqn:Ha.
  - intros [<-|[]]. left. symmetry. exact (speechAdapterFor_name _ _ _ _ _ Ha).
  - intros [<-|H]; [left|right; now apply IH].
    symmetry. exact (speechAdapterFor_name _ _ _ _ _ Ha).
  - intros H. right. now apply IH.
Qed.

Lemma tracked_keeps (env : Env) (cn name session : string) (tokens : Z)
    (st : Store) :
  disabled cn st -> disabled cn (tracked env name session tokens st).
Proof.
  intros H. unfold tracked. apply usage_keeps.
  exact (disabled_ext cn st _ eq_refl H).
Qed.

(** The breaker in the candidate loop of [generate_speech]. *)
Lemma speech_loop_strikes (env : Env) (now : Z) (context : InterviewContext)
    (w : World) (before : list AiModel) (model : AiModel)
    (rest : list AiModel) (name message : string) :
  fst (getAvailableModels ["Vox"; "Aether"] w) = before ++ model :: rest ->
  Forall (fun m => forall n url,
            speechAdapterFor env context m <> Some (n, Returns url)) before ->
  speechAdapterFor env context model = Some (name, Throws message) ->
  let run := generateSpeech env now context w in
  disabled (codename model) (store (snd run))
  /\ (NoDup (map codename (ai_models (store w))) ->
      count_occ string_dec (adapterCalls (snd run)) name
      = S (count_occ string_dec (adapterCalls w) name))
  /\ (forall next rest' name' audioUrl,
        rest = next :: rest' ->
        speechAdapterFor env context next = Some (name', Returns audioUrl) ->
        fst run = mkResponse 200 (SpeechResult audioUrl name')).
Proof.
  rewrite getAvailableModels_speech. cbn [fst]. intros Hrows Hbefore Hfail.
  cbv zeta.
  assert (He : eligibleSpeech (store w) <> []).
  { rewrite Hrows. intros E. symmetry in E. now apply app_cons_not_nil in E. }
  rewrite generateSpeech_served by exact He. rewrite trySpeech_closed. cbv zeta.
  destruct (speech_through env context before (model :: rest) Hbefore)
    as (Ha & Hs & Hf).
  cbn [speechAttempts speechStrikes speechFound] in Ha, Hs, Hf.
  rewrite Hfail in Ha, Hs, Hf.
  pose proof (speechAdapterFor_name _ _ _ _ _ Hfail) as Hname.
  assert (Hstruck : disabled (codename model)
                      (fold_left (strike now)
                         (speechStrikes env context (eligibleSpeech (store w)))
                         (store w))).
  { apply strikes_disable. left. rewrite Hrows, Hs. apply in_or_app.
    right. now left. }
  assert (Hcount : NoDup (map codename (ai_models (store w))) ->
                   count_occ string_dec
                     (adapterCalls w
                      ++ speechAttempts env context (eligibleSpeech (store w)))
                     name
                   = S (count_occ string_dec (adapterCalls w) name)).
  { intros Hnd.
    pose proof (unique_codenames_filter
                  (fun r => existsb (String.eqb (codename r)) ["Vox"; "Aether"]
                            && credit_status r)
                  _ Hnd) as Hnd'.
    fold (eligibleSpeech (store w)) in Hnd'. rewrite Hrows, map_app in Hnd'.
    cbn [map] in Hnd'.
    pose proof (NoDup_remove_2 _ _ _ Hnd') as Hfresh.
    assert (H0 : count_occ string_dec (speechAttempts env context before) name
                 = 0%nat).
    { apply count_occ_not_In. intros Hin. apply speechAttempts_incl in Hin.
      apply Hfresh. apply in_or_app. left. now rewrite <- Hname. }
    assert (H1 : count_occ string_dec (speechAttempts env context rest) name
                 = 0%nat).
    { apply count_occ_not_In. intros Hin. apply speechAttempts_incl in Hin.
      apply Hfresh. apply in_or_app. right. now rewrite <- Hname. }
    rewrite Hrows, Ha, !count_occ_app, H0. cbn [count_occ].
    destruct (string_dec name name) as [_|Hne]; [|contradiction].
    rewrite H1. lia. }
  destruct (speechFound env context (eligibleSpeech (store w)))
    as [[audioUrl found]|] eqn:Hfound; cbn [fst snd store adapterCalls].
  - split; [now apply tracked_keeps|]. split; [exact Hcount|].
    intros next rest' name' audioUrl' -> Hnext.
    rewrite Hrows, Hf in Hfound. cbn [speechFound] in Hfound.
    rewrite Hnext in Hfound. now injection Hfound as <- <-.
  - split; [exact Hstruck|]. split; [exact Hcount|].
    intros next rest' name' audioUrl' -> Hnext.
    rewrite Hrows, Hf in Hfound. cbn [speechFound] in Hfound.
    rewrite Hnext in Hfound. discriminate Hfound.
Qed.

Lemma strikes_not_evaluator (env : Env) (context : InterviewContext)
    (models : list AiModel) (cn : string) :
  In cn (strikes env context models) -> cn <> "Athena".
Proof.
  induction models as [|m rest IH]; [intros []|].
  cbn [strikes].
  destruct (adapterFor env context m) as [[n [q|msg]]|] eqn:Ha.
  - intros [].
  - intros [<-|H]; [|now apply IH].
    rewrite <- (adapterFor_name _ _ _ _ _ Ha).
    exact (adapterFor_not_evaluator _ _ _ _ _ Ha).
  - exact IH.
Qed.

Lemma loopResult_not_evaluator (env : Env) (context : InterviewContext)
    (models : list AiModel) :
  snd (loopResult env context models) <> "Athena".
Proof.
  induction models as [|model rest IH]; [discriminate|].
  cbn [loopResult].
  destruct (adapterFor env context model) as [[name [q|msg]]|] eqn:Ha;
    [|exact IH|exact IH].
  cbn [snd]. exact (adapterFor_not_evaluator _ _ _ _ _ Ha).
Qed.

(** Updating the rows of other providers leaves those of [cn] alone. *)
Lemma update_elsewhere (cn cn' : string) (f : AiModel -> AiModel)
    (rows : list AiModel) :
  cn' <> cn ->
  (forall r, codename (f r) = codename r) ->
  filter (fun r => (codename r =? cn)%string) (update_where_codename cn' f rows)
  = filter (fun r => (codename r =? cn)%string) rows.
Proof.
  intros Hne Hf. unfold update_where_codename.
  induction rows as [|r rows IH]; [reflexivity|].
  cbn [map filter]. rewrite IH.
  destruct (codename r =? cn')%string eqn:E; [|reflexivity].
  rewrite Hf. apply String.eqb_eq in E.
  replace (codename r =? cn)%string with false; [reflexivity|].
  symmetry. apply String.eqb_neq. congruence.
Qed.

Lemma strikes_elsewhere (now : Z) (cn : string) (struck : list string) :
  forall st,
    ~ In cn struck ->
    filter (fun r => (codename r =? cn)%string)
      (ai_models (fold_left (strike now) struck st))
    = filter (fun r => (codename r =? cn)%string) (ai_models st).
Proof.
  induction struck as [|cn' rest IH]; intros st Hnot; [reflexivity|].
  cbn [fold_left]. rewrite IH by (intros H; apply Hnot; now right).
  unfold strike, with_models. cbn [ai_models].
  apply update_elsewhere; [|reflexivity].
  intros E. apply Hnot. now left.
Qed.

Lemma tracked_elsewhere (env : Env) (cn name session : string) (tokens : Z)
    (st : Store) :
  name <> cn ->
  filter (fun r => (codename r =? cn)%string)
    (ai_models (tracked env name session tokens st))
  = filter (fun r => (codename r =? cn)%string) (ai_models st).
Proof.
  intros Hne. unfold tracked, update_model_usage, with_models, insert_usage.
  cbn [ai_models]. now apply update_elsewhere.
Qed.

(** C4 (as amended).  The single-strike breaker, handler by handler.  In
    the candidate loops of [generate_question] and [generate_speech], when
    the adapter of a candidate the loop reaches fails, every row of that
    provider has [creditStatus = false] in the store the request leaves
    behind, whatever its usage and limits; the provider is invoked exactly
    once in the request (codenames being unique); and the loop goes on to
    the next candidate, whose answer becomes the result.  In
    [evaluate_response] and [process_audio], which try one provider, a
    failing call disables Athena, respectively Echo, after one invocation;
    the request then answers the fallback evaluation, respectively passes
    the failure on.  The exception is the evaluation that follows a
    generated question: [generate_question] never changes a row of Athena,
    and a failure of that call only leaves [evaluation] empty. *)
Theorem adapter_failure_strikes :
  forall env now context w,
    (forall before model rest name message,
       fst (getAvailableModels ["Orion"; "Titan"; "Nova"] w)
       = before ++ model :: rest ->
       Forall (fun m => forall n q,
                 adapterFor env context m <> Some (n, Returns q)) before ->
       adapterFor env context model = Some (name, Throws message) ->
       let run := generateInterviewQuestion env now context w in
       disabled (codename model) (store (snd run))
       /\ (NoDup (map codename (ai_models (store w))) ->
           count_occ string_dec (adapterCalls (snd run)) name
           = S (count_occ string_dec (adapterCalls w) name))
       /\ (forall next rest' name' question,
             rest = next :: rest' ->
             adapterFor env context next = Some (name', Returns question) ->
             truthy question = true ->
             status (fst run) = 200
             /\ exists evaluation modelStatus,
                  body (fst run)
                  = QuestionResult (Some question) name' evaluation
                      modelStatus))
    /\ (forall before model rest name message,
          fst (getAvailableModels ["Vox"; "Aether"] w)
          = before ++ model :: rest ->
          Forall (fun m => forall n url,
                    speechAdapterFor env context m <> Some (n, Returns url))
                 before ->
          speechAdapterFor env context model = Some (name, Throws message) ->
          let run := generateSpeech env now context w in
          disabled (codename model) (store (snd run))
          /\ (NoDup (map codename (ai_models (store w))) ->
              count_occ string_dec (adapterCalls (snd run)) name
              = S (count_occ string_dec (adapterCalls w) name))
          /\ (forall next rest' name' audioUrl,
                rest = next :: rest' ->
                speechAdapterFor env context next
                = Some (name', Returns audioUrl) ->
                fst run = mkResponse 200 (SpeechResult audioUrl name')))
    /\ (forall message,
          fst (isModelAvailable "Athena" w) = true ->
          truthy_opt (ANTHROPIC_API_KEY env) = true ->
          evaluateWithAthena env (or_else (userResponse context) "") context
          = Throws message ->
          let run := evaluateResponse env now context w in
          disabled "Athena" (store (snd run))
          /\ adapterCalls (snd run) = adapterCalls w ++ ["Athena"]
          /\ fst run = getFallbackEvaluation context)
    /\ (forall message,
          fst (isModelAvailable "Echo" w) = true ->
          truthy (ECHO_ENDPOINT env) = true ->
          callLocalSTT env (audioData context) = Throws message ->
          let run := processAudioInput env now context w in
          disabled "Echo" (store (snd run))
          /\ adapterCalls (snd run) = adapterCalls w ++ ["Echo"]
          /\ fst run = Throws message)
    /\ (let run := generateInterviewQuestion env now context w in
        filter (fun r => (codename r =? "Athena")%string)
          (ai_models (store (snd run)))
        = filter (fun r => (codename r =? "Athena")%string)
            (ai_models (store w))
        /\ (forall message question usedModel evaluation modelStatus,
              evaluateWithAthena env (or_else (userResponse context) "") context
              = Throws message ->
              fst run
              = mkResponse 200
                  (QuestionResult question usedModel evaluation modelStatus) ->
              evaluation = None)).
Proof.
  intros env now context w. split; [|split; [|split; [|split]]].
  - intros before model rest name message Hrows Hbefore Hfail run.
    exact (question_loop_strikes env now context w before model rest name
             message (fst run) (snd run) Hrows Hbefore Hfail
             (surjective_pairing run)).
  - intros before model rest name message.
    apply speech_loop_strikes.
  - intros message Hav Hkey Hfail. cbv zeta.
    rewrite evaluateResponse_closed, Hav, Hkey, Hfail. cbn [negb orb fst snd].
    cbn [store adapterCalls].
    split; [apply strike_disables|]. now split.
  - intros message Hav Hep Hfail. cbv zeta.
    rewrite processAudioInput_closed, Hav, Hep, Hfail. cbn [negb fst snd].
    cbn [store adapterCalls].
    split; [apply strike_disables|]. now split.
  - cbv zeta.
    destruct (eligible (store w)) as [|m ms] eqn:E.
    { rewrite generate_question_refused by exact E. cbn [fst snd].
      split; [reflexivity|]. intros ? ? ? ? ? _ H. discriminate H. }
    assert (Hsome : eligible (store w) <> []) by (rewrite E; discriminate).
    pose proof (generate_question_closed env now context w Hsome) as Hc.
    cbv zeta in Hc. rewrite Hc. cbn [fst snd store]. split.
    + assert (Hstruck :
        filter (fun r => (codename r =? "Athena")%string)
          (ai_models
             (fold_left (strike now)
                (strikes env context (eligible (store w))) (store w)))
        = filter (fun r => (codename r =? "Athena")%string)
            (ai_models (store w))).
      { apply strikes_elsewhere. intros H.
        now apply strikes_not_evaluator in H. }
      destruct (truthy (fst (loopResult env context (eligible (store w)))));
        [|exact Hstruck].
      rewrite tracked_elsewhere; [exact Hstruck|].
      apply loopResult_not_evaluator.
    + intros message question usedModel evaluation modelStatus Hfail.
      rewrite Hfail. intros [= _ _ <- _].
      now destruct (evaluatorRuns context _).
Qed.

Lemma adapter_failure_strikes_witness :
  let rows := Fixtures.tablePriority ++ [Fixtures.provider "Athena" true] in
  let w := Fixtures.worldOf rows in
  let run := generateInterviewQuestion Fixtures.envOrionDown Fixtures.mar15
               Fixtures.contextWithAnswer w in
  disabled "Orion" (store (snd run))
  /\ count_occ string_dec (adapterCalls (snd run)) "Orion" = 1%nat
  /\ (exists evaluation modelStatus,
        body (fst run)
        = QuestionResult (Some "Titan asks?") "Titan" evaluation modelStatus)
  /\ filter (fun r => (codename r =? "Athena")%string)
       (ai_models (store (snd run)))
     = [Fixtures.provider "Athena" true].
Proof.
  intros rows w run.
  destruct (adapter_failure_strikes Fixtures.envOrionDown Fixtures.mar15
              Fixtures.contextWithAnswer w)
    as (Hloop & _ & _ & _ & Hathena & _).
  destruct (Hloop [] (Fixtures.provider "Orion" true)
              [Fixtures.provider "Titan" true; Fixtures.provider "Nova" true]
              "Orion" "Groq API error" eq_refl (Forall_nil _) eq_refl)
    as (Hdisabled & Hcount & Hnext).
  split; [exact Hdisabled|]. split; [|split].
  - apply Hcount. cbn. repeat constructor; cbn; intuition discriminate.
  - exact (proj2 (Hnext (Fixtures.provider "Titan" true)
                    [Fixtures.provider "Nova" true] "Titan" "Titan asks?"
                    eq_refl eq_refl eq_refl)).
  - exact Hathena.
Defined.

End OrchestratorMore.

(* ================================================================== *)
(** ** Facts about the credit-monitor endpoint                         *)
(* ================================================================== *)

Module MonitorEndpointFacts.

Import JS CreditMonitor.

Lemma reset_keeps_frame (now : Z) (st : Store) :
  ai_usage_tracking (snd (resetCredits now st)) = ai_usage_tracking st
  /\ map codename (ai_models (snd (resetCredits now st)))
     = map codename (ai_models st)
  /\ map daily_limit (ai_models (snd (resetCredits now st)))
     = map daily_limit (ai_models st)
  /\ map monthly_limit (ai_models (snd (resetCredits now st)))
     = map monthly_limit (ai_models st).
Proof.
  unfold resetCredits, with_models. cbn [snd ai_models ai_usage_tracking].
  split; [reflexivity|]. rewrite !map_map.
  repeat split; apply map_ext; intros r;
    now destruct (codename r =? "")%string.
Qed.

Ltac no_monitor_cause :=
  intros (_ & Hc);
  destruct Hc as
    [Hc|[(? & ? & Hc & Hunknown)|[(? & Hc & ? & ?)|(Hc & ?)]]];
  try discriminate Hc;
  try (injection Hc as <-); subst;
  try congruence;
  try (exfalso; apply Hunknown; cbn; tauto).

(** X23.  The credit-monitor endpoint answers a preflight with "ok".  It
    answers with status 500 in exactly four cases and then leaves the
    store as it was: the body does not parse; the action is none of the
    three it knows; [check_credits] cannot fetch the providers; the
    update of [reset_credits] fails, whose error is passed on.
    [get_exhausted_models] never fails: with the database failing it
    lists nothing.  Whatever the request, the provider rows stay in place
    with their codenames and limits and the usage log is never touched;
    only [check_credits] and [reset_credits] on an answering database can
    change the store. *)
Theorem monitor_endpoint_effects :
  forall now req db st,
    let run := MonitorEndpoint.serve now req db st in
    (MonitorEndpoint.method req = "OPTIONS" ->
     run = (MonitorEndpoint.Preflight, st))
    /\ (forall message,
          fst run = MonitorEndpoint.Failed (mkResponse 500 message)
          <-> MonitorEndpoint.method req <> "OPTIONS"
              /\ (MonitorEndpoint.json req = Throws message
                  \/ (message = "Unknown action"
                      /\ exists action,
                           MonitorEndpoint.json req = Returns action
                           /\ ~ In action ["check_credits"; "reset_credits";
                                           "get_exhausted_models"])
                  \/ (message = "Failed to fetch models"
                      /\ MonitorEndpoint.json req = Returns "check_credits"
                      /\ exists error, db = MonitorEndpoint.Down error)
                  \/ (MonitorEndpoint.json req = Returns "reset_credits"
                      /\ db = MonitorEndpoint.Down message)))
    /\ (forall response,
          fst run = MonitorEndpoint.Failed response ->
          status response = 500 /\ snd run = st)
    /\ (MonitorEndpoint.method req <> "OPTIONS" ->
        MonitorEndpoint.json req = Returns "get_exhausted_models" ->
        snd run = st
        /\ exists response,
             fst run = MonitorEndpoint.Listed response
             /\ status response = 200
             /\ (forall error, db = MonitorEndpoint.Down error ->
                               body response = [])
             /\ (db = MonitorEndpoint.Up ->
                 response = getExhaustedModels st))
    /\ (snd run <> st ->
        MonitorEndpoint.method req <> "OPTIONS"
        /\ db = MonitorEndpoint.Up
        /\ (MonitorEndpoint.json req = Returns "check_credits"
            \/ MonitorEndpoint.json req = Returns "reset_credits"))
    /\ (ai_usage_tracking (snd run) = ai_usage_tracking st
        /\ map codename (ai_models (snd run)) = map codename (ai_models st)
        /\ map daily_limit (ai_models (snd run))
           = map daily_limit (ai_models st)
        /\ map monthly_limit (ai_models (snd run))
           = map monthly_limit (ai_models st)).
Proof.
  intros now req db st run. subst run. unfold MonitorEndpoint.serve.
  destruct (MonitorEndpoint.method req =? "OPTIONS")%string eqn:Hm.
  { apply String.eqb_eq in Hm. cbn [fst snd].
    split; [reflexivity|]. split.
    { intros message. split; [discriminate|]. now intros (H & _). }
    split; [intros response H; discriminate H|].
    split; [intros H; contradiction|].
    split; [intros H; now destruct H|]. now repeat split. }
  apply String.eqb_neq in Hm.
  split; [intros H; contradiction|].
  destruct (MonitorEndpoint.json req) as [action|e] eqn:Hj.
  2:{ cbn [fst snd MonitorEndpoint.failed]. split.
      { intros message. split.
        - intros [= <-]. split; [exact Hm|]. now left.
        - no_monitor_cause. reflexivity. }
      split; [intros response [= <-]; now split|].
      split; [intros _ H; discriminate H|].
      split; [intros H; now destruct H|]. now repeat split. }
  destruct (action =? "check_credits")%string eqn:E1.
  { apply String.eqb_eq in E1. subst action.
    destruct db as [|error].
    - pose proof (CreditMonitorMore.check_credits_keeps_frame now st) as Hframe.
      destruct (checkAndUpdateCredits now st) as [r st']. cbn [fst snd] in *.
      split.
      { intros message. split; [discriminate|]. no_monitor_cause. }
      split; [intros response H; discriminate H|].
      split; [intros _ H; discriminate H|].
      split; [|exact Hframe].
      intros _. split; [exact Hm|]. split; [reflexivity|now left].
    - cbn [fst snd MonitorEndpoint.failed]. split.
      { intros message. split.
        - intros [= <-]. split; [exact Hm|]. right. right. left.
          split; [reflexivity|]. split; [reflexivity|]. now exists error.
        - no_monitor_cause. reflexivity. }
      split; [intros response [= <-]; now split|].
      split; [intros _ H; discriminate H|].
      split; [intros H; now destruct H|]. now repeat split. }
  destruct (action =? "reset_credits")%string eqn:E2.
  { apply String.eqb_eq in E2. subst action.
    destruct db as [|error].
    - pose proof (reset_keeps_frame now st) as Hframe.
      destruct (resetCredits now st) as [r st']. cbn [fst snd] in *.
      split.
      { intros message. split; [discriminate|]. no_monitor_cause. }
      split; [intros response H; discriminate H|].
      split; [intros _ H; discriminate H|].
      split; [|exact Hframe].
      intros _. split; [exact Hm|]. split; [reflexivity|now right].
    - cbn [fst snd MonitorEndpoint.failed]. split.
      { intros message. split.
        - intros [= <-]. split; [exact Hm|]. right. right. right.
          now split.
        - no_monitor_cause. unfold MonitorEndpoint.failed. congruence. }
      split; [intros response [= <-]; now split|].
      split; [intros _ H; discriminate H|].
      split; [intros H; now destruct H|]. now repeat split. }
  destruct (action =? "get_exhausted_models")%string eqn:E3.
  { apply String.eqb_eq in E3. subst action. split.
    { intros message. destruct db; cbn [fst];
        (split; [discriminate|]); no_monitor_cause. }
    split; [intros response H; destruct db; discriminate H|].
    split.
    { intros _ _. destruct db as [|error]; cbn [fst snd].
      - split; [reflexivity|]. exists (getExhaustedModels st).
        split; [reflexivity|]. split; [reflexivity|].
        split; [intros error H; discriminate H|reflexivity].
      - split; [reflexivity|]. exists (mkResponse 200 []).
        split; [reflexivity|]. split; [reflexivity|].
        split; [reflexivity|intros H; discriminate H]. }
    split; [intros H; destruct db; now destruct H|].
    destruct db; now repeat split. }
  cbn [fst snd MonitorEndpoint.failed].
  apply String.eqb_neq in E1, E2, E3. split.
  { intros message. split.
    - intros [= <-]. split; [exact Hm|]. right. left.
      split; [reflexivity|]. exists action. split; [reflexivity|].
      intros [H|[H|[H|[]]]]; congruence.
    - no_monitor_cause. reflexivity. }
  split; [intros response [= <-]; now split|].
  split; [intros _ [= H]; congruence|].
  split; [intros H; now destruct H|]. now repeat split.
Qed.

Lemma monitor_endpoint_effects_witness :
  let req := MonitorEndpoint.mkRequest "POST" (Returns "check_credits") in
  let st := mkStore Scenarios.mixedTable [] in
  let run := MonitorEndpoint.serve Fixtures.mar15 req
               (MonitorEndpoint.Down "connection refused") st in
  fst run = MonitorEndpoint.Failed (mkResponse 500 "Failed to fetch models")
  /\ snd run = st.
Proof.
  intros req st run.
  destruct (monitor_endpoint_effects Fixtures.mar15 req
              (MonitorEndpoint.Down "connection refused") st)
    as (_ & Hiff & Hfailed & _).
  assert (H : fst run
              = MonitorEndpoint.Failed (mkResponse 500 "Failed to fetch models")).
  { apply Hiff. split; [cbn; discriminate|]. right. right. left.
    split; [reflexivity|]. split; [reflexivity|].
    now exists "connection refused". }
  split; [exact H|]. exact (proj2 (Hfailed _ H)).
Defined.

End MonitorEndpointFacts.

(* ================================================================== *)
(** ** Further facts about concurrent usage tracking                   *)
(* ================================================================== *)

Module UsageTrackerMore.

Import UsageTracker UsageTrackerViews UsageTrackerFacts.

Lemma owed_split (amounts : UsageAmounts) (cn : string)
    (before after : Pool) (op : StoreOp) (ops : list StoreOp) :
  owedDaily amounts cn (List.concat (before ++ (op :: ops) :: after))
  = dueDaily amounts cn op
    + owedDaily amounts cn (List.concat (before ++ ops :: after))
  /\ owedMonthly amounts cn (List.concat (before ++ (op :: ops) :: after))
     = dueMonthly amounts cn op
       + owedMonthly amounts cn (List.concat (before ++ ops :: after)).
Proof.
  unfold owedDaily, owedMonthly. rewrite !concat_split, !map_app, !sumZ_app.
  cbn [map app]. unfold sumZ at 2 5 8 11. cbn [fold_right].
  fold (sumZ (map (dueDaily amounts cn) ops)).
  fold (sumZ (map (dueMonthly amounts cn) ops)).
  split; lia.
Qed.

(** One step keeps "table plus what is still owed" fixed, row by row. *)
Lemma step_settles (amounts : UsageAmounts) (c c' : Pool * Store) :
  step amounts c c' ->
  settled amounts (List.concat (fst c')) (ai_models (snd c'))
  = settled amounts (List.concat (fst c)) (ai_models (snd c))
  /\ Permutation (ai_usage_tracking (snd c') ++ pendingRows (fst c'))
                 (ai_usage_tracking (snd c) ++ pendingRows (fst c)).
Proof.
  intros Hstep. destruct Hstep as [before op ops after st]. cbn [fst snd].
  split.
  - unfold settled.
    destruct op as [row|name requests tokens]; cbn [exec].
    + cbn [insert_usage ai_models]. apply map_ext. intros r.
      destruct (owed_split amounts (codename r) before after
                  (InsertUsage row) ops) as (-> & ->).
      cbn [dueDaily dueMonthly]. f_equal; lia.
    + unfold update_model_usage, with_models, update_where_codename.
      cbn [ai_models]. rewrite map_map. apply map_ext. intros r.
      destruct (owed_split amounts (codename r) before after
                  (UpdateModelUsage name requests tokens) ops) as (Hd & Hm).
      cbn [dueDaily dueMonthly] in Hd, Hm.
      destruct (codename r =? name)%string.
      * cbn [add_usage codename]. rewrite Hd, Hm.
        unfold raised, add_usage. cbn. f_equal; lia.
      * rewrite Hd, Hm. f_equal; lia.
  - unfold pendingRows. rewrite !concat_split, !flat_map_app.
    destruct op as [row|name requests tokens]; cbn [exec flat_map opRows app].
    + cbn [insert_usage ai_usage_tracking]. rewrite <- app_assoc.
      apply Permutation_app_head. cbn [app]. apply Permutation_middle.
    + apply Permutation_refl.
Qed.

Lemma steps_settle (amounts : UsageAmounts) (c c' : Pool * Store) :
  steps amounts c c' ->
  settled amounts (List.concat (fst c')) (ai_models (snd c'))
  = settled amounts (List.concat (fst c)) (ai_models (snd c))
  /\ Permutation (ai_usage_tracking (snd c') ++ pendingRows (fst c'))
                 (ai_usage_tracking (snd c) ++ pendingRows (fst c)).
Proof.
  induction 1 as [c|c1 c2 c3 Hstep _ IH].
  - split; [reflexivity|apply Permutation_refl].
  - destruct (step_settles amounts c1 c2 Hstep) as (Hm & Hl).
    destruct IH as (Hm' & Hl'). split.
    + now rewrite Hm'.
    + now rewrite Hl'.
Qed.

Lemma programs_owe (amounts : UsageAmounts) (cn : string) (calls : list Call) :
  owedDaily amounts cn (List.concat (map program calls))
  = callsDaily amounts cn calls
  /\ owedMonthly amounts cn (List.concat (map program calls))
     = callsMonthly amounts cn calls.
Proof.
  unfold owedDaily, owedMonthly, callsDaily, callsMonthly, sumZ.
  induction calls as [|c calls (IHd & IHm)]; [now split|].
  cbn [map List.concat program app dueDaily dueMonthly fold_right].
  rewrite IHd, IHm. now split.
Qed.

Lemma settled_nothing (amounts : UsageAmounts) (rows : list AiModel) :
  settled amounts [] rows = rows.
Proof.
  unfold settled. rewrite <- (map_id rows) at 2. apply map_ext. intros r.
  apply raised_zero.
Qed.

(** The counters and the log once calls for any providers have completed. *)
Lemma completion_per_provider (amounts : UsageAmounts) (calls : list Call)
    (st st' : Store) :
  completes amounts calls st st' ->
  ai_models st'
  = map (fun r => raised (callsDaily amounts (codename r) calls)
                         (callsMonthly amounts (codename r) calls) r)
        (ai_models st)
  /\ Permutation (ai_usage_tracking st')
                 (ai_usage_tracking st ++ map usageRow calls).
Proof.
  intros (pool' & Hsteps & Hf).
  destruct (steps_settle amounts _ _ Hsteps) as (Hm & Hl).
  cbn [fst snd] in Hm, Hl.
  rewrite (finished_concat pool' Hf), settled_nothing in Hm.
  unfold pendingRows in Hl at 1. rewrite (finished_concat pool' Hf) in Hl.
  cbn [flat_map] in Hl. rewrite app_nil_r in Hl.
  rewrite (proj2 (proj2 (programs_pending amounts calls))) in Hl.
  split; [|exact Hl].
  rewrite Hm. unfold settled. apply map_ext. intros r.
  now destruct (programs_owe amounts (codename r) calls) as (-> & ->).
Qed.

(** X24.  Usage reports for any mix of providers, each a [trackUsage]
    call of the orchestrator (a log entry, then the increment), started
    concurrently: they can all complete, running them one after the other
    being one way, and however the store serialises their operations,
    once all have completed every provider's daily and monthly counters
    stand at their initial values plus the amounts of exactly the calls
    made for that provider, and the usage log has gained one entry per
    call.  (The increment is the store procedure [update_model_usage],
    taken as one atomic operation.) *)
Theorem concurrent_tracking_per_provider :
  forall env calls w,
    let amounts := Orchestrator.usage_amounts env in
    (forall c w0,
       Orchestrator.trackUsage env (modelCodename c) (sessionId c)
         (requests c) (tokens c) w0
       = (tt, Orchestrator.mkWorld
                (fold_left (exec amounts) (program c) (Orchestrator.store w0))
                (Orchestrator.adapterCalls w0)))
    /\ completes amounts calls (Orchestrator.store w)
         (Orchestrator.store (snd (trackAll env calls w)))
    /\ (forall st',
          completes amounts calls (Orchestrator.store w) st' ->
          ai_models st'
          = map (fun r => raised (callsDaily amounts (codename r) calls)
                                 (callsMonthly amounts (codename r) calls) r)
                (ai_models (Orchestrator.store w))
          /\ Permutation (ai_usage_tracking st')
                         (ai_usage_tracking (Orchestrator.store w)
                          ++ map usageRow calls)).
Proof.
  intros env calls w amounts. split; [|split].
  - intros c w0. apply trackUsage_runs_program.
  - apply trackAll_completes.
  - intros st'. apply completion_per_provider.
Qed.

Lemma concurrent_tracking_per_provider_witness :
  let w := Fixtures.worldOf Fixtures.tablePriority in
  let st' := Orchestrator.store
               (snd (trackAll Fixtures.envAllAnswer Scenarios.mixedCalls w)) in
  completes Fixtures.countRequests Scenarios.mixedCalls (Orchestrator.store w) st'
  /\ map (fun r => (codename r, current_daily_usage r)) (ai_models st')
     = [("Orion", 2); ("Titan", 0); ("Nova", 1)].
Proof.
  intros w st'.
  destruct (concurrent_tracking_per_provider Fixtures.envAllAnswer
              Scenarios.mixedCalls w) as (_ & Hseq & Hall).
  split; [exact Hseq|].
  destruct (Hall st' Hseq) as (Hrows & _).
  rewrite Hrows. reflexivity.
Defined.

End UsageTrackerMore.
